(** * The risk-list reconciliation worker (user-risk-demo.js), embedded in Rocq

    The worker pulls per-user risk levels from the risk-scoring API, stores
    the expected membership of three Gateway lists in a key-value store and
    patches the remote lists until they match.  This file embeds the
    transport ([makeApiRequest]), the two paginated fetchers, the snapshot
    writer, the reconciler ([syncGatewayListFromKV]), the full-replace
    path ([updateGatewayList]) and the consistency check
    ([handleReconciliation]) as state-passing functions over an explicit
    world, and proves the properties the specification states about them.
    It also embeds the entry point ([handleRequest]) with the validation of
    the configuration and the routes it serves, and states further
    properties that the code shows.

    Conventions.  Every asynchronous function of the source is a
    computation [M Pl A]: it takes the world and returns an outcome (a
    returned value, a thrown error, or exhaustion of the loop fuel of the
    model) with the new world.  The world holds the state of the platform
    the worker talks to (the HTTP endpoints, the timer and the clock), the
    key-value namespace USER_RISK_KV and a log of the effects performed, in
    order.  [console.log] calls are not modelled.

    Assumptions of the model.  Request bodies, response bodies and the
    values of the namespace are kept as the structured values that
    [JSON.stringify] writes and [JSON.parse] reads back, so a stored
    snapshot always parses.  The operations of the namespace themselves do
    not fail and entries do not expire during a run.  The messages carried
    by thrown errors stand for the messages of the engine.  What an
    endpoint answers is left to the platform: any answer, any failure and
    any change of the remote state are possible unless a statement says
    otherwise. *)

From stdpp Require Import gmap strings list fin_maps pretty.

(** ** JavaScript values *)

(** Truthiness of a string: only the empty string is falsy. *)
Definition truthy (s : string) : bool := bool_decide (s ≠ ""%string).

(** Truthiness of a value that is either [null]/[undefined] or a string. *)
Definition truthy_opt (o : option string) : bool :=
  match o with Some s => truthy s | None => false end.

(** A JavaScript [Set] of strings: its elements in insertion order, without
    duplicates.  [newSet l] is [new Set(l)], [Set_has] is [has], the size
    is the length and spreading the set gives the list itself. *)
Definition Set_has (s : list string) (x : string) : bool := bool_decide (x ∈ s).

Definition Set_add (s : list string) (x : string) : list string :=
  if Set_has s x then s else s ++ [x].

Definition newSet (l : list string) : list string := foldl Set_add [] l.

(** [setsEqual(setA, setB)]: equal sizes, and every item of [setA] is in
    [setB]. *)
Definition setsEqual (setA setB : list string) : bool :=
  if negb (length setA =? length setB) then false
  else forallb (λ item, Set_has setB item) setA.

(** ** Data model *)

(** A record of the risk-scoring summary.  Only [email] and
    [max_risk_level] are read by the reconciliation. *)
Record riskUser := RiskUser {
  email : string;
  max_risk_level : string;
  event_count : nat;
  last_event : string
}.

(** An item of a Gateway list. *)
Record listItem := ListItem {
  value : string;
  description : option string
}.

(** The JSON object kept in the key-value store under
    [gateway_list_<listId>].  [storeExpectedStateInKV] writes [emails],
    [riskLevel], [lastUpdated] and [userCount]; [updateGatewayList] writes
    [emails], [lastUpdated], [lastAttempt] and, on drift,
    [reconciliationNeeded] and [lastReconciliationAttempt].  A field the
    writer leaves out is [None]. *)
Record expectedState := ExpectedState {
  emails : list string;
  riskLevel : option string;
  lastUpdated : option string;
  userCount : option nat;
  lastAttempt : option string;
  reconciliationNeeded : option bool;
  lastReconciliationAttempt : option string
}.

(** A stored value with the [expirationTtl] option of the [put], if any. *)
Record kvEntry := KvEntry {
  kv_value : expectedState;
  kv_expirationTtl : option N
}.

(** ** Requests and responses *)

Inductive method := GET | POST | PUT | PATCH | DELETE.

(** The URLs the modelled functions build, all under
    [https://api.cloudflare.com/client/v4/accounts/<accountId>]:
    [/zt_risk_scoring/summary?page=&per_page=],
    [/gateway/lists/<listId>/items?page=&per_page=] and
    [/gateway/lists/<listId>]. *)
Inductive endpoint :=
  | RiskSummaryUrl (accountId : string) (page per_page : nat)
  | ListItemsUrl (accountId listId : string) (page per_page : nat)
  | GatewayListUrl (accountId listId : string).

(** The request bodies: none, the incremental patch
    [{append: [...], remove: [...]}] (a key that is not set is [None]), and
    the full replacement [{name, description, items}]. *)
Inductive reqBody :=
  | NoBody
  | PatchBody (append : option (list listItem)) (remove : option (list string))
  | PutBody (name : option string) (descr : string) (items : list listItem).

Record reqOptions := ReqOptions {
  opt_method : method;
  opt_headers : list (string * string);
  opt_body : reqBody
}.

Record pageInfo := PageInfo { ri_page : nat; ri_total_pages : nat }.

(** The [result] member of a response body. *)
Inductive jsResult :=
  | RAbsent
  | RItems (l : list listItem)
  | RUsers (l : list riskUser)
  | RListInfo (name : string) (descr : option string).

(** The parsed JSON body of an API response. *)
Record apiData := ApiData {
  data_success : bool;
  data_errors : list string;
  data_result : jsResult;
  data_result_info : option pageInfo
}.

(** A [Response]: its status, what [headers.get('Retry-After')] returns and
    what [json()] parses ([None]: the body is not JSON and [json()]
    throws). *)
Record response := Response {
  status : nat;
  retry_after : option string;
  json_body : option apiData
}.

(** What a [fetch] does: it rejects with a network error or resolves to a
    response. *)
Inductive netResult :=
  | NetError (message : string)
  | NetResponse (r : response).

(** The argument of a timer.  [Millis n] is [setTimeout(resolve, n)].
    [HeaderTimes1000 s] is [setTimeout(resolve, s * 1000)] for the string
    [s] of a Retry-After header: the product is taken by JavaScript's
    numeric conversion of [s]. *)
Inductive timerArg :=
  | Millis (n : nat)
  | HeaderTimes1000 (s : string).

(** ** The platform and the world *)

(** The collaborators of the worker: the HTTP endpoints (a state machine
    that answers a request and moves to a new state), the timer, and the
    clock read by [new Date().toISOString()]. *)
Class Platform (Pl : Type) := {
  plat_fetch : Pl → endpoint → reqOptions → netResult * Pl;
  plat_sleep : Pl → timerArg → Pl;
  plat_now : Pl → string
}.

(** The effects the worker performs, as logged in the world. *)
Inductive event :=
  | EvFetch (url : endpoint) (options : reqOptions)
  | EvSleep (t : timerArg)
  | EvKvGet (key : string)
  | EvKvPut (key : string).

Record world (Pl : Type) := World {
  w_plat : Pl;
  w_kv : gmap string kvEntry;
  w_log : list event
}.
Arguments World {Pl} _ _ _.
Arguments w_plat {Pl} _.
Arguments w_kv {Pl} _.
Arguments w_log {Pl} _.

(** ** The monad of asynchronous functions *)

Inductive outcome (A : Type) :=
  | Returned (a : A)
  | Thrown (message : string)
  | OutOfFuel.
Arguments Returned {A} _.
Arguments Thrown {A} _.
Arguments OutOfFuel {A}.

Definition M (Pl A : Type) : Type := world Pl → outcome A * world Pl.

Global Instance M_ret {Pl} : MRet (M Pl) := λ A a w, (Returned a, w).

Global Instance M_bind {Pl} : MBind (M Pl) := λ A B f m w,
  match m w with
  | (Returned a, w') => f a w'
  | (Thrown e, w') => (Thrown e, w')
  | (OutOfFuel, w') => (OutOfFuel, w')
  end.

Definition throw {Pl A} (message : string) : M Pl A := λ w, (Thrown message, w).

(** [try { m } catch (error) { h error.message }] *)
Definition try_catch {Pl A} (m : M Pl A) (h : string → M Pl A) : M Pl A := λ w,
  match m w with
  | (Thrown e, w') => h e w'
  | r => r
  end.

(** What the body of a loop does at its end: go to the next iteration with
    a new loop state, [break], or [return] from the enclosing function. *)
Inductive ctl (S R : Type) :=
  | Next (s : S)
  | Break (s : S)
  | Return (r : R).
Arguments Next {S R} _.
Arguments Break {S R} _.
Arguments Return {S R} _.

(** A [while]/[for] loop: the condition is tested as the source tests it;
    [fuel] bounds the number of iterations of the model, and running out
    of it is the outcome [OutOfFuel].  The result is the loop state at a
    normal exit ([inl]) or the value returned from inside the loop
    ([inr]). *)
Fixpoint while_ {Pl S R} (fuel : nat) (cond : S → bool)
    (body : S → M Pl (ctl S R)) (s : S) : M Pl (S + R) :=
  if cond s then
    match fuel with
    | 0 => λ w, (OutOfFuel, w)
    | S fuel' =>
        c ← body s;
        match c with
        | Next s' => while_ fuel' cond body s'
        | Break s' => mret (inl s')
        | Return r => mret (inr r)
        end
    end
  else mret (inl s).

(** The variables of a pagination loop: [allUsers] or [allItems], [page],
    [hasMore] and [totalRequests]. *)
Record pageLoop (A : Type) := PageLoop {
  st_all : list A;
  st_page : nat;
  st_hasMore : bool;
  st_totalRequests : nat
}.
Arguments PageLoop {A} _ _ _ _.
Arguments st_all {A} _.
Arguments st_page {A} _.
Arguments st_hasMore {A} _.
Arguments st_totalRequests {A} _.

Section Worker.
Context {Pl : Type} `{!Platform Pl}.

(** *** Primitive effects *)

Definition log_event (e : event) (w : world Pl) : world Pl :=
  World (w_plat w) (w_kv w) (w_log w ++ [e]).

(** [await fetch(url, options)] *)
Definition fetch (url : endpoint) (options : reqOptions) : M Pl response := λ w,
  let '(res, n') := plat_fetch (w_plat w) url options in
  let w' := World n' (w_kv w) (w_log w ++ [EvFetch url options]) in
  match res with
  | NetError message => (Thrown message, w')
  | NetResponse r => (Returned r, w')
  end.

(** [await new Promise(resolve => setTimeout(resolve, t))] *)
Definition sleep (t : timerArg) : M Pl unit := λ w,
  (Returned tt, World (plat_sleep (w_plat w) t) (w_kv w) (w_log w ++ [EvSleep t])).

(** [new Date().toISOString()] *)
Definition now : M Pl string := λ w, (Returned (plat_now (w_plat w)), w).

(** [await env.USER_RISK_KV.get(key)], with the stored JSON parsed. *)
Definition kv_get (key : string) : M Pl (option expectedState) := λ w,
  (Returned (kv_value <$> w_kv w !! key), log_event (EvKvGet key) w).

(** [await env.USER_RISK_KV.put(key, JSON.stringify(v), {expirationTtl})] *)
Definition kv_put (key : string) (v : expectedState) (ttl : option N) : M Pl unit := λ w,
  (Returned tt,
   World (w_plat w) (<[key := KvEntry v ttl]> (w_kv w)) (w_log w ++ [EvKvPut key])).

(** The message of the TypeError raised by reading a property of
    [undefined]. *)
Definition TypeError_undefined_json : string :=
  "Cannot read properties of undefined (reading 'json')".

Definition SyntaxError_json : string := "Unexpected token in JSON".

Definition TypeError_not_iterable : string := "items is not iterable".

(** [await response.json()] on what [makeApiRequest] returned: a TypeError
    on [undefined], a SyntaxError when the body is not JSON. *)
Definition response_json (r : option response) : M Pl apiData :=
  match r with
  | None => throw TypeError_undefined_json
  | Some resp =>
      match json_body resp with
      | None => throw SyntaxError_json
      | Some data => mret data
      end
  end.

(** *** makeApiRequest *)

(** [response.headers.get('Retry-After') || Math.pow(2, attempt)], times
    1000. *)
Definition retryAfter_ms (resp : response) (attempt : nat) : timerArg :=
  match retry_after resp with
  | Some s => if truthy s then HeaderTimes1000 s else Millis (2 ^ attempt * 1000)
  | None => Millis (2 ^ attempt * 1000)
  end.

(** One iteration of the [for] loop of [makeApiRequest]; the loop state is
    [attempt], and every way to the next iteration increments it. *)
Definition makeApiRequest_body (url : endpoint) (options : reqOptions)
    (maxRetries attempt : nat) : M Pl (ctl nat response) :=
  try_catch
    (resp ← fetch url options;
     if status resp =? 429 then
       _ ← sleep (retryAfter_ms resp attempt);
       mret (Next (S attempt))
     else if (500 <=? status resp) && (attempt <? maxRetries) then
       _ ← sleep (Millis (2 ^ attempt * 1000));
       mret (Next (S attempt))
     else mret (Return resp))
    (λ error,
       if attempt =? maxRetries then throw error
       else
         _ ← sleep (Millis (2 ^ attempt * 1000));
         mret (Next (S attempt))).

(** [makeApiRequest(url, options, maxRetries)].  A loop that ends without a
    [return] makes the function return [undefined], here [None]. *)
Definition makeApiRequest (url : endpoint) (options : reqOptions)
    (maxRetries : nat) : M Pl (option response) :=
  r ← while_ maxRetries (λ attempt, attempt <=? maxRetries)
        (makeApiRequest_body url options maxRetries) 1;
  match r with
  | inl _ => mret None
  | inr resp => mret (Some resp)
  end.

(** The default value of the parameter [maxRetries]. *)
Definition defaultMaxRetries : nat := 3.

(** *** The paginated fetchers *)

Record pagination := Pagination {
  totalItems : nat;
  totalRequests : nat;
  pagesProcessed : nat
}.

(** [const resultInfo = data.result_info || {};
     hasMore = resultInfo.page < resultInfo.total_pages]: a comparison with
    [undefined] is false. *)
Definition hasMore_of (data : apiData) : bool :=
  match data_result_info data with
  | Some info => ri_page info <? ri_total_pages info
  | None => false
  end.

Definition get_headers (apiToken : string) : list (string * string) :=
  [("Authorization", "Bearer " +:+ apiToken);
   ("Content-Type", "application/json");
   ("Cache-Control", "no-cache")]%string.

Definition json_headers (apiToken : string) : list (string * string) :=
  [("Authorization", "Bearer " +:+ apiToken);
   ("Content-Type", "application/json")]%string.

(** The object [fetchAllUserRiskScores] returns. *)
Record riskFetch := RiskFetch {
  rf_success : bool;
  rf_users : option (list riskUser);
  rf_pagination : option pagination;
  rf_errors : list string
}.

(** [data.result?.users || []] *)
Definition users_of (data : apiData) : list riskUser :=
  match data_result data with
  | RUsers l => l
  | _ => []
  end.

Definition fetchAllUserRiskScores_body (accountId apiToken : string)
    (st : pageLoop riskUser) : M Pl (ctl (pageLoop riskUser) riskFetch) :=
  let pageSize := 50 in
  let url := RiskSummaryUrl accountId (st_page st) pageSize in
  resp ← makeApiRequest url (ReqOptions GET (get_headers apiToken) NoBody)
           defaultMaxRetries;
  data ← response_json resp;
  let totalRequests := S (st_totalRequests st) in
  if negb (data_success data) then
    mret (Return (RiskFetch false None None (data_errors data)))
  else
    let allUsers := st_all st ++ users_of data in
    let hasMore := hasMore_of data in
    let page := S (st_page st) in
    _ ← (if hasMore then sleep (Millis 100) else mret tt);
    mret (Next (PageLoop allUsers page hasMore totalRequests)).

(** [fetchAllUserRiskScores(accountId, apiToken)].  The loop runs while
    [hasMore && totalRequests < 100]. *)
Definition fetchAllUserRiskScores (accountId apiToken : string) : M Pl riskFetch :=
  try_catch
    (r ← while_ 100 (λ st, st_hasMore st && (st_totalRequests st <? 100))
          (fetchAllUserRiskScores_body accountId apiToken)
          (PageLoop [] 1 true 0);
     match r with
     | inr early => mret early
     | inl st =>
         mret (RiskFetch true (Some (st_all st))
                 (Some (Pagination (length (st_all st)) (st_totalRequests st)
                          (st_page st - 1)))
                 [])
     end)
    (λ error, mret (RiskFetch false None None [error])).

(** The object [fetchGatewayListItems] returns.  Neither of its two
    [return] statements sets a [success] property: [lf_success], which the
    callers read, is [None] ([undefined]) in both. *)
Record listFetch := ListFetch {
  lf_riskLevel : option string;
  lf_listId : string;
  lf_items : list listItem;
  lf_pagination : option pagination;
  lf_error : option string;
  lf_success : option bool
}.

(** [const items = data.result || []; allItems.push(...items)]: spreading
    a value that is not an array throws. *)
Definition items_of (data : apiData) : M Pl (list listItem) :=
  match data_result data with
  | RAbsent => mret []
  | RItems l => mret l
  | _ => throw TypeError_not_iterable
  end.

Definition fetchGatewayListItems_body (accountId apiToken listId : string)
    (st : pageLoop listItem) : M Pl (ctl (pageLoop listItem) listFetch) :=
  let pageSize := 100 in
  let url := ListItemsUrl accountId listId (st_page st) pageSize in
  resp ← makeApiRequest url (ReqOptions GET (get_headers apiToken) NoBody)
           defaultMaxRetries;
  data ← response_json resp;
  let totalRequests := S (st_totalRequests st) in
  if negb (data_success data) then
    mret (Break (PageLoop (st_all st) (st_page st) (st_hasMore st) totalRequests))
  else
    items ← items_of data;
    let allItems := st_all st ++ items in
    let hasMore := hasMore_of data in
    let page := S (st_page st) in
    _ ← (if hasMore then sleep (Millis 50) else mret tt);
    mret (Next (PageLoop allItems page hasMore totalRequests)).

(** [fetchGatewayListItems(accountId, apiToken, listId, riskLevel)].  The
    loop runs while [hasMore && totalRequests < 50]; a page whose body has
    [success] false leaves the loop by [break]. *)
Definition fetchGatewayListItems (accountId apiToken listId : string)
    (riskLevel : option string) : M Pl listFetch :=
  try_catch
    (r ← while_ 50 (λ st, st_hasMore st && (st_totalRequests st <? 50))
          (fetchGatewayListItems_body accountId apiToken listId)
          (PageLoop [] 1 true 0);
     match r with
     | inr early => mret early
     | inl st =>
         mret (ListFetch riskLevel listId (st_all st)
                 (Some (Pagination (length (st_all st)) (st_totalRequests st)
                          (st_page st - 1)))
                 None None)
     end)
    (λ error, mret (ListFetch riskLevel listId [] None (Some error) None)).

(** *** The snapshot store *)

Definition kvKey (listId : string) : string := "gateway_list_" +:+ listId.

Record storeResult := StoreResult {
  store_success : bool;
  store_userCount : option nat;
  store_error : option string
}.

(** [storeExpectedStateInKV(env, listId, users, riskLevel)] *)
Definition storeExpectedStateInKV (listId : string) (users : list riskUser)
    (riskLevel : string) : M Pl storeResult :=
  try_catch
    (t ← now;
     let expectedState :=
       ExpectedState (email <$> users) (Some riskLevel) (Some t)
         (Some (length users)) None None None in
     _ ← kv_put (kvKey listId) expectedState None;
     mret (StoreResult true (Some (length users)) None))
    (λ error, mret (StoreResult false None (Some error))).

(** *** The reconciler *)

(** [[...expectedEmails].filter(email => !currentEmails.has(email))] *)
Definition emailsToAdd (expectedEmails currentEmails : list string) : list string :=
  List.filter (λ email, negb (Set_has currentEmails email)) expectedEmails.

(** [[...currentEmails].filter(email => !expectedEmails.has(email))] *)
Definition emailsToRemove (expectedEmails currentEmails : list string) : list string :=
  List.filter (λ email, negb (Set_has expectedEmails email)) currentEmails.

(** A template literal prints a missing member as [undefined]. *)
Definition show (o : option string) : string := default "undefined"%string o.

(** The [patchBody] of [syncGatewayListFromKV]: [append] and [remove] are
    set only when there is something to add or to remove. *)
Definition patchBody (expected : expectedState) (toAdd toRemove : list string) : reqBody :=
  PatchBody
    (if 0 <? length toAdd then
       Some ((λ email,
                ListItem email
                  (Some (show (riskLevel expected) +:+ " risk user - updated "
                           +:+ show (lastUpdated expected)))) <$> toAdd)
     else None)
    (if 0 <? length toRemove then Some toRemove else None).

Inductive jsError :=
  | ErrMessage (message : string)
  | ErrList (errors : list string).

(** The object [syncGatewayListFromKV] returns. *)
Record syncResult := SyncResult {
  sync_success : bool;
  sync_added : option nat;
  sync_removed : option nat;
  sync_totalUsers : option nat;
  sync_method : option string;
  sync_message : option string;
  sync_error : option jsError
}.

Definition sync_failed (e : jsError) : syncResult :=
  SyncResult false None None None None None (Some e).

(** [syncGatewayListFromKV(accountId, apiToken, listId, env, listName)];
    [listName] is only logged. *)
Definition syncGatewayListFromKV (accountId apiToken listId : string)
    (listName : string) : M Pl syncResult :=
  try_catch
    (expectedStateStr ← kv_get (kvKey listId);
     match expectedStateStr with
     | None => mret (sync_failed (ErrMessage "No expected state in KV"))
     | Some expectedState =>
         let expectedEmails := newSet (emails expectedState) in
         currentResult ← fetchGatewayListItems accountId apiToken listId None;
         if truthy_opt (lf_error currentResult) then
           mret (sync_failed (ErrMessage (default ""%string (lf_error currentResult))))
         else
           let currentEmails := newSet (value <$> lf_items currentResult) in
           let toAdd := emailsToAdd expectedEmails currentEmails in
           let toRemove := emailsToRemove expectedEmails currentEmails in
           if (0 <? length toAdd) || (0 <? length toRemove) then
             updateResult ←
               makeApiRequest (GatewayListUrl accountId listId)
                 (ReqOptions PATCH (json_headers apiToken)
                    (patchBody expectedState toAdd toRemove))
                 defaultMaxRetries;
             updateData ← response_json updateResult;
             if data_success updateData then
               mret (SyncResult true (Some (length toAdd)) (Some (length toRemove))
                       (Some (length (emails expectedState))) (Some "PATCH"%string)
                       None None)
             else mret (sync_failed (ErrList (data_errors updateData)))
           else
             mret (SyncResult true (Some 0) (Some 0)
                     (Some (length (emails expectedState))) None
                     (Some "Already in sync"%string) None)
     end)
    (λ error, mret (sync_failed (ErrMessage error))).

(** *** The full-replace path *)

(** The shapes of the object [updateGatewayList] returns:
    [{success: false, errors}],
    [{success: true, removed: 0, added: 0, users, message}] and
    [{success: true, removed, added, users, removedUsers, addedUsers,
      reconciliationNeeded, apiInconsistent}]. *)
Inductive updateResult :=
  | UpdateFailed (errors : option (list string))
  | UpdateNoChange (users : list string)
  | UpdateDone (removed added : nat) (users removedUsers addedUsers : list string)
      (reconciliationNeeded apiInconsistent : bool).

(** Truthiness of a member that is [undefined] or a boolean. *)
Definition truthy_bool (o : option bool) : bool := default false o.

(** [targetEmails.length] where [targetEmails] is a [Set]: a [Set] has a
    [size] and no [length], so the member is [undefined]. *)
Definition Set_length (s : list string) : option nat := None.

(** [x > 0] for a member that is [undefined] or a number: a comparison
    with [undefined] is false. *)
Definition gt_zero (o : option nat) : bool :=
  match o with Some n => 0 <? n | None => false end.

(** [s.split('T')[0]]; 84 is the code of the letter T. *)
Fixpoint split_T_0 (s : string) : string :=
  match s with
  | EmptyString => EmptyString
  | String c rest => if Ascii.eqb c (Ascii.ascii_of_nat 84) then EmptyString
                     else String c (split_T_0 rest)
  end.

Definition put_headers (apiToken : string) : list (string * string) :=
  [("Authorization", "Bearer " +:+ apiToken);
   ("Content-Type", "application/json");
   ("Cache-Control", "no-cache");
   ("Pragma", "no-cache")]%string.

Definition TypeError_undefined_name : string :=
  "Cannot read properties of undefined (reading 'name')".

(** [listInfo.name] and [listInfo.description || ''] for
    [listInfo = currentListData.result], read when the body of the first
    PUT is built: reading a member of [undefined] throws. *)
Definition listInfo_of (data : apiData) : M Pl (option string * string) :=
  match data_result data with
  | RAbsent => throw TypeError_undefined_name
  | RListInfo name descr =>
      mret (Some name, if truthy_opt descr then default ""%string descr else ""%string)
  | _ => mret (None, ""%string)
  end.

Definition expirationTtl_7_days : N := (86400 * 7)%N.

(** [updateGatewayList(accountId, apiToken, listId, users, env)] *)
Definition updateGatewayList (accountId apiToken listId : string)
    (users : list riskUser) : M Pl updateResult :=
  let ztListEndpoint := GatewayListUrl accountId listId in
  try_catch
    (expectedStateStr ← kv_get (kvKey listId);
     let expectedState :=
       default (ExpectedState [] None None None None None None) expectedStateStr in
     currentListResponse ←
       makeApiRequest ztListEndpoint (ReqOptions GET (get_headers apiToken) NoBody)
         defaultMaxRetries;
     currentListData ← response_json currentListResponse;
     if negb (data_success currentListData) then
       mret (UpdateFailed (Some (data_errors currentListData)))
     else
       currentItemsResult ← fetchGatewayListItems accountId apiToken listId None;
       if negb (truthy_bool (lf_success currentItemsResult)) then
         mret (UpdateFailed None)
       else
         let currentEmails := newSet (value <$> lf_items currentItemsResult) in
         let targetEmails := newSet (email <$> users) in
         let expectedEmails := newSet (emails expectedState) in
         let toAdd := emailsToAdd targetEmails currentEmails in
         let toRemove := emailsToRemove targetEmails currentEmails in
         let apiInconsistent := negb (setsEqual currentEmails expectedEmails) in
         if (length toAdd =? 0) && (length toRemove =? 0) && negb apiInconsistent then
           mret (UpdateNoChange targetEmails)
         else
           listInfo ← listInfo_of currentListData;
           clearResult ←
             makeApiRequest ztListEndpoint
               (ReqOptions PUT (put_headers apiToken)
                  (PutBody listInfo.1 listInfo.2 []))
               defaultMaxRetries;
           clearData ← response_json clearResult;
           if negb (data_success clearData) then
             mret (UpdateFailed (Some (data_errors clearData)))
           else
             added ←
               (if gt_zero (Set_length targetEmails) then
                  _ ← sleep (Millis 3000);
                  today ← now;
                  let targetItems :=
                    (λ email,
                       ListItem email
                         (Some ("Risk-based user - updated " +:+ split_T_0 today)))
                      <$> targetEmails in
                  addResult ←
                    makeApiRequest ztListEndpoint
                      (ReqOptions PUT (put_headers apiToken)
                         (PutBody listInfo.1 listInfo.2 targetItems))
                      defaultMaxRetries;
                  addData ← response_json addResult;
                  if negb (data_success addData) then
                    mret (Some (UpdateFailed (Some (data_errors addData))))
                  else mret None
                else mret None);
             match added with
             | Some failure => mret failure
             | None =>
                 t1 ← now;
                 t2 ← now;
                 let newExpectedState :=
                   ExpectedState targetEmails None (Some t1) None (Some t2) None None in
                 _ ← kv_put (kvKey listId) newExpectedState (Some expirationTtl_7_days);
                 _ ← sleep (Millis 3000);
                 verifyResult ← fetchGatewayListItems accountId apiToken listId None;
                 reconciliationNeeded ←
                   (if truthy_bool (lf_success verifyResult) then
                      let actualEmails := newSet (value <$> lf_items verifyResult) in
                      let expectedEmails := newSet targetEmails in
                      if negb (setsEqual actualEmails expectedEmails) then
                        t3 ← now;
                        let reconciliationState :=
                          ExpectedState targetEmails None (Some t1) None (Some t2)
                            (Some true) (Some t3) in
                        _ ← kv_put (kvKey listId) reconciliationState
                              (Some expirationTtl_7_days);
                        mret true
                      else mret false
                    else mret false);
                 mret (UpdateDone (length toRemove) (length toAdd) targetEmails
                         toRemove toAdd reconciliationNeeded apiInconsistent)
             end)
    (λ error, mret (UpdateFailed (Some [error]))).

(** *** The consistency check *)

Record reconEntry := ReconEntry {
  re_listId : string;
  re_listName : string;
  re_consistent : bool;
  re_expectedCount : nat;
  re_actualCount : nat;
  re_expectedEmails : list string;
  re_actualEmails : list string;
  re_lastUpdated : option string;
  re_reconciliationNeeded : bool
}.

(** The response of [handleReconciliation]: status 200 with
    [{success: true, timestamp, reconciliation}], or status 500 with
    [{success: false, error}]. *)
Inductive reconResponse :=
  | ReconOk (timestamp : string) (reconciliation : list reconEntry)
  | ReconError (message : string).

(** The [for (const list of listIds)] loop of [handleReconciliation]; a
    [continue] goes to the rest of the array with the results so far. *)
Fixpoint handleReconciliation_loop (accountId apiToken : string)
    (listIds : list (string * string)) (reconciliationResults : list reconEntry)
    : M Pl (list reconEntry) :=
  match listIds with
  | [] => mret reconciliationResults
  | (id, name) :: rest =>
      expectedStateStr ← kv_get (kvKey id);
      match expectedStateStr with
      | None => handleReconciliation_loop accountId apiToken rest reconciliationResults
      | Some expectedState =>
          let expectedEmails := newSet (emails expectedState) in
          currentItemsResult ← fetchGatewayListItems accountId apiToken id None;
          if negb (truthy_bool (lf_success currentItemsResult)) then
            handleReconciliation_loop accountId apiToken rest reconciliationResults
          else
            let currentEmails := newSet (value <$> lf_items currentItemsResult) in
            let isConsistent := setsEqual currentEmails expectedEmails in
            handleReconciliation_loop accountId apiToken rest
              (reconciliationResults ++
                 [ReconEntry id name isConsistent (length expectedEmails)
                    (length currentEmails) expectedEmails currentEmails
                    (lastUpdated expectedState)
                    (truthy_bool (reconciliationNeeded expectedState))])
      end
  end.

(** [handleReconciliation(accountId, apiToken, highRiskListId,
    mediumRiskListId, lowRiskListId, env)] *)
Definition handleReconciliation (accountId apiToken highRiskListId
    mediumRiskListId lowRiskListId : string) : M Pl reconResponse :=
  try_catch
    (let listIds := [(highRiskListId, "high"); (mediumRiskListId, "medium");
                     (lowRiskListId, "low")]%string in
     reconciliationResults ← handleReconciliation_loop accountId apiToken listIds [];
     t ← now;
     mret (ReconOk t reconciliationResults))
    (λ error, mret (ReconError error)).

(** *** The scheduled cycle *)

(** [userRiskScores.filter(user => user.max_risk_level === level)] *)
Definition usersAtLevel (level : string) (userRiskScores : list riskUser) : list riskUser :=
  List.filter (λ user, bool_decide (max_risk_level user = level)) userRiskScores.

Definition highRiskUsers := usersAtLevel "high".
Definition mediumRiskUsers := usersAtLevel "medium".
Definition lowRiskUsers := usersAtLevel "low".

(** Steps 1 to 4 of [handleRequest]: what the function does once the
    configuration has been validated and no route of a browser request has
    answered, which is the whole work of a scheduled invocation
    ([request = 'notfetch']).  The source returns nothing and logs the
    three sync results; they are returned here ([None] when the fetch of
    the risk scores failed). *)
Definition handleRequest_cycle (accountId apiToken highRiskListId
    mediumRiskListId lowRiskListId : string)
    : M Pl (option (syncResult * syncResult * syncResult)) :=
  userRiskResult ← fetchAllUserRiskScores accountId apiToken;
  if negb (rf_success userRiskResult) then mret None
  else
    let userRiskScores := default [] (rf_users userRiskResult) in
    _ ← storeExpectedStateInKV highRiskListId (highRiskUsers userRiskScores) "high";
    _ ← storeExpectedStateInKV mediumRiskListId (mediumRiskUsers userRiskScores) "medium";
    _ ← storeExpectedStateInKV lowRiskListId (lowRiskUsers userRiskScores) "low";
    highResult ← syncGatewayListFromKV accountId apiToken highRiskListId
                   "High Risk Users - New";
    mediumResult ← syncGatewayListFromKV accountId apiToken mediumRiskListId
                     "Medium Risk Users - New";
    lowResult ← syncGatewayListFromKV accountId apiToken lowRiskListId
                  "Low Risk Users - New";
    mret (Some (highResult, mediumResult, lowResult)).

End Worker.

(** ** The configuration and its validation *)

(** The [env] object the runtime hands to the worker: the variables are
    strings or absent, and [USER_RISK_KV] tells whether the object has the
    binding of the key-value namespace. *)
Record workerEnv := WorkerEnv {
  CLOUDFLARE_ACCOUNT_ID : option string;
  CLOUDFLARE_API_TOKEN : option string;
  HIGH_RISK_LIST_ID : option string;
  MEDIUM_RISK_LIST_ID : option string;
  LOW_RISK_LIST_ID : option string;
  USER_RISK_KV : bool
}.

(** A character class of a regular expression, as the ranges of character
    codes it lists: [[a-f0-9]] is [[(97, 102); (48, 57)]]. *)
Definition in_class (ranges : list (nat * nat)) (c : Ascii.ascii) : bool :=
  existsb (λ r, (r.1 <=? Ascii.nat_of_ascii c) && (Ascii.nat_of_ascii c <=? r.2)) ranges.

(** The other case of a letter. *)
Definition swap_case (c : Ascii.ascii) : Ascii.ascii :=
  let n := Ascii.nat_of_ascii c in
  if (65 <=? n) && (n <=? 90) then Ascii.ascii_of_nat (n + 32)
  else if (97 <=? n) && (n <=? 122) then Ascii.ascii_of_nat (n - 32)
  else c.

(** A class under the flag [i]: a character is in it when the character
    or its other case is listed. *)
Definition in_class_i (ranges : list (nat * nat)) (c : Ascii.ascii) : bool :=
  in_class ranges c || in_class ranges (swap_case c).

(** [/^[class]{min,max}$/.test(s)], and [/^[class]{min,}$/] when [max] is
    [None]: all the characters of [s] are in the class and their number is
    within the bounds. *)
Definition test_repeat (class : Ascii.ascii → bool) (min : nat) (max : option nat)
    (s : string) : bool :=
  forallb class (String.list_ascii_of_string s)
  && (min <=? String.length s)
  && match max with Some m => String.length s <=? m | None => true end.

(** [/^[a-f0-9]{32}$/i] *)
Definition account_id_pattern : string → bool :=
  test_repeat (in_class_i [(97, 102); (48, 57)]) 32 (Some 32).

(** [/^[A-Za-z0-9_-]{40,}$/] *)
Definition api_token_pattern : string → bool :=
  test_repeat (in_class [(65, 90); (97, 122); (48, 57); (95, 95); (45, 45)]) 40 None.

(** [/^[a-f0-9-]{36}$/i] *)
Definition list_id_pattern : string → bool :=
  test_repeat (in_class_i [(97, 102); (48, 57); (45, 45)]) 36 (Some 36).

(** What a validation function does: it returns, or it throws an [Error]
    with a message. *)
Inductive checked :=
  | Passes
  | Throws (message : string).

Definition TypeError_undefined_match : string :=
  "Cannot read properties of undefined (reading 'match')".

(** [validateEnvironmentVariables(env)].  [test] is given the value as a
    template literal would print it. *)
Definition validateEnvironmentVariables (env : workerEnv) : checked :=
  let required := [("CLOUDFLARE_ACCOUNT_ID"%string, CLOUDFLARE_ACCOUNT_ID env);
                   ("CLOUDFLARE_API_TOKEN"%string, CLOUDFLARE_API_TOKEN env)] in
  let missing := fst <$> List.filter (λ key, negb (truthy_opt key.2)) required in
  if 0 <? length missing then
    Throws ("Missing required environment variables: " +:+ String.concat ", " missing)
  else if negb (account_id_pattern (show (CLOUDFLARE_ACCOUNT_ID env))) then
    Throws "Invalid CLOUDFLARE_ACCOUNT_ID format"
  else
    match CLOUDFLARE_API_TOKEN env with
    | None => Throws TypeError_undefined_match
    | Some apiToken =>
        if negb (api_token_pattern apiToken) then Throws "Invalid CLOUDFLARE_API_TOKEN format"
        else Passes
    end.

(** [validateListId(listId, listName)] *)
Definition validateListId (listId : option string) (listName : string) : checked :=
  if negb (truthy_opt listId) || negb (list_id_pattern (show listId)) then
    Throws ("Invalid " +:+ listName +:+ " list ID format")
  else Passes.

(** ** Requests to the worker and its responses *)

(** The first argument of [handleRequest]: the string ['notfetch'] of a
    scheduled run, or a [Request], of which only the path of the URL is
    read. *)
Inductive request :=
  | notfetch
  | Request (pathname : string).

(** [{success: data.success, errors: data.errors}] *)
Record stepResult := StepResult {
  step_success : bool;
  step_errors : list string
}.

(** [{itemCount: r.items?.length || 0, items: ...}] *)
Record itemsView (A : Type) := ItemsView {
  itemCount : nat;
  view_items : list A
}.
Arguments ItemsView {A} _ _.
Arguments itemCount {A} _.
Arguments view_items {A} _.

(** [{success: r.success, method: r.method, added: r.added, removed:
    r.removed}]; the test of the snapshot sync has no [method] member,
    which is what [JSON.stringify] prints for a member that is
    [undefined]. *)
Record opSummary := OpSummary {
  op_success : bool;
  op_method : option string;
  op_added : option nat;
  op_removed : option nat
}.

(** The bodies of the responses, before [JSON.stringify]. *)
Inductive replyBody :=
  | BodyNull
  | BodyHTML
  | BodyConfigurationError (message : string)
  | BodyError (error : string) (details : jsError)
  | BodyFailure (error : string)
  | BodyForceCleanup
  | BodyUserRiskScores (high medium low : list riskUser)
      (total n_high n_medium n_low : nat) (pages : option pagination)
  | BodyRiskListsUpdated (totalUsers n_high n_medium n_low : nat)
  | BodyReconciliation (timestamp : string) (reconciliation : list reconEntry)
  | BodyUserRemovalTest (addStep : stepResult) (verifyAdd : itemsView listItem)
      (removeStep : stepResult) (verifyRemove : itemsView listItem) (testPassed : bool)
  | BodyKVSyncTest (initialSync : opSummary) (afterSync : itemsView string)
      (removalSync : opSummary) (afterRemoval : itemsView string) (testPassed : bool)
  | BodyPatchTest (addOperation : opSummary) (afterAdd : itemsView string)
      (mixedOperation : opSummary) (afterMixed : itemsView string)
      (removeOperation : opSummary) (afterRemoval : itemsView string)
      (testPassed : bool)
  | BodyText (text : string).

(** A [Response] of the worker. *)
Record reply := Reply {
  reply_status : nat;
  reply_headers : list (string * string);
  reply_body : replyBody
}.

Definition json_reply_headers : list (string * string) :=
  [("Content-Type", "application/json")]%string.

Definition cors_reply_headers : list (string * string) :=
  [("Content-Type", "application/json"); ("Access-Control-Allow-Origin", "*")]%string.

(** What each of the three configuration checks of [handleRequest] does
    on failure: [if (request !== 'notfetch') return new Response(..., {status:
    500}); return;]. *)
Definition configuration_error (request : request) (message : string) : option reply :=
  match request with
  | notfetch => None
  | Request _ => Some (Reply 500 json_reply_headers (BodyConfigurationError message))
  end.

(** The response of [handleReconciliation]. *)
Definition reconciliation_reply (r : reconResponse) : reply :=
  match r with
  | ReconOk timestamp reconciliation =>
      Reply 200 json_reply_headers (BodyReconciliation timestamp reconciliation)
  | ReconError message => Reply 500 json_reply_headers (BodyFailure message)
  end.

(** [pathname.slice(1)] *)
Definition slice_1 (s : string) : string :=
  match s with
  | EmptyString => EmptyString
  | String _ rest => rest
  end.

Definition TypeError_undefined_put : string :=
  "Cannot read properties of undefined (reading 'put')".

Definition TypeError_undefined_get : string :=
  "Cannot read properties of undefined (reading 'get')".

(** [f <$> m]: the result of [m], through [f]. *)
Global Instance M_fmap {Pl} : FMap (M Pl) := λ A B f m, x ← m; mret (f x).

Section Routes.
Context {Pl : Type} `{!Platform Pl}.

(** [storeExpectedStateInKV(env, listId, users, riskLevel)] for an [env]
    that may lack the binding: without it, reading [put] of [undefined]
    throws inside the [try] block, after the state has been built. *)
Definition storeExpectedStateInKV_in (env : workerEnv) (listId : string)
    (users : list riskUser) (riskLevel : string) : M Pl storeResult :=
  if USER_RISK_KV env then storeExpectedStateInKV listId users riskLevel
  else
    try_catch
      (t ← now;
       throw TypeError_undefined_put)
      (λ error, mret (StoreResult false None (Some error))).

(** [syncGatewayListFromKV(accountId, apiToken, listId, env, listName)]
    for an [env] that may lack the binding: without it, reading [get] of
    [undefined] is the first thing the [try] block does. *)
Definition syncGatewayListFromKV_in (env : workerEnv) (accountId apiToken listId : string)
    (listName : string) : M Pl syncResult :=
  if USER_RISK_KV env then syncGatewayListFromKV accountId apiToken listId listName
  else
    try_catch
      (throw TypeError_undefined_get)
      (λ error, mret (sync_failed (ErrMessage error))).

(** [handleReconciliation(accountId, apiToken, highRiskListId,
    mediumRiskListId, lowRiskListId, env)] for an [env] that may lack the
    binding: without it, the first iteration of the loop throws, and the
    [catch] block answers. *)
Definition handleReconciliation_in (env : workerEnv) (accountId apiToken highRiskListId
    mediumRiskListId lowRiskListId : string) : M Pl reconResponse :=
  if USER_RISK_KV env then
    handleReconciliation accountId apiToken highRiskListId mediumRiskListId lowRiskListId
  else
    try_catch
      (throw TypeError_undefined_get)
      (λ error, mret (ReconError error)).

(** [getUserRiskScoresAPI(accountId, apiToken)] *)
Definition getUserRiskScoresAPI (accountId apiToken : string) : M Pl reply :=
  try_catch
    (allUsers ← fetchAllUserRiskScores accountId apiToken;
     if negb (rf_success allUsers) then
       mret (Reply 500 cors_reply_headers
               (BodyError "Failed to fetch user risk scores" (ErrList (rf_errors allUsers))))
     else
       let users := default [] (rf_users allUsers) in
       let high := usersAtLevel "high" users in
       let medium := usersAtLevel "medium" users in
       let low := usersAtLevel "low" users in
       mret (Reply 200 cors_reply_headers
               (BodyUserRiskScores high medium low
                  (length users) (length high) (length medium) (length low)
                  (rf_pagination allUsers))))
    (λ error,
       mret (Reply 500 cors_reply_headers
               (BodyError "Internal server error" (ErrMessage error)))).

(** [updateRiskListsAPI(accountId, apiToken, highRiskListId,
    mediumRiskListId, lowRiskListId, env)].  The [env] it is given is not
    read: the one it hands to [handleRequest] has the two variables and the
    three list ids, and no [USER_RISK_KV]. *)
Definition updateRiskListsAPI
    (handleRequest : request → workerEnv → M Pl (option reply))
    (accountId apiToken highRiskListId mediumRiskListId lowRiskListId : string)
    (env : workerEnv) : M Pl reply :=
  try_catch
    (allUsers ← fetchAllUserRiskScores accountId apiToken;
     if negb (rf_success allUsers) then
       mret (Reply 500 cors_reply_headers
               (BodyError "Failed to fetch user risk scores before updating lists"
                  (ErrList (rf_errors allUsers))))
     else
       let users := default [] (rf_users allUsers) in
       result ← handleRequest notfetch
                  (WorkerEnv (Some accountId) (Some apiToken) (Some highRiskListId)
                     (Some mediumRiskListId) (Some lowRiskListId) false);
       let high := usersAtLevel "high" users in
       let medium := usersAtLevel "medium" users in
       let low := usersAtLevel "low" users in
       mret (Reply 200 cors_reply_headers
               (BodyRiskListsUpdated (length users) (length high) (length medium)
                  (length low))))
    (λ error,
       mret (Reply 500 cors_reply_headers
               (BodyError "Failed to update risk lists" (ErrMessage error)))).

Definition medium_list_name : string := "Medium Risk Users - New".

Definition medium_list_description : string :=
  "New medium risk users list (not protected by policies)".

(** [{itemCount: r.items?.length || 0, items: r.items}] *)
Definition items_view (r : listFetch) : itemsView listItem :=
  ItemsView (length (lf_items r)) (lf_items r).

(** [{itemCount: r.items?.length || 0,
      items: r.items?.map(item => item.value) || []}] *)
Definition values_view (r : listFetch) : itemsView string :=
  ItemsView (length (lf_items r)) (value <$> lf_items r).

(** [testUserRemoval(accountId, apiToken, mediumRiskListId)] *)
Definition testUserRemoval (accountId apiToken mediumRiskListId : string) : M Pl reply :=
  try_catch
    (let testEmail := "test@example.com"%string in
     addResult ←
       makeApiRequest (GatewayListUrl accountId mediumRiskListId)
         (ReqOptions PUT (json_headers apiToken)
            (PutBody (Some medium_list_name) medium_list_description
               [ListItem testEmail (Some "Test user for removal testing"%string)]))
         defaultMaxRetries;
     addData ← response_json addResult;
     _ ← sleep (Millis 2000);
     verifyAddResult ← fetchGatewayListItems accountId apiToken mediumRiskListId None;
     _ ← sleep (Millis 2000);
     removeResult ←
       makeApiRequest (GatewayListUrl accountId mediumRiskListId)
         (ReqOptions PUT (json_headers apiToken)
            (PutBody (Some medium_list_name) medium_list_description []))
         defaultMaxRetries;
     removeData ← response_json removeResult;
     _ ← sleep (Millis 2000);
     verifyRemoveResult ← fetchGatewayListItems accountId apiToken mediumRiskListId None;
     mret (Reply 200 cors_reply_headers
             (BodyUserRemovalTest
                (StepResult (data_success addData) (data_errors addData))
                (items_view verifyAddResult)
                (StepResult (data_success removeData) (data_errors removeData))
                (items_view verifyRemoveResult)
                (length (lf_items verifyRemoveResult) =? 0))))
    (λ error, mret (Reply 500 cors_reply_headers (BodyFailure error))).

(** A user object that has only the [email] member, as the test routes
    build them; the other members are absent in the source and are not
    read by [storeExpectedStateInKV]. *)
Definition email_only (e : string) : riskUser := RiskUser e "" 0 "".

(** [{success: r.success, added: r.added, removed: r.removed}] *)
Definition sync_summary (r : syncResult) : opSummary :=
  OpSummary (sync_success r) None (sync_added r) (sync_removed r).

(** [{success: r.success, method: r.method, added: r.added, removed:
    r.removed}] *)
Definition patch_summary (r : syncResult) : opSummary :=
  OpSummary (sync_success r) (sync_method r) (sync_added r) (sync_removed r).

(** [testKVSync(accountId, apiToken, mediumRiskListId, env)] *)
Definition testKVSync (accountId apiToken mediumRiskListId : string) (env : workerEnv)
    : M Pl reply :=
  try_catch
    (let testUsers := [email_only "kvtest1@example.com"; email_only "kvtest2@example.com"] in
     _ ← storeExpectedStateInKV_in env mediumRiskListId testUsers "medium";
     syncResult ← syncGatewayListFromKV_in env accountId apiToken mediumRiskListId
                    medium_list_name;
     _ ← sleep (Millis 3000);
     verifyResult ← fetchGatewayListItems accountId apiToken mediumRiskListId None;
     _ ← storeExpectedStateInKV_in env mediumRiskListId [] "medium";
     removeResult ← syncGatewayListFromKV_in env accountId apiToken mediumRiskListId
                      medium_list_name;
     _ ← sleep (Millis 3000);
     finalResult ← fetchGatewayListItems accountId apiToken mediumRiskListId None;
     mret (Reply 200 cors_reply_headers
             (BodyKVSyncTest (sync_summary syncResult) (values_view verifyResult)
                (sync_summary removeResult) (values_view finalResult)
                (length (lf_items finalResult) =? 0))))
    (λ error, mret (Reply 500 cors_reply_headers (BodyFailure error))).

(** [testPatchMethod(accountId, apiToken, mediumRiskListId, env)] *)
Definition testPatchMethod (accountId apiToken mediumRiskListId : string) (env : workerEnv)
    : M Pl reply :=
  try_catch
    (_ ← storeExpectedStateInKV_in env mediumRiskListId [] "medium";
     _ ← syncGatewayListFromKV_in env accountId apiToken mediumRiskListId medium_list_name;
     _ ← sleep (Millis 2000);
     let initialUsers := [email_only "patch1@example.com"; email_only "patch2@example.com"] in
     _ ← storeExpectedStateInKV_in env mediumRiskListId initialUsers "medium";
     addResult ← syncGatewayListFromKV_in env accountId apiToken mediumRiskListId
                   medium_list_name;
     _ ← sleep (Millis 3000);
     verifyAddResult ← fetchGatewayListItems accountId apiToken mediumRiskListId None;
     let updatedUsers := [email_only "patch2@example.com"; email_only "patch3@example.com";
                          email_only "patch4@example.com"] in
     _ ← storeExpectedStateInKV_in env mediumRiskListId updatedUsers "medium";
     mixedResult ← syncGatewayListFromKV_in env accountId apiToken mediumRiskListId
                     medium_list_name;
     _ ← sleep (Millis 3000);
     verifyMixedResult ← fetchGatewayListItems accountId apiToken mediumRiskListId None;
     _ ← storeExpectedStateInKV_in env mediumRiskListId [] "medium";
     removeResult ← syncGatewayListFromKV_in env accountId apiToken mediumRiskListId
                      medium_list_name;
     _ ← sleep (Millis 3000);
     finalResult ← fetchGatewayListItems accountId apiToken mediumRiskListId None;
     mret (Reply 200 cors_reply_headers
             (BodyPatchTest (patch_summary addResult) (values_view verifyAddResult)
                (patch_summary mixedResult) (values_view verifyMixedResult)
                (patch_summary removeResult) (values_view finalResult)
                (length (lf_items finalResult) =? 0))))
    (λ error, mret (Reply 500 cors_reply_headers (BodyFailure error))).

(** Steps 1 to 4 of [handleRequest], reached when no route has returned:
    the fetch of the risk scores, the three snapshots and the three
    syncs.  Nothing is returned. *)
Definition handleRequest_steps (env : workerEnv) (accountId apiToken highRiskListId
    mediumRiskListId lowRiskListId : string) : M Pl (option reply) :=
  userRiskResult ← fetchAllUserRiskScores accountId apiToken;
  if negb (rf_success userRiskResult) then mret None
  else
    let userRiskScores := default [] (rf_users userRiskResult) in
    _ ← storeExpectedStateInKV_in env highRiskListId (highRiskUsers userRiskScores) "high";
    _ ← storeExpectedStateInKV_in env mediumRiskListId (mediumRiskUsers userRiskScores)
          "medium";
    _ ← storeExpectedStateInKV_in env lowRiskListId (lowRiskUsers userRiskScores) "low";
    highResult ← syncGatewayListFromKV_in env accountId apiToken highRiskListId
                   "High Risk Users - New";
    mediumResult ← syncGatewayListFromKV_in env accountId apiToken mediumRiskListId
                     "Medium Risk Users - New";
    lowResult ← syncGatewayListFromKV_in env accountId apiToken lowRiskListId
                  "Low Risk Users - New";
    mret None.

(** The handlers of [handleRequest] that are not modelled: they use URLs,
    stored values or a concurrency ([Promise.all]) that the platform of
    this development does not describe.  [handleRequest] is given them;
    [manualRemoveUser] is the block of the route [/api/manual-remove-user],
    which always returns a response. *)
Record otherHandlers := OtherHandlers {
  getHealthCheckAPI : string → string → M Pl reply;
  getMetricsAPI : workerEnv → M Pl reply;
  createNewGatewayLists : string → string → M Pl reply;
  testClearMethod : string → string → string → M Pl reply;
  getGatewayListsAPI : string → string → string → string → string → M Pl reply;
  manualRemoveUser : string → string → string → M Pl reply
}.

(** The body of [handleRequest(request, env)]; [handleRequest] is the
    function itself, for the calls it makes to itself (directly on the
    route [/api/force-cleanup], through [updateRiskListsAPI] on
    [/api/update-risk-lists]).  The result is the [Response], or [None]
    where the source returns nothing.  Past the validation the variables
    are strings, named as the source names them. *)
Definition handleRequest_body (others : otherHandlers)
    (handleRequest : request → workerEnv → M Pl (option reply))
    (request : request) (env : workerEnv) : M Pl (option reply) :=
  match validateEnvironmentVariables env with
  | Throws message => mret (configuration_error request message)
  | Passes =>
  let accountId := show (CLOUDFLARE_ACCOUNT_ID env) in
  let apiToken := show (CLOUDFLARE_API_TOKEN env) in
  if negb (truthy_opt (HIGH_RISK_LIST_ID env)) || negb (truthy_opt (MEDIUM_RISK_LIST_ID env))
     || negb (truthy_opt (LOW_RISK_LIST_ID env)) then
    let missingLists :=
      (if negb (truthy_opt (HIGH_RISK_LIST_ID env)) then ["HIGH_RISK_LIST_ID"%string] else [])
      ++ (if negb (truthy_opt (MEDIUM_RISK_LIST_ID env)) then ["MEDIUM_RISK_LIST_ID"%string]
          else [])
      ++ (if negb (truthy_opt (LOW_RISK_LIST_ID env)) then ["LOW_RISK_LIST_ID"%string]
          else []) in
    mret (configuration_error request
            ("Missing Gateway List IDs: " +:+ String.concat ", " missingLists
             +:+ ". Please set these via wrangler secrets or create new lists using /api/create-new-lists"))
  else
  match validateListId (HIGH_RISK_LIST_ID env) "high risk" with
  | Throws message => mret (configuration_error request message)
  | Passes =>
  match validateListId (MEDIUM_RISK_LIST_ID env) "medium risk" with
  | Throws message => mret (configuration_error request message)
  | Passes =>
  match validateListId (LOW_RISK_LIST_ID env) "low risk" with
  | Throws message => mret (configuration_error request message)
  | Passes =>
  let highRiskListId := show (HIGH_RISK_LIST_ID env) in
  let mediumRiskListId := show (MEDIUM_RISK_LIST_ID env) in
  let lowRiskListId := show (LOW_RISK_LIST_ID env) in
  match request with
  | notfetch =>
      handleRequest_steps env accountId apiToken highRiskListId mediumRiskListId
        lowRiskListId
  | Request pathname =>
      if bool_decide (slice_1 pathname = "favicon.ico"%string) then
        mret (Some (Reply 204 [] BodyNull))
      else if bool_decide (pathname = "/api/user-risk-scores"%string) then
        Some <$> getUserRiskScoresAPI accountId apiToken
      else if bool_decide (pathname = "/api/health"%string) then
        Some <$> getHealthCheckAPI others accountId apiToken
      else if bool_decide (pathname = "/api/metrics"%string) then
        Some <$> getMetricsAPI others env
      else if bool_decide (pathname = "/api/reconcile-lists"%string) then
        Some ∘ reconciliation_reply
          <$> handleReconciliation_in env accountId apiToken highRiskListId
                mediumRiskListId lowRiskListId
      else if bool_decide (pathname = "/api/create-new-lists"%string) then
        Some <$> createNewGatewayLists others accountId apiToken
      else if bool_decide (pathname = "/api/test-user-removal"%string) then
        Some <$> testUserRemoval accountId apiToken mediumRiskListId
      else if bool_decide (pathname = "/api/test-clear-method"%string) then
        Some <$> testClearMethod others accountId apiToken mediumRiskListId
      else if bool_decide (pathname = "/api/test-kv-sync"%string) then
        Some <$> testKVSync accountId apiToken mediumRiskListId env
      else if bool_decide (pathname = "/api/test-patch-method"%string) then
        Some <$> testPatchMethod accountId apiToken mediumRiskListId env
      else if bool_decide (pathname = "/api/gateway-lists"%string) then
        Some <$> getGatewayListsAPI others accountId apiToken highRiskListId
                   mediumRiskListId lowRiskListId
      else if bool_decide (pathname = "/api/update-risk-lists"%string) then
        Some <$> updateRiskListsAPI handleRequest accountId apiToken highRiskListId
                   mediumRiskListId lowRiskListId env
      else if bool_decide (pathname = "/api/force-cleanup"%string) then
        _ ← handleRequest notfetch
              (WorkerEnv (Some accountId) (Some apiToken) (Some highRiskListId)
                 (Some mediumRiskListId) (Some lowRiskListId) (USER_RISK_KV env));
        mret (Some (Reply 200 cors_reply_headers BodyForceCleanup))
      else if bool_decide (pathname = "/api/manual-remove-user"%string) then
        Some <$> manualRemoveUser others accountId apiToken mediumRiskListId
      else if bool_decide (pathname = "/"%string) then
        mret (Some (Reply 200 [("Content-Type", "text/html")]%string BodyHTML))
      else
        handleRequest_steps env accountId apiToken highRiskListId mediumRiskListId
          lowRiskListId
  end
  end end end
  end.

(** [handleRequest(request, env)].  The calls of the function to itself
    are unfolded [depth] times; a call with ['notfetch'] makes none, so
    two levels are all a run needs. *)
Fixpoint handleRequest_depth (others : otherHandlers) (depth : nat)
    (request : request) (env : workerEnv) : M Pl (option reply) :=
  match depth with
  | 0 => λ w, (OutOfFuel, w)
  | S depth' =>
      handleRequest_body others (handleRequest_depth others depth') request env
  end.

Definition handleRequest (others : otherHandlers) : request → workerEnv → M Pl (option reply) :=
  handleRequest_depth others 2.

(** The [scheduled] handler of the worker: [await handleRequest('notfetch',
    env)]. *)
Definition scheduled (others : otherHandlers) (env : workerEnv) : M Pl unit :=
  _ ← handleRequest others notfetch env;
  mret tt.

End Routes.

(** ** Simulated platforms *)

Definition a_timestamp : string := "2025-01-01T00:00:00.000Z".

(** An endpoint that gives the same answer to every request. *)
Record constantEndpoint := ConstantEndpoint { the_answer : netResult }.

Global Instance constantEndpoint_platform : Platform constantEndpoint := {
  plat_fetch n _ _ := (the_answer n, n);
  plat_sleep n _ := n;
  plat_now _ := a_timestamp
}.

(** An endpoint that plays a script: each request takes the next answer,
    and a request after the end of the script is a network error. *)
Record scriptedEndpoint := ScriptedEndpoint { script : list netResult }.

Global Instance scriptedEndpoint_platform : Platform scriptedEndpoint := {
  plat_fetch n _ _ :=
    match script n with
    | [] => (NetError "script exhausted", n)
    | r :: rest => (r, ScriptedEndpoint rest)
    end;
  plat_sleep n _ := n;
  plat_now _ := a_timestamp
}.

(** A list store and a risk source that behave as the interfaces of the
    specification describe them: the risk source and the lists answer a
    page request with the slice of that page, and a list applies an
    incremental patch or a replacement as it is sent.  Nothing else
    changes the lists. *)
Record listStore := ListStore {
  ls_users : list riskUser;
  ls_lists : gmap string (list listItem)
}.

(** The effect of [{append, remove}] on the items of a list: the items
    whose value is in [remove] go, the items of [append] are added. *)
Definition applyPatch (items : list listItem) (append : option (list listItem))
    (remove : option (list string)) : list listItem :=
  filter (λ item, value item ∉ default [] remove) items ++ default [] append.

Definition page_slice {A} (l : list A) (page per_page : nat) : list A :=
  take per_page (drop ((page - 1) * per_page) l).

Definition page_count (n per_page : nat) : nat := (n + per_page - 1) / per_page.

Definition ok_response (result : jsResult) (info : option pageInfo) : response :=
  Response 200 None (Some (ApiData true [] result info)).

Definition paged_response {A} (wrap : list A → jsResult) (l : list A)
    (page per_page : nat) : response :=
  ok_response (wrap (page_slice l page per_page))
    (Some (PageInfo page (page_count (length l) per_page))).

Definition not_found : response :=
  Response 404 None (Some (ApiData false ["not found"%string] RAbsent None)).

Definition listStore_fetch (s : listStore) (url : endpoint) (options : reqOptions)
    : netResult * listStore :=
  match url with
  | RiskSummaryUrl _ page per_page =>
      match opt_method options with
      | GET => (NetResponse (paged_response RUsers (ls_users s) page per_page), s)
      | _ => (NetResponse not_found, s)
      end
  | ListItemsUrl _ listId page per_page =>
      match opt_method options, ls_lists s !! listId with
      | GET, Some items => (NetResponse (paged_response RItems items page per_page), s)
      | _, _ => (NetResponse not_found, s)
      end
  | GatewayListUrl _ listId =>
      match ls_lists s !! listId with
      | None => (NetResponse not_found, s)
      | Some items =>
          match opt_method options, opt_body options with
          | GET, _ => (NetResponse (ok_response (RListInfo listId None) None), s)
          | PATCH, PatchBody append remove =>
              (NetResponse (ok_response RAbsent None),
               ListStore (ls_users s)
                 (<[listId := applyPatch items append remove]> (ls_lists s)))
          | PUT, PutBody _ _ new_items =>
              (NetResponse (ok_response RAbsent None),
               ListStore (ls_users s) (<[listId := new_items]> (ls_lists s)))
          | _, _ => (NetResponse not_found, s)
          end
      end
  end.

Global Instance listStore_platform : Platform listStore := {
  plat_fetch := listStore_fetch;
  plat_sleep n _ := n;
  plat_now _ := a_timestamp
}.

(** ** Notions used in the statements *)

Definition is_fetch (e : event) : bool :=
  match e with EvFetch _ _ => true | _ => false end.

(** The number of HTTP requests in a piece of the log. *)
Definition fetches_in (evs : list event) : nat := length (List.filter is_fetch evs).

(** An event of [makeApiRequest url options]: the request itself or a
    timer. *)
Definition transport_event (url : endpoint) (options : reqOptions) (e : event) : Prop :=
  e = EvFetch url options ∨ ∃ t, e = EvSleep t.

(** An event of a pagination loop: a timer, or the request of a page
    between [lo] and [hi]. *)
Definition page_event (urlOf : nat → endpoint) (options : reqOptions) (lo hi : nat)
    (e : event) : Prop :=
  (∃ t, e = EvSleep t) ∨ ∃ p, lo ≤ p ≤ hi ∧ e = EvFetch (urlOf p) options.

(** An event that reads and does not write: a key-value [get], a timer,
    or a GET request. *)
Definition read_event (e : event) : Prop :=
  match e with
  | EvFetch _ options => opt_method options = GET
  | EvSleep _ | EvKvGet _ => True
  | EvKvPut _ => False
  end.

(** The request options and URLs of the two fetchers. *)
Definition get_options (apiToken : string) : reqOptions :=
  ReqOptions GET (get_headers apiToken) NoBody.

Definition risk_url (accountId : string) (page : nat) : endpoint :=
  RiskSummaryUrl accountId page 50.

Definition items_url (accountId listId : string) (page : nat) : endpoint :=
  ListItemsUrl accountId listId page 100.

Definition patch_options (apiToken : string) (body : reqBody) : reqOptions :=
  ReqOptions PATCH (json_headers apiToken) body.

(** An event that is not a request that changes the remote store: any
    event but a request with a method other than GET. *)
Definition not_a_mutation (e : event) : Prop :=
  match e with
  | EvFetch _ options => opt_method options = GET
  | _ => True
  end.

(** The two successful results of [syncGatewayListFromKV]. *)
Definition in_sync_result (expected : expectedState) : syncResult :=
  SyncResult true (Some 0) (Some 0) (Some (length (emails expected))) None
    (Some "Already in sync"%string) None.

Definition patched_result (expected : expectedState) (toAdd toRemove : list string)
    : syncResult :=
  SyncResult true (Some (length toAdd)) (Some (length toRemove))
    (Some (length (emails expected))) (Some "PATCH"%string) None None.

(** What a run of the reconciler reports and leaves, for the expected
    emails [E] and a list that held [items]. *)
Definition synced (E : list string) (items : list listItem) (r : syncResult)
    (items' : list listItem) : Prop :=
  sync_success r = true ∧
  sync_added r = Some (length (emailsToAdd (newSet E) (newSet (value <$> items)))) ∧
  sync_removed r = Some (length (emailsToRemove (newSet E) (newSet (value <$> items)))) ∧
  value <$> items'
  = filter (λ v, v ∉ emailsToRemove (newSet E) (newSet (value <$> items))) (value <$> items)
    ++ emailsToAdd (newSet E) (newSet (value <$> items)).

(** The number of page requests of a pagination loop that starts at [page]
    with [budget] requests left, when the answer to page [p] says that
    there are more pages exactly when [more p]. *)
Fixpoint pages_until (more : nat → bool) (page budget : nat) : nat :=
  match budget with
  | 0 => 0
  | S b => if more page then S (pages_until more (S page) b) else 1
  end.

(** A [result] that [allItems.push(...items)] accepts. *)
Definition iterable (r : jsResult) : Prop := r = RAbsent ∨ ∃ l, r = RItems l.

(** The tiers' expected identifiers for a fetched list of risk records:
    what [storeExpectedStateInKV] writes as [emails] for the users of a
    level. *)
Definition expectedEmailsOf (level : string) (userRiskScores : list riskUser) : list string :=
  email <$> usersAtLevel level userRiskScores.

(** The tiers in whose expected set the identifier of [user] appears. *)
Definition tiersOf (userRiskScores : list riskUser) (user : riskUser) : list string :=
  filter (λ level, email user ∈ expectedEmailsOf level userRiskScores)
    ["high"; "medium"; "low"]%string.

(** The tier claim as the specification words it: the identifier of the
    user appears in exactly one tier's expected set, the tier of the
    record's [max_risk_level]. *)
Definition in_exactly_its_tier (userRiskScores : list riskUser) (user : riskUser) : Prop :=
  tiersOf userRiskScores user = [max_risk_level user].


(** The wait after a 429 as the code computes it: an empty header value
    counts as no header. *)
Definition pause_after_429 (resp : response) (attempt : nat) : timerArg :=
  match retry_after resp with
  | Some s => if decide (s = ""%string) then Millis (2 ^ attempt * 1000)
              else HeaderTimes1000 s
  | None => Millis (2 ^ attempt * 1000)
  end.

Section Notions.
Context {Pl : Type} `{!Platform Pl}.

(** The platform states that can follow [n0]: after any requests and
    timers. *)
Inductive reachable (n0 : Pl) : Pl → Prop :=
  | reach_here : reachable n0 n0
  | reach_fetch n url options :
      reachable n0 n → reachable n0 (plat_fetch n url options).2
  | reach_sleep n t : reachable n0 n → reachable n0 (plat_sleep n t).

(** From [n0] on, the endpoint [url] answers [answer] to every request
    made with [options]. *)
Definition always_answers (n0 : Pl) (url : endpoint) (options : reqOptions)
    (answer : netResult) : Prop :=
  ∀ n, reachable n0 n → (plat_fetch n url options).1 = answer.

(** From [n0] on, the source answers the request of every page at once
    and with success, and its [result_info] says that there are more
    pages exactly when [more p]. *)
Definition answers_pages (n0 : Pl) (urlOf : nat → endpoint) (options : reqOptions)
    (okres : jsResult → Prop) (more : nat → bool) : Prop :=
  ∀ n p, reachable n0 n → ∃ resp data,
    (plat_fetch n (urlOf p) options).1 = NetResponse resp ∧
    status resp ≠ 429 ∧ status resp < 500 ∧
    json_body resp = Some data ∧ data_success data = true ∧
    okres (data_result data) ∧ hasMore_of data = more p.

(** [keeps R m]: whatever [m] does and however it ends, the world it
    leaves is related by [R] to the world it started in. *)
Definition keeps {A} (R : relation (world Pl)) (m : M Pl A) : Prop :=
  ∀ w, R w (m w).2.

(** [terminates m]: the loops of [m] never run out of fuel. *)
Definition terminates {A} (m : M Pl A) : Prop := ∀ w, (m w).1 ≠ OutOfFuel.

(** The relation used for frames: the log grows by events that satisfy
    [Pev], the platform state moves along [Rp], the store along [Rkv]. *)
Definition frame (Pev : event → Prop) (Rp : relation Pl)
    (Rkv : relation (gmap string kvEntry)) (w w' : world Pl) : Prop :=
  (∃ evs, w_log w' = w_log w ++ evs ∧ Forall Pev evs) ∧
  Rp (w_plat w) (w_plat w') ∧ Rkv (w_kv w) (w_kv w').

(** The list fetch that [syncGatewayListFromKV] performs from the world
    [w]: it comes after the read of the key-value store. *)
Definition fetched_by_sync (accountId apiToken listId : string) (w : world Pl)
    : outcome listFetch * world Pl :=
  fetchGatewayListItems accountId apiToken listId None
    (log_event (EvKvGet (kvKey listId)) w).

End Notions.

(** ** Concrete inputs of the examples *)

Definition acct : string := "0123456789abcdef0123456789abcdef".
Definition token : string := "token".
Definition list_m : string := "11111111-2222-3333-4444-555555555555".
Definition list_h : string := "aaaaaaaa-2222-3333-4444-555555555555".
Definition list_l : string := "bbbbbbbb-2222-3333-4444-555555555555".

Definition item (v : string) : listItem := ListItem v None.

Definition rate_limited (header : option string) : response := Response 429 header None.

Definition unavailable : response := Response 503 None None.

(** A world with an empty key-value namespace and an empty log. *)
Definition fresh_world {Pl} (n : Pl) : world Pl := World n ∅ [].

(** The snapshot [storeExpectedStateInKV] writes for a list of emails. *)
Definition snapshot (l : list string) (level : string) : kvEntry :=
  KvEntry (ExpectedState l (Some level) (Some a_timestamp) (Some (length l))
             None None None) None.


(** A store with two risk records and three lists that do not hold what
    the records call for. *)
Definition two_tier_store : listStore :=
  ListStore [RiskUser "a@x.com" "high" 3 ""; RiskUser "b@x.com" "medium" 1 ""]
    {[ list_h := []; list_m := [item "b@x.com"; item "c@x.com"];
       list_l := [item "a@x.com"] ]}.

(** An answer with one page of items, [page] out of [total_pages]. *)
Definition items_page (l : list listItem) (page total_pages : nat) : netResult :=
  NetResponse (ok_response (RItems l) (Some (PageInfo page total_pages))).

Definition users_page (l : list riskUser) (page total_pages : nat) : netResult :=
  NetResponse (ok_response (RUsers l) (Some (PageInfo page total_pages))).

(** An answer whose body says [success: false]. *)
Definition api_failure : netResult :=
  NetResponse (Response 200 None (Some (ApiData false ["failed"%string] RAbsent None))).

Definition api_success : netResult := NetResponse (ok_response RAbsent None).

(** ** Notions and inputs of the cycle run twice *)

(** The last step of the cycle of [handleRequest]: the three syncs, in
    the order of the source. *)
Definition three_syncs {Pl} `{!Platform Pl} (accountId apiToken highRiskListId
    mediumRiskListId lowRiskListId : string)
    : M Pl (option (syncResult * syncResult * syncResult)) :=
  highResult ← syncGatewayListFromKV accountId apiToken highRiskListId
                 "High Risk Users - New";
  mediumResult ← syncGatewayListFromKV accountId apiToken mediumRiskListId
                   "Medium Risk Users - New";
  lowResult ← syncGatewayListFromKV accountId apiToken lowRiskListId
                "Low Risk Users - New";
  mret (Some (highResult, mediumResult, lowResult)).

(** The snapshot that the cycle writes for a tier, at the time of the
    simulated clock, and the namespace after the three writes. *)
Definition tier_snapshot (level : string) (users : list riskUser) : kvEntry :=
  KvEntry (ExpectedState (expectedEmailsOf level users) (Some level) (Some a_timestamp)
             (Some (length (usersAtLevel level users))) None None None) None.

Definition tier_snapshots (high medium low : string) (users : list riskUser)
    (kv : gmap string kvEntry) : gmap string kvEntry :=
  <[kvKey low := tier_snapshot "low" users]>
    (<[kvKey medium := tier_snapshot "medium" users]>
       (<[kvKey high := tier_snapshot "high" users]> kv)).

(** A list that holds exactly the emails of its snapshot, in at most 50
    pages of 100 items. *)
Definition settled (kv : gmap string kvEntry) (s : listStore) (listId : string) : Prop :=
  ∃ items expected ttl,
    ls_lists s !! listId = Some items ∧ length items ≤ 50 * 100 ∧
    kv !! kvKey listId = Some (KvEntry expected ttl) ∧
    ∀ v, v ∈ value <$> items ↔ v ∈ emails expected.

(** A list within the reach of [fetchGatewayListItems], with a snapshot:
    at most 50 pages of 100 items, and either no value held twice and a
    snapshot of at most that many emails, or the list is settled. *)
Definition in_reach (kv : gmap string kvEntry) (s : listStore) (listId : string) : Prop :=
  ∃ items expected ttl,
    ls_lists s !! listId = Some items ∧ length items ≤ 50 * 100 ∧
    kv !! kvKey listId = Some (KvEntry expected ttl) ∧
    ((NoDup (value <$> items) ∧ length (emails expected) ≤ 50 * 100)
     ∨ ∀ v, v ∈ value <$> items ↔ v ∈ emails expected).

(** A list that is longer than what [fetchGatewayListItems] reads: the
    items [user0@x.com], [user1@x.com], ... *)
Definition numbered (k : nat) : listItem := item ("user" +:+ pretty k +:+ "@x.com").

Definition many_items (n : nat) : list listItem := numbered <$> seq 0 n.

(** A store with no risk record, whose medium list holds 5001 items. *)
Definition crowded_store : listStore :=
  ListStore [] {[ list_h := []; list_m := many_items (S (50 * 100)); list_l := [] ]}.

(** A store whose medium list holds one value 5000 times, with two
    medium-risk records. *)
Definition repeated_store : listStore :=
  ListStore [RiskUser "a@x.com" "medium" 1 ""; RiskUser "b@x.com" "medium" 2 ""]
    {[ list_h := []; list_m := replicate (50 * 100) (item "a@x.com"); list_l := [] ]}.

(** ** Notions and inputs of the further properties *)

(** The characters of a string. *)
Definition chars (s : string) : list Ascii.ascii := String.list_ascii_of_string s.

(** A hexadecimal digit, in either case: [0-9], [A-F] or [a-f]. *)
Definition hex_digit (c : Ascii.ascii) : Prop :=
  48 ≤ Ascii.nat_of_ascii c ≤ 57 ∨ 65 ≤ Ascii.nat_of_ascii c ≤ 70
  ∨ 97 ≤ Ascii.nat_of_ascii c ≤ 102.

(** A hexadecimal digit or the dash. *)
Definition hex_digit_or_dash (c : Ascii.ascii) : Prop :=
  hex_digit c ∨ Ascii.nat_of_ascii c = 45.

(** A letter, a digit, the underscore or the dash. *)
Definition token_character (c : Ascii.ascii) : Prop :=
  48 ≤ Ascii.nat_of_ascii c ≤ 57 ∨ 65 ≤ Ascii.nat_of_ascii c ≤ 90
  ∨ 97 ≤ Ascii.nat_of_ascii c ≤ 122 ∨ Ascii.nat_of_ascii c = 95
  ∨ Ascii.nat_of_ascii c = 45.

(** A configuration that passes the checks of [handleRequest]: a 32-digit
    hexadecimal account id, a token of 40 characters or more, and three
    list ids of 36 hexadecimal digits and dashes. *)
Definition well_formed_id (o : option string) : Prop :=
  ∃ s, o = Some s ∧ String.length s = 36 ∧ Forall hex_digit_or_dash (chars s).

Definition well_formed (env : workerEnv) : Prop :=
  (∃ a, CLOUDFLARE_ACCOUNT_ID env = Some a ∧ String.length a = 32
        ∧ Forall hex_digit (chars a)) ∧
  (∃ t, CLOUDFLARE_API_TOKEN env = Some t ∧ 40 ≤ String.length t
        ∧ Forall token_character (chars t)) ∧
  well_formed_id (HIGH_RISK_LIST_ID env) ∧
  well_formed_id (MEDIUM_RISK_LIST_ID env) ∧
  well_formed_id (LOW_RISK_LIST_ID env).

(** A token that has the required form, and a configuration that passes
    all the checks. *)
Definition api_token : string := "abcdefghijklmnopqrstuvwxyz_ABCDEFGHIJ-0123".

Definition good_env : workerEnv :=
  WorkerEnv (Some acct) (Some api_token) (Some list_h) (Some list_m) (Some list_l) true.

(** An answer after which [makeApiRequest] tries again, when attempts are
    left: a network error, a status 429, a status of 500 or more. *)
Definition transient (r : netResult) : Prop :=
  match r with
  | NetError _ => True
  | NetResponse resp => status resp = 429 ∨ 500 ≤ status resp
  end.

(** The wait of [makeApiRequest] after the answer [r] to the attempt
    [attempt]. *)
Definition backoff_after (r : netResult) (attempt : nat) : timerArg :=
  match r with
  | NetError _ => Millis (2 ^ attempt * 1000)
  | NetResponse resp =>
      if status resp =? 429 then retryAfter_ms resp attempt
      else Millis (2 ^ attempt * 1000)
  end.

(** The events of the attempts [attempt], [attempt + 1], ... that were
    answered by [answers] and followed by a wait. *)
Fixpoint retries (url : endpoint) (options : reqOptions) (attempt : nat)
    (answers : list netResult) : list event :=
  match answers with
  | [] => []
  | r :: rest =>
      EvFetch url options :: EvSleep (backoff_after r attempt)
      :: retries url options (S attempt) rest
  end.

(** The paths that [handleRequest] answers by a route. *)
Definition routes : list string :=
  ["/api/user-risk-scores"; "/api/health"; "/api/metrics"; "/api/reconcile-lists";
   "/api/create-new-lists"; "/api/test-user-removal"; "/api/test-clear-method";
   "/api/test-kv-sync"; "/api/test-patch-method"; "/api/gateway-lists";
   "/api/update-risk-lists"; "/api/force-cleanup"; "/api/manual-remove-user"; "/"]%string.

Definition routed (pathname : string) : Prop :=
  slice_1 pathname = "favicon.ico"%string ∨ pathname ∈ routes.

(** The records whose level is none of the three tiers. *)
Definition unclassified (users : list riskUser) : list riskUser :=
  List.filter (λ user, negb (bool_decide (max_risk_level user = "high"%string))
                       && negb (bool_decide (max_risk_level user = "medium"%string))
                       && negb (bool_decide (max_risk_level user = "low"%string))) users.

(** Handlers that stand for the routes that are not modelled: each
    answers with status 501. *)
Definition not_modelled {Pl} : otherHandlers (Pl := Pl) :=
  let answer : M Pl reply := mret (Reply 501 [] (BodyText "not modelled")) in
  OtherHandlers (λ _ _, answer) (λ _, answer) (λ _ _, answer) (λ _ _ _, answer)
    (λ _ _ _ _ _, answer) (λ _ _ _, answer).

(** A configuration whose token does not have the required form. *)
Definition bad_env : workerEnv :=
  WorkerEnv (Some acct) (Some "secret"%string) (Some list_h) (Some list_m) (Some list_l) true.

(** * Properties *)

(** ** Sets *)

Lemma Set_has_true s x : Set_has s x = true ↔ x ∈ s.
Proof. unfold Set_has. apply bool_decide_eq_true. Qed.

Lemma Set_has_false s x : Set_has s x = false ↔ x ∉ s.
Proof. unfold Set_has. apply bool_decide_eq_false. Qed.

Lemma elem_of_Set_add s x y : y ∈ Set_add s x ↔ y ∈ s ∨ y = x.
Proof.
  unfold Set_add. destruct (Set_has s x) eqn:Hx.
  - apply Set_has_true in Hx. split; [auto | intros [?| ->]; done].
  - rewrite elem_of_app, list_elem_of_singleton. done.
Qed.

Lemma NoDup_Set_add s x : NoDup s → NoDup (Set_add s x).
Proof.
  intros Hs. unfold Set_add. destruct (Set_has s x) eqn:Hx; [done|].
  apply Set_has_false in Hx. apply NoDup_app. split_and!; [done| |apply NoDup_singleton].
  intros y Hy ->%list_elem_of_singleton. done.
Qed.

Lemma elem_of_foldl_Set_add l acc y :
  y ∈ foldl Set_add acc l ↔ y ∈ acc ∨ y ∈ l.
Proof.
  revert acc. induction l as [|x l IH]; intros acc; simpl.
  - rewrite elem_of_nil. tauto.
  - rewrite IH, elem_of_Set_add, elem_of_cons. tauto.
Qed.

Lemma NoDup_foldl_Set_add l acc : NoDup acc → NoDup (foldl Set_add acc l).
Proof.
  revert acc. induction l as [|x l IH]; intros acc Hacc; simpl; [done|].
  apply IH, NoDup_Set_add, Hacc.
Qed.

Lemma elem_of_newSet l y : y ∈ newSet l ↔ y ∈ l.
Proof. unfold newSet. rewrite elem_of_foldl_Set_add, elem_of_nil. tauto. Qed.

Lemma NoDup_newSet l : NoDup (newSet l).
Proof. apply NoDup_foldl_Set_add, NoDup_nil_2. Qed.

Lemma length_newSet l : length (newSet l) ≤ length l.
Proof.
  assert (∀ acc, length (foldl Set_add acc l) ≤ length acc + length l) as Hgen.
  { induction l as [|x l IH]; intros acc; simpl; [lia|].
    etransitivity; [apply IH|]. unfold Set_add. destruct (Set_has acc x); [lia|].
    rewrite length_app. simpl. lia. }
  apply (Hgen []).
Qed.

Lemma list_to_set_newSet l : (list_to_set (newSet l) : gset string) = list_to_set l.
Proof. apply set_eq. intros x. rewrite !elem_of_list_to_set. apply elem_of_newSet. Qed.

Lemma elem_of_emailsToAdd E A x : x ∈ emailsToAdd E A ↔ x ∈ E ∧ x ∉ A.
Proof.
  unfold emailsToAdd. rewrite list_elem_of_In, filter_In, <- list_elem_of_In.
  rewrite negb_true_iff, Set_has_false. done.
Qed.

Lemma elem_of_emailsToRemove E A x : x ∈ emailsToRemove E A ↔ x ∈ A ∧ x ∉ E.
Proof.
  unfold emailsToRemove. rewrite list_elem_of_In, filter_In, <- list_elem_of_In.
  rewrite negb_true_iff, Set_has_false. done.
Qed.

(** [setsEqual] decides the equality of two sets. *)
Lemma setsEqual_true a b :
  NoDup a → NoDup b → setsEqual a b = true ↔ (∀ x, x ∈ a ↔ x ∈ b).
Proof.
  intros Ha Hb. unfold setsEqual.
  destruct (length a =? length b) eqn:Hlen; simpl.
  - apply Nat.eqb_eq in Hlen. rewrite forallb_forall. split.
    + intros Hall.
      assert (a ⊆+ b) as Hsub.
      { apply NoDup_submseteq; [done|]. intros x Hx.
        apply Set_has_true, Hall, list_elem_of_In, Hx. }
      assert (a ≡ₚ b) as Hp by (apply submseteq_length_Permutation; [done|lia]).
      intros x. by rewrite Hp.
    + intros Heq x Hx%list_elem_of_In. apply Set_has_true, Heq, Hx.
  - apply Nat.eqb_neq in Hlen. split; [done|]. intros Heq. exfalso. apply Hlen.
    apply Permutation_length, NoDup_Permutation; done.
Qed.

(** ** The categorization by risk level *)

Lemma elem_of_usersAtLevel level userRiskScores user :
  user ∈ usersAtLevel level userRiskScores ↔
  user ∈ userRiskScores ∧ max_risk_level user = level.
Proof.
  unfold usersAtLevel. rewrite list_elem_of_In, filter_In, <- list_elem_of_In.
  by rewrite bool_decide_eq_true.
Qed.

Lemma elem_of_expectedEmailsOf level userRiskScores x :
  x ∈ expectedEmailsOf level userRiskScores ↔
  ∃ user, user ∈ userRiskScores ∧ max_risk_level user = level ∧ email user = x.
Proof.
  unfold expectedEmailsOf. rewrite list_elem_of_fmap. split.
  - intros (u & -> & Hu%elem_of_usersAtLevel). exists u. tauto.
  - intros (u & Hu & Hl & <-). exists u. split; [done|].
    apply elem_of_usersAtLevel. done.
Qed.

(** C6, as the code has it.  A user record whose [max_risk_level] is
    [level] is in the users of that level and of no other; and when no
    other record carries the same email with another level, the email of
    the record is in the expected set of a tier exactly when that tier is
    the record's [max_risk_level].  So a record whose level is one of
    high, medium and low appears in exactly that tier, and a record with
    any other level appears in none. *)
Theorem tier_membership_by_level (userRiskScores : list riskUser) (user : riskUser) :
  user ∈ userRiskScores →
  (∀ other, other ∈ userRiskScores → email other = email user →
            max_risk_level other = max_risk_level user) →
  (∀ level, user ∈ usersAtLevel level userRiskScores ↔ max_risk_level user = level) ∧
  (∀ level, email user ∈ expectedEmailsOf level userRiskScores ↔
            max_risk_level user = level) ∧
  tiersOf userRiskScores user
  = filter (λ level, max_risk_level user = level) ["high"; "medium"; "low"]%string.
Proof.
  intros Hin Huniq.
  assert (∀ level, email user ∈ expectedEmailsOf level userRiskScores ↔
                   max_risk_level user = level) as Hemail.
  { intros level. rewrite elem_of_expectedEmailsOf. split.
    - intros (other & Ho & Hl & He). rewrite <- Hl. symmetry. by apply Huniq.
    - intros Hl. by exists user. }
  split_and!; [|done|].
  - intros level. rewrite elem_of_usersAtLevel. tauto.
  - unfold tiersOf. apply list_filter_iff. intros level. apply Hemail.
Qed.

Lemma tier_membership_by_level_witness :
  tiersOf [RiskUser "a@x.com" "high" 3 ""; RiskUser "b@x.com" "low" 0 ""]
    (RiskUser "a@x.com" "high" 3 "") = ["high"%string].
Proof.
  destruct (tier_membership_by_level
              [RiskUser "a@x.com" "high" 3 ""; RiskUser "b@x.com" "low" 0 ""]
              (RiskUser "a@x.com" "high" 3 "")) as (_ & _ & ->).
  - apply list_elem_of_here.
  - intros other [->|Hin]%elem_of_cons Hemail; [reflexivity|].
    apply list_elem_of_singleton in Hin as ->. discriminate Hemail.
  - vm_compute. reflexivity.
Defined.

(** C6 as stated fails on a record whose level is none of the three
    tiers: it appears in no expected set.  It also fails when two records
    carry one email with two levels: the email is in two expected sets. *)
Lemma tier_exclusivity_counterexample :
  ¬ in_exactly_its_tier [RiskUser "eve@x.com" "critical" 0 ""]
      (RiskUser "eve@x.com" "critical" 0 "") ∧
  tiersOf [RiskUser "eve@x.com" "critical" 0 ""]
    (RiskUser "eve@x.com" "critical" 0 "") = [] ∧
  ¬ in_exactly_its_tier
      [RiskUser "dup@x.com" "high" 0 ""; RiskUser "dup@x.com" "low" 0 ""]
      (RiskUser "dup@x.com" "high" 0 "") ∧
  tiersOf [RiskUser "dup@x.com" "high" 0 ""; RiskUser "dup@x.com" "low" 0 ""]
    (RiskUser "dup@x.com" "high" 0 "") = ["high"; "low"]%string.
Proof.
  unfold in_exactly_its_tier. split_and!; vm_compute; first [reflexivity|discriminate].
Qed.

(** ** Running computations *)

Lemma run_bind {Pl A B} (m : M Pl A) (f : A → M Pl B) w :
  (m ≫= f) w =
  match m w with
  | (Returned a, w') => f a w'
  | (Thrown e, w') => (Thrown e, w')
  | (OutOfFuel, w') => (OutOfFuel, w')
  end.
Proof. reflexivity. Qed.

Lemma run_try_catch {Pl A} (m : M Pl A) h w :
  try_catch m h w =
  match m w with
  | (Thrown e, w') => h e w'
  | r => r
  end.
Proof. reflexivity. Qed.

Lemma while_unfold {Pl S R} fuel cond (body : S → M Pl (ctl S R)) s :
  while_ fuel cond body s =
  if cond s then
    match fuel with
    | 0 => λ w, (OutOfFuel, w)
    | S fuel' =>
        c ← body s;
        match c with
        | Next s' => while_ fuel' cond body s'
        | Break s' => mret (inl s')
        | Return r => mret (inr r)
        end
    end
  else mret (inl s).
Proof. destruct fuel; reflexivity. Qed.

Ltac run_step :=
  unfold throw, sleep, now, kv_get, kv_put, log_event, mbind, M_bind, mret, M_ret,
    try_catch in *; cbn [w_plat w_kv w_log fst snd] in *.

Lemma run_response_json {Pl} r (w : world Pl) :
  response_json r w =
  match r with
  | None => (Thrown TypeError_undefined_json, w)
  | Some resp =>
      match json_body resp with
      | None => (Thrown SyntaxError_json, w)
      | Some data => (Returned data, w)
      end
  end.
Proof.
  unfold response_json. destruct r as [resp|]; [destruct (json_body resp)|]; reflexivity.
Qed.

Lemma run_items_of {Pl} data (w : world Pl) :
  items_of data w =
  match data_result data with
  | RAbsent => (Returned [], w)
  | RItems l => (Returned l, w)
  | _ => (Thrown TypeError_not_iterable, w)
  end.
Proof. unfold items_of. destruct (data_result data); reflexivity. Qed.

Lemma fetches_in_app a b : fetches_in (a ++ b) = fetches_in a + fetches_in b.
Proof. unfold fetches_in. by rewrite List.filter_app, length_app. Qed.

Lemma fetches_in_pairs (f : nat → event) (g : nat → event) start n :
  (∀ a, is_fetch (f a) = true) → (∀ a, is_fetch (g a) = false) →
  fetches_in (flat_map (λ a, [f a; g a]) (seq start n)) = n.
Proof.
  intros Hf Hg. revert start. induction n as [|n IH]; intros start; [done|].
  cbn [seq flat_map]. rewrite fetches_in_app, IH. unfold fetches_in. cbn [List.filter].
  rewrite Hf, Hg. reflexivity.
Qed.

Lemma transport_event_fetch url options : transport_event url options (EvFetch url options).
Proof. by left. Qed.

Lemma transport_event_sleep url options t : transport_event url options (EvSleep t).
Proof. right. by exists t. Qed.

Lemma retryAfter_ms_pause resp attempt :
  retryAfter_ms resp attempt = pause_after_429 resp attempt.
Proof.
  unfold retryAfter_ms, pause_after_429, truthy. destruct (retry_after resp) as [s|]; [|done].
  destruct (decide (s = ""%string)) as [->|Hne]; [done|].
  by rewrite bool_decide_eq_true_2.
Qed.

(** ** The retrying transport *)

Section Transport.
Context {Pl : Type} `{!Platform Pl}.

Lemma reachable_trans (n0 n1 n2 : Pl) :
  reachable n0 n1 → reachable n1 n2 → reachable n0 n2.
Proof. intros H1 H2. induction H2; [done|by constructor..]. Qed.

Lemma reachable_fetch_eq (n0 n : Pl) url options res n' :
  reachable n0 n → plat_fetch n url options = (res, n') → reachable n0 n'.
Proof.
  intros Hr Hf. replace n' with (plat_fetch n url options).2 by (by rewrite Hf).
  by constructor.
Qed.

(** A request that is answered at once: one fetch, no retry. *)
Lemma makeApiRequest_once url options maxRetries (w : world Pl) resp :
  (plat_fetch (w_plat w) url options).1 = NetResponse resp →
  status resp ≠ 429 → status resp < 500 → 1 ≤ maxRetries →
  makeApiRequest url options maxRetries w =
  (Returned (Some resp),
   World (plat_fetch (w_plat w) url options).2 (w_kv w) (w_log w ++ [EvFetch url options])).
Proof.
  intros Hf H429 H500 Hmax. unfold makeApiRequest.
  destruct maxRetries as [|m]; [lia|].
  rewrite run_bind, while_unfold. cbn [Nat.leb].
  rewrite run_bind. unfold makeApiRequest_body.
  rewrite run_try_catch, run_bind. unfold fetch.
  destruct (plat_fetch (w_plat w) url options) as [res n']. cbn [fst snd] in *. subst res.
  apply Nat.eqb_neq in H429. rewrite H429.
  replace (500 <=? status resp) with false by (symmetry; apply Nat.leb_gt; lia).
  reflexivity.
Qed.

(** The retry loop against an endpoint that always answers 429. *)
Lemma makeApiRequest_loop_429 n0 url options maxRetries resp :
  status resp = 429 →
  always_answers n0 url options (NetResponse resp) →
  ∀ fuel attempt (w : world Pl),
    reachable n0 (w_plat w) → attempt + fuel = S maxRetries →
    ∃ n',
      reachable n0 n' ∧
      while_ fuel (λ attempt, attempt <=? maxRetries)
        (makeApiRequest_body url options maxRetries) attempt w =
      (Returned (inl (S maxRetries)),
       World n' (w_kv w)
         (w_log w ++ flat_map (λ a, [EvFetch url options; EvSleep (pause_after_429 resp a)])
                      (seq attempt fuel))).
Proof.
  intros Hst Hresp. induction fuel as [|fuel IH]; intros attempt w Hreach Hsum.
  - rewrite while_unfold. replace (attempt <=? maxRetries) with false
      by (symmetry; apply Nat.leb_gt; lia).
    exists (w_plat w). split; [done|]. cbn [seq flat_map]. rewrite app_nil_r. destruct w.
    replace attempt with (S maxRetries) by lia. reflexivity.
  - rewrite while_unfold. replace (attempt <=? maxRetries) with true
      by (symmetry; apply Nat.leb_le; lia).
    rewrite run_bind. unfold makeApiRequest_body at 1.
    rewrite run_try_catch, run_bind. unfold fetch at 1.
    pose proof (Hresp (w_plat w) Hreach) as Hans.
    pose proof (reach_fetch n0 (w_plat w) url options Hreach) as Hreach1.
    destruct (plat_fetch (w_plat w) url options) as [res n1]. cbn [fst snd] in *. subst res.
    rewrite Hst, Nat.eqb_refl. run_step.
    rewrite retryAfter_ms_pause.
    destruct (IH (S attempt)
                (World (plat_sleep n1 (pause_after_429 resp attempt)) (w_kv w)
                   ((w_log w ++ [EvFetch url options]) ++
                    [EvSleep (pause_after_429 resp attempt)])))
      as (n' & Hreach' & Hrun); [by constructor|lia|].
    exists n'. split; [done|]. rewrite Hrun. cbn [w_kv w_log seq flat_map app].
    rewrite <- !app_assoc. reflexivity.
Qed.

(** The retry loop against an endpoint whose status is always 500 or
    more: every attempt but the last is followed by a backoff, and the
    last attempt returns the response. *)
Lemma makeApiRequest_loop_5xx n0 url options maxRetries resp :
  500 ≤ status resp →
  always_answers n0 url options (NetResponse resp) →
  ∀ k attempt fuel (w : world Pl),
    reachable n0 (w_plat w) → attempt + k = maxRetries → k < fuel →
    ∃ n',
      reachable n0 n' ∧
      while_ fuel (λ attempt, attempt <=? maxRetries)
        (makeApiRequest_body url options maxRetries) attempt w =
      (Returned (inr resp),
       World n' (w_kv w)
         (w_log w ++ flat_map (λ a, [EvFetch url options;
                                     EvSleep (Millis (2 ^ a * 1000))]) (seq attempt k)
                  ++ [EvFetch url options])).
Proof.
  intros Hst Hresp. induction k as [|k IH]; intros attempt fuel w Hreach Hsum Hfuel;
    (destruct fuel as [|fuel]; [lia|]);
    rewrite while_unfold;
    (replace (attempt <=? maxRetries) with true by (symmetry; apply Nat.leb_le; lia));
    rewrite run_bind; unfold makeApiRequest_body at 1;
    rewrite run_try_catch, run_bind; unfold fetch at 1;
    pose proof (Hresp (w_plat w) Hreach) as Hans;
    pose proof (reach_fetch n0 (w_plat w) url options Hreach) as Hreach1;
    destruct (plat_fetch (w_plat w) url options) as [res n1]; cbn [fst snd] in *; subst res;
    (replace (status resp =? 429) with false by (symmetry; apply Nat.eqb_neq; lia));
    (replace (500 <=? status resp) with true by (symmetry; apply Nat.leb_le; lia)).
  - replace (attempt <? maxRetries) with false by (symmetry; apply Nat.ltb_ge; lia).
    exists n1. split; [done|]. reflexivity.
  - replace (attempt <? maxRetries) with true by (symmetry; apply Nat.ltb_lt; lia).
    cbn [andb]. run_step.
    destruct (IH (S attempt) fuel
                (World (plat_sleep n1 (Millis (2 ^ attempt * 1000))) (w_kv w)
                   ((w_log w ++ [EvFetch url options]) ++
                    [EvSleep (Millis (2 ^ attempt * 1000))])))
      as (n' & Hreach' & Hrun); [by constructor|lia|lia|].
    exists n'. split; [done|]. rewrite Hrun. cbn [w_kv w_log seq flat_map app].
    rewrite <- !app_assoc. reflexivity.
Qed.

End Transport.
(** ** Frame reasoning *)

Section Frame.
Context {Pl : Type} `{!Platform Pl}.

Section Keeps.
Context (R : relation (world Pl)) `{!PreOrder R}.

Lemma keeps_ret {A} (a : A) : keeps R (mret a).
Proof. intros w. simpl. reflexivity. Qed.

Lemma keeps_throw {A} e : keeps R (throw (A:=A) e).
Proof. intros w. simpl. reflexivity. Qed.

Lemma keeps_bind {A B} (m : M Pl A) (f : A → M Pl B) :
  keeps R m → (∀ a, keeps R (f a)) → keeps R (m ≫= f).
Proof.
  intros Hm Hf w. rewrite run_bind. specialize (Hm w).
  destruct (m w) as [[a|e|] w1]; simpl in *; [|done..].
  etransitivity; [exact Hm | apply Hf].
Qed.

Lemma keeps_try_catch {A} (m : M Pl A) h :
  keeps R m → (∀ e, keeps R (h e)) → keeps R (try_catch m h).
Proof.
  intros Hm Hh w. rewrite run_try_catch. specialize (Hm w).
  destruct (m w) as [[a|e|] w1]; simpl in *; [done| |done].
  etransitivity; [exact Hm | apply Hh].
Qed.

Lemma keeps_while {S R'} fuel cond (body : S → M Pl (ctl S R')) s :
  (∀ s, keeps R (body s)) → keeps R (while_ fuel cond body s).
Proof.
  intros Hbody. revert s. induction fuel as [|fuel IH]; intros s;
    rewrite while_unfold; destruct (cond s); try apply keeps_ret.
  - intros w. simpl. reflexivity.
  - apply keeps_bind; [apply Hbody|]. intros [s'|s'|r]; [apply IH|apply keeps_ret..].
Qed.

Lemma keeps_now : keeps R now.
Proof. intros w. simpl. reflexivity. Qed.

End Keeps.

Global Instance frame_preorder Pev (Rp : relation Pl) Rkv :
  PreOrder Rp → PreOrder Rkv → PreOrder (frame Pev Rp Rkv).
Proof.
  intros Hp Hkv. split.
  - intros w. split_and!; [|reflexivity..]. exists []. by rewrite app_nil_r.
  - intros w1 w2 w3 ((e1 & H1 & F1) & P1 & K1) ((e2 & H2 & F2) & P2 & K2).
    split_and!; [|by etransitivity..].
    exists (e1 ++ e2). rewrite H2, H1, app_assoc. split; [done|].
    by apply Forall_app.
Qed.

Section FramePrimitives.
Context (Pev : event → Prop) (Rp : relation Pl) (Rkv : relation (gmap string kvEntry))
  `{!PreOrder Rp, !PreOrder Rkv}.

Lemma keeps_fetch url options :
  Pev (EvFetch url options) → (∀ n, Rp n (plat_fetch n url options).2) →
  keeps (frame Pev Rp Rkv) (fetch url options).
Proof.
  intros Hev Hp w. unfold fetch. specialize (Hp (w_plat w)).
  destruct (plat_fetch (w_plat w) url options) as [[e|r] n']; simpl in *;
    (split_and!; [exists [EvFetch url options]; split; [done|by apply Forall_singleton]
                 |done|reflexivity]).
Qed.

Lemma keeps_sleep t :
  Pev (EvSleep t) → (∀ n, Rp n (plat_sleep n t)) →
  keeps (frame Pev Rp Rkv) (sleep t).
Proof.
  intros Hev Hp w. simpl.
  split_and!; [exists [EvSleep t]; split; [done|by apply Forall_singleton]
              |apply Hp|reflexivity].
Qed.

Lemma keeps_kv_get key :
  Pev (EvKvGet key) → keeps (frame Pev Rp Rkv) (kv_get key).
Proof.
  intros Hev w. simpl.
  split_and!; [exists [EvKvGet key]; split; [done|by apply Forall_singleton]
              |reflexivity..].
Qed.

Lemma keeps_kv_put key v ttl :
  Pev (EvKvPut key) → (∀ kv, Rkv kv (<[key := KvEntry v ttl]> kv)) →
  keeps (frame Pev Rp Rkv) (kv_put key v ttl).
Proof.
  intros Hev Hkv w. simpl.
  split_and!; [exists [EvKvPut key]; split; [done|by apply Forall_singleton]
              |reflexivity|apply Hkv].
Qed.

End FramePrimitives.
End Frame.

Section Termination.
Context {Pl : Type} `{!Platform Pl}.

Lemma terminates_ret {A} (a : A) : terminates (mret a : M Pl A).
Proof. intros w. done. Qed.

Lemma terminates_throw {A} e : terminates (throw e : M Pl A).
Proof. intros w. done. Qed.

Lemma terminates_bind {A B} (m : M Pl A) (f : A → M Pl B) :
  terminates m → (∀ a, terminates (f a)) → terminates (m ≫= f).
Proof.
  intros Hm Hf w. rewrite run_bind. specialize (Hm w).
  destruct (m w) as [[a|e|] w1]; simpl in *; [apply Hf|done..].
Qed.

Lemma terminates_try_catch {A} (m : M Pl A) h :
  terminates m → (∀ e, terminates (h e)) → terminates (try_catch m h).
Proof.
  intros Hm Hh w. rewrite run_try_catch. specialize (Hm w).
  destruct (m w) as [[a|e|] w1]; simpl in *; [done|apply Hh|done].
Qed.

Lemma terminates_while {S R} (μ : S → nat) fuel cond (body : S → M Pl (ctl S R)) s :
  (∀ s, terminates (body s)) →
  (∀ s, cond s = true → 0 < μ s) →
  (∀ s w s' w', cond s = true → body s w = (Returned (Next s'), w') → μ s' < μ s) →
  μ s ≤ fuel →
  terminates (while_ fuel cond body s).
Proof.
  intros Hbody Hpos Hdec. revert s. induction fuel as [|fuel IH]; intros s Hle;
    rewrite while_unfold; destruct (cond s) eqn:Hc; try apply terminates_ret.
  - apply Hpos in Hc. lia.
  - intros w. rewrite run_bind. specialize (Hbody s w).
    destruct (body s w) as [[[s'|s'|r]|e|] w1] eqn:Hb; simpl in *; try done.
    apply IH. specialize (Hdec _ _ _ _ Hc Hb). lia.
Qed.

Lemma terminates_fetch url options : terminates (fetch url options).
Proof.
  intros w. unfold fetch.
  destruct (plat_fetch (w_plat w) url options) as [[e|r] n']; done.
Qed.

Lemma terminates_sleep t : terminates (sleep t).
Proof. intros w. done. Qed.

Lemma terminates_now : terminates now.
Proof. intros w. done. Qed.

Lemma terminates_kv_get key : terminates (Pl:=Pl) (kv_get key).
Proof. intros w. done. Qed.

Lemma terminates_kv_put key v ttl : terminates (Pl:=Pl) (kv_put key v ttl).
Proof. intros w. done. Qed.

Lemma terminates_response_json r : terminates (Pl:=Pl) (response_json r).
Proof. destruct r as [resp|]; simpl; [destruct (json_body resp)|]; intros w; done. Qed.

Lemma makeApiRequest_body_next url options maxRetries attempt w a' w' :
  makeApiRequest_body url options maxRetries attempt w = (Returned (Next a'), w') →
  a' = S attempt.
Proof.
  unfold makeApiRequest_body. rewrite run_try_catch, run_bind. unfold fetch.
  destruct (plat_fetch (w_plat w) url options) as [[e|r] n']; cbn [fst snd].
  - destruct (attempt =? maxRetries); run_step; intros; simplify_eq; done.
  - destruct (status r =? 429); run_step; [intros; simplify_eq; done|].
    destruct ((500 <=? status r) && (attempt <? maxRetries)); run_step;
      intros; simplify_eq; done.
Qed.

Lemma terminates_makeApiRequest_body url options maxRetries attempt :
  terminates (makeApiRequest_body url options maxRetries attempt).
Proof.
  unfold makeApiRequest_body. apply terminates_try_catch.
  - apply terminates_bind; [apply terminates_fetch|]. intros r.
    repeat case_match;
      repeat first [apply terminates_ret | apply terminates_bind; [apply terminates_sleep|intros ?]].
  - intros e. case_match; [apply terminates_throw|].
    apply terminates_bind; [apply terminates_sleep|intros ?]. apply terminates_ret.
Qed.

Lemma terminates_makeApiRequest url options maxRetries :
  terminates (makeApiRequest url options maxRetries).
Proof.
  unfold makeApiRequest. apply terminates_bind.
  - apply (terminates_while (λ attempt, S maxRetries - attempt)).
    + apply terminates_makeApiRequest_body.
    + intros a Ha%Nat.leb_le. lia.
    + intros a w a' w' Ha%Nat.leb_le ->%makeApiRequest_body_next. lia.
    + lia.
  - intros [?|?]; apply terminates_ret.
Qed.

End Termination.

Section TransportEffects.
Context {Pl : Type} `{!Platform Pl}.

(** The effects of the retry loop, whatever the endpoint answers: fetches
    of the one request and timers, at most one fetch per iteration. *)
Lemma makeApiRequest_loop_effects url options maxRetries fuel attempt (w : world Pl) :
  ∃ evs,
    w_log (while_ fuel (λ attempt, attempt <=? maxRetries)
             (makeApiRequest_body url options maxRetries) attempt w).2
    = w_log w ++ evs ∧
    Forall (transport_event url options) evs ∧ fetches_in evs ≤ fuel.
Proof.
  revert attempt w. induction fuel as [|fuel IH]; intros attempt w;
    rewrite while_unfold; destruct (attempt <=? maxRetries).
  - exists []. rewrite app_nil_r. split_and!; [done|constructor|done].
  - exists []. rewrite app_nil_r. split_and!; [done|constructor|cbn; lia].
  - rewrite run_bind. unfold makeApiRequest_body at 1.
    rewrite run_try_catch, run_bind. unfold fetch.
    destruct (plat_fetch (w_plat w) url options) as [[e|r] n']; cbn [fst snd].
    + destruct (attempt =? maxRetries); run_step.
      * exists [EvFetch url options]. split_and!; [done| |cbn; lia].
        apply Forall_singleton, transport_event_fetch.
      * match goal with |- context [while_ fuel ?c ?b ?a ?w0] =>
          destruct (IH a w0) as (evs & Hlog & Hall & Hn) end.
        destruct (while_ fuel _ _ _ _) as [[[?|?]|?|] w1]; cbn [fst snd] in *;
          (eexists (_ :: _ :: evs); rewrite Hlog; cbn [w_log]; rewrite <- !app_assoc;
           split_and!; [reflexivity| |cbn; unfold fetches_in in Hn; lia];
           repeat first [done | apply Forall_cons; split
                         | apply transport_event_fetch | apply transport_event_sleep]).
    + destruct (status r =? 429); run_step.
      * match goal with |- context [while_ fuel ?c ?b ?a ?w0] =>
          destruct (IH a w0) as (evs & Hlog & Hall & Hn) end.
        destruct (while_ fuel _ _ _ _) as [[[?|?]|?|] w1]; cbn [fst snd] in *;
          (eexists (_ :: _ :: evs); rewrite Hlog; cbn [w_log]; rewrite <- !app_assoc;
           split_and!; [reflexivity| |cbn; unfold fetches_in in Hn; lia];
           repeat first [done | apply Forall_cons; split
                         | apply transport_event_fetch | apply transport_event_sleep]).
      * destruct ((500 <=? status r) && (attempt <? maxRetries)); run_step.
        -- match goal with |- context [while_ fuel ?c ?b ?a ?w0] =>
             destruct (IH a w0) as (evs & Hlog & Hall & Hn) end.
           destruct (while_ fuel _ _ _ _) as [[[?|?]|?|] w1]; cbn [fst snd] in *;
             (eexists (_ :: _ :: evs); rewrite Hlog; cbn [w_log]; rewrite <- !app_assoc;
              split_and!; [reflexivity| |cbn; unfold fetches_in in Hn; lia];
              repeat first [done | apply Forall_cons; split
                         | apply transport_event_fetch | apply transport_event_sleep]).
        -- exists [EvFetch url options]. split_and!; [done| |cbn; lia].
           apply Forall_singleton, transport_event_fetch.
  - exists []. rewrite app_nil_r. split_and!; [done|constructor|cbn; lia].
Qed.

Lemma makeApiRequest_effects url options maxRetries (w : world Pl) :
  ∃ evs,
    w_log (makeApiRequest url options maxRetries w).2 = w_log w ++ evs ∧
    Forall (transport_event url options) evs ∧ fetches_in evs ≤ maxRetries.
Proof.
  unfold makeApiRequest. rewrite run_bind.
  destruct (makeApiRequest_loop_effects url options maxRetries maxRetries 1 w)
    as (evs & Hlog & Hall & Hn).
  exists evs. destruct (while_ _ _ _ _ _) as [[[?|?]|?|] w1]; done.
Qed.

End TransportEffects.

(** ** The paginated fetchers *)

Lemma pages_until_le more page budget : pages_until more page budget ≤ budget.
Proof.
  revert page. induction budget as [|b IH]; intros page; simpl; [done|].
  destruct (more page); [specialize (IH (S page))|]; lia.
Qed.

Lemma pages_until_never more page budget :
  (∀ p, more p = true) → pages_until more page budget = budget.
Proof.
  intros Hm. revert page. induction budget as [|b IH]; intros page; simpl; [done|].
  by rewrite Hm, IH.
Qed.

Lemma pages_until_last more page budget k :
  (∀ p, page ≤ p < page + k → more p = true) → more (page + k) = false →
  k < budget → pages_until more page budget = S k.
Proof.
  revert page budget. induction k as [|k IH]; intros page budget Hlt Hlast Hk.
  - destruct budget as [|b]; [lia|]. simpl. rewrite Nat.add_0_r in Hlast. by rewrite Hlast.
  - destruct budget as [|b]; [lia|]. simpl. rewrite Hlt by lia.
    f_equal. apply IH; [|by replace (S page + k) with (page + S k) by lia|lia].
    intros p Hp. apply Hlt. lia.
Qed.


Section Pagination.
Context {Pl : Type} `{!Platform Pl}.

Lemma page_event_mono urlOf options lo hi lo' hi' e :
  lo' ≤ lo → hi ≤ hi' → page_event urlOf options lo hi e → page_event urlOf options lo' hi' e.
Proof. intros ? ? [?|(p & ? & ?)]; [by left|right; exists p; split; [lia|done]]. Qed.

Lemma transport_page_event urlOf options p e :
  transport_event (urlOf p) options e → page_event urlOf options p p e.
Proof. intros [->|?]; [right; exists p; split; [lia|done]|by left]. Qed.

Lemma page_event_sleep urlOf options lo hi t : page_event urlOf options lo hi (EvSleep t).
Proof. left. by exists t. Qed.

(** *** fetchAllUserRiskScores *)

Lemma fetchAllUserRiskScores_body_next accountId apiToken st (w : world Pl) st' w' :
  fetchAllUserRiskScores_body accountId apiToken st w = (Returned (Next st'), w') →
  st_page st' = S (st_page st) ∧ st_totalRequests st' = S (st_totalRequests st).
Proof.
  unfold fetchAllUserRiskScores_body. rewrite run_bind.
  destruct (makeApiRequest _ _ _ w) as [[r|e|] w1]; [|done..].
  rewrite run_bind, run_response_json.
  destruct r as [resp|]; [destruct (json_body resp) as [data|]|]; [|done..].
  destruct (data_success data); cbn [negb]; [|done].
  destruct (hasMore_of data); run_step; intros; simplify_eq; done.
Qed.

Lemma fetchAllUserRiskScores_body_effects accountId apiToken st (w : world Pl) :
  ∃ evs,
    w_log (fetchAllUserRiskScores_body accountId apiToken st w).2 = w_log w ++ evs ∧
    Forall (page_event (risk_url accountId) (get_options apiToken)
              (st_page st) (st_page st)) evs ∧
    fetches_in evs ≤ defaultMaxRetries.
Proof.
  unfold fetchAllUserRiskScores_body. rewrite run_bind.
  destruct (makeApiRequest_effects (RiskSummaryUrl accountId (st_page st) 50)
              (get_options apiToken) defaultMaxRetries w) as (evs & Hlog & Hall & Hn).
  assert (Forall (page_event (risk_url accountId) (get_options apiToken)
                    (st_page st) (st_page st)) evs) as Hall'.
  { eapply Forall_impl; [exact Hall|]. intros e. apply (transport_page_event (risk_url accountId)). }
  fold (get_options apiToken).
  destruct (makeApiRequest _ _ _ w) as [[r|e|] w1]; cbn [snd] in Hlog; [|by exists evs..].
  rewrite run_bind, run_response_json.
  destruct r as [resp|]; [destruct (json_body resp) as [data|]|]; [|by exists evs..].
  destruct (data_success data); cbn [negb]; [|by exists evs].
  destruct (hasMore_of data); run_step; [|by exists evs].
  exists (evs ++ [EvSleep (Millis 100)]). rewrite Hlog, app_assoc. split_and!; [done| |].
  - apply Forall_app. split; [done|]. apply Forall_singleton, page_event_sleep.
  - rewrite fetches_in_app. cbn. lia.
Qed.

Lemma fetchAllUserRiskScores_loop_effects accountId apiToken fuel st (w : world Pl) :
  ∃ evs,
    w_log (while_ fuel (λ st, st_hasMore st && (st_totalRequests st <? 100))
             (fetchAllUserRiskScores_body accountId apiToken) st w).2 = w_log w ++ evs ∧
    Forall (page_event (risk_url accountId) (get_options apiToken)
              (st_page st) (st_page st + (100 - st_totalRequests st) - 1)) evs ∧
    fetches_in evs ≤ (100 - st_totalRequests st) * defaultMaxRetries.
Proof.
  revert st w. induction fuel as [|fuel IH]; intros st w; rewrite while_unfold;
    destruct (st_hasMore st && (st_totalRequests st <? 100)) eqn:Hc;
    try (exists []; rewrite app_nil_r; split_and!; [done|constructor|apply Nat.le_0_l]).
  apply andb_true_iff in Hc as [_ Hlt%Nat.ltb_lt].
  rewrite run_bind.
  destruct (fetchAllUserRiskScores_body_effects accountId apiToken st w)
    as (evs1 & Hlog1 & Hall1 & Hn1).
  pose proof (fetchAllUserRiskScores_body_next accountId apiToken st w) as Hnext.
  assert (Forall (page_event (risk_url accountId) (get_options apiToken) (st_page st)
                    (st_page st + (100 - st_totalRequests st) - 1)) evs1) as Hall1'.
  { eapply Forall_impl; [exact Hall1|]. intros e. apply page_event_mono; lia. }
  destruct (fetchAllUserRiskScores_body accountId apiToken st w)
    as [[[st1|st1|r]|e|] w1]; run_step;
    try (exists evs1; split_and!; [done|done|unfold defaultMaxRetries in *; lia]).
  destruct (Hnext st1 w1 eq_refl) as [Hp Ht].
  destruct (IH st1 w1) as (evs2 & Hlog2 & Hall2 & Hn2).
  exists (evs1 ++ evs2). rewrite Hlog2, Hlog1, app_assoc. split_and!; [done| |].
  - apply Forall_app. split; [done|]. eapply Forall_impl; [exact Hall2|].
    intros e. apply page_event_mono; lia.
  - rewrite fetches_in_app. rewrite Ht in Hn2. unfold defaultMaxRetries in *. lia.
Qed.


(** *** fetchGatewayListItems *)

Lemma fetchGatewayListItems_body_next accountId apiToken listId st (w : world Pl) st' w' :
  fetchGatewayListItems_body accountId apiToken listId st w = (Returned (Next st'), w') →
  st_page st' = S (st_page st) ∧ st_totalRequests st' = S (st_totalRequests st).
Proof.
  unfold fetchGatewayListItems_body. rewrite run_bind.
  destruct (makeApiRequest _ _ _ w) as [[r|e|] w1]; [|done..].
  rewrite run_bind, run_response_json.
  destruct r as [resp|]; [destruct (json_body resp) as [data|]|]; [|done..].
  destruct (data_success data); cbn [negb]; [|done].
  rewrite run_bind, run_items_of.
  destruct (data_result data); try done;
    destruct (hasMore_of data); run_step; intros; simplify_eq; done.
Qed.

Lemma fetchGatewayListItems_body_effects accountId apiToken listId st (w : world Pl) :
  ∃ evs,
    w_log (fetchGatewayListItems_body accountId apiToken listId st w).2 = w_log w ++ evs ∧
    Forall (page_event (items_url accountId listId) (get_options apiToken)
              (st_page st) (st_page st)) evs ∧
    fetches_in evs ≤ defaultMaxRetries.
Proof.
  unfold fetchGatewayListItems_body. rewrite run_bind.
  destruct (makeApiRequest_effects (ListItemsUrl accountId listId (st_page st) 100)
              (get_options apiToken) defaultMaxRetries w) as (evs & Hlog & Hall & Hn).
  assert (Forall (page_event (items_url accountId listId) (get_options apiToken)
                    (st_page st) (st_page st)) evs) as Hall'.
  { eapply Forall_impl; [exact Hall|]. intros e.
    apply (transport_page_event (items_url accountId listId)). }
  fold (get_options apiToken).
  destruct (makeApiRequest _ _ _ w) as [[r|e|] w1]; cbn [snd] in Hlog; [|by exists evs..].
  rewrite run_bind, run_response_json.
  destruct r as [resp|]; [destruct (json_body resp) as [data|]|]; [|by exists evs..].
  destruct (data_success data); cbn [negb]; [|by exists evs].
  rewrite run_bind, run_items_of.
  destruct (data_result data); try (by exists evs);
    (destruct (hasMore_of data); run_step; [|by exists evs];
     exists (evs ++ [EvSleep (Millis 50)]); rewrite Hlog, app_assoc; split_and!; [done| |];
     [apply Forall_app; split; [done|]; apply Forall_singleton, page_event_sleep
     |rewrite fetches_in_app; cbn; lia]).
Qed.

Lemma fetchGatewayListItems_loop_effects accountId apiToken listId fuel st (w : world Pl) :
  ∃ evs,
    w_log (while_ fuel (λ st, st_hasMore st && (st_totalRequests st <? 50))
             (fetchGatewayListItems_body accountId apiToken listId) st w).2
    = w_log w ++ evs ∧
    Forall (page_event (items_url accountId listId) (get_options apiToken)
              (st_page st) (st_page st + (50 - st_totalRequests st) - 1)) evs ∧
    fetches_in evs ≤ (50 - st_totalRequests st) * defaultMaxRetries.
Proof.
  revert st w. induction fuel as [|fuel IH]; intros st w; rewrite while_unfold;
    destruct (st_hasMore st && (st_totalRequests st <? 50)) eqn:Hc;
    try (exists []; rewrite app_nil_r; split_and!; [done|constructor|apply Nat.le_0_l]).
  apply andb_true_iff in Hc as [_ Hlt%Nat.ltb_lt].
  rewrite run_bind.
  destruct (fetchGatewayListItems_body_effects accountId apiToken listId st w)
    as (evs1 & Hlog1 & Hall1 & Hn1).
  pose proof (fetchGatewayListItems_body_next accountId apiToken listId st w) as Hnext.
  assert (Forall (page_event (items_url accountId listId) (get_options apiToken)
                    (st_page st) (st_page st + (50 - st_totalRequests st) - 1)) evs1)
    as Hall1'.
  { eapply Forall_impl; [exact Hall1|]. intros e. apply page_event_mono; lia. }
  destruct (fetchGatewayListItems_body accountId apiToken listId st w)
    as [[[st1|st1|r]|e|] w1]; run_step;
    try (exists evs1; split_and!; [done|done|unfold defaultMaxRetries in *; lia]).
  destruct (Hnext st1 w1 eq_refl) as [Hp Ht].
  destruct (IH st1 w1) as (evs2 & Hlog2 & Hall2 & Hn2).
  exists (evs1 ++ evs2). rewrite Hlog2, Hlog1, app_assoc. split_and!; [done| |].
  - apply Forall_app. split; [done|]. eapply Forall_impl; [exact Hall2|].
    intros e. apply page_event_mono; lia.
  - rewrite fetches_in_app. rewrite Ht in Hn2. unfold defaultMaxRetries in *. lia.
Qed.

(** *** Termination of the two fetchers *)

Lemma terminates_fetchAllUserRiskScores accountId apiToken :
  terminates (Pl:=Pl) (fetchAllUserRiskScores accountId apiToken).
Proof.
  unfold fetchAllUserRiskScores. apply terminates_try_catch; [|intros; apply terminates_ret].
  apply terminates_bind; [|intros [?|?]; apply terminates_ret].
  apply (terminates_while (λ st, 100 - st_totalRequests st)); [| | |cbn; lia].
  - intros st. unfold fetchAllUserRiskScores_body.
    apply terminates_bind; [apply terminates_makeApiRequest|intros r].
    apply terminates_bind; [apply terminates_response_json|intros data].
    case_match; [apply terminates_ret|].
    apply terminates_bind; [|intros; apply terminates_ret].
    case_match; [apply terminates_sleep|apply terminates_ret].
  - intros st [_ Hlt%Nat.ltb_lt]%andb_true_iff. lia.
  - intros st w st' w' [_ Hlt%Nat.ltb_lt]%andb_true_iff
      [_ Ht]%fetchAllUserRiskScores_body_next. lia.
Qed.

Lemma terminates_fetchGatewayListItems accountId apiToken listId riskLevel :
  terminates (Pl:=Pl) (fetchGatewayListItems accountId apiToken listId riskLevel).
Proof.
  unfold fetchGatewayListItems. apply terminates_try_catch; [|intros; apply terminates_ret].
  apply terminates_bind; [|intros [?|?]; apply terminates_ret].
  apply (terminates_while (λ st, 50 - st_totalRequests st)); [| | |cbn; lia].
  - intros st. unfold fetchGatewayListItems_body.
    apply terminates_bind; [apply terminates_makeApiRequest|intros r].
    apply terminates_bind; [apply terminates_response_json|intros data].
    case_match; [apply terminates_ret|].
    apply terminates_bind.
    { unfold items_of. case_match; first [apply terminates_ret|apply terminates_throw]. }
    intros items. apply terminates_bind; [|intros; apply terminates_ret].
    case_match; [apply terminates_sleep|apply terminates_ret].
  - intros st [_ Hlt%Nat.ltb_lt]%andb_true_iff. lia.
  - intros st w st' w' [_ Hlt%Nat.ltb_lt]%andb_true_iff
      [_ Ht]%fetchGatewayListItems_body_next. lia.
Qed.

(** Both fetchers always return: their errors are caught. *)
Lemma fetchAllUserRiskScores_returns accountId apiToken (w : world Pl) :
  ∃ r, (fetchAllUserRiskScores accountId apiToken w).1 = Returned r.
Proof.
  pose proof (terminates_fetchAllUserRiskScores accountId apiToken w) as Ht.
  revert Ht. unfold fetchAllUserRiskScores. rewrite run_try_catch.
  match goal with |- context [match ?m w with _ => _ end] =>
    destruct (m w) as [[r|e|] w1] end; cbn [fst]; [by exists r| |done].
  intros _. by eexists.
Qed.

Lemma fetchGatewayListItems_returns accountId apiToken listId riskLevel (w : world Pl) :
  ∃ r, (fetchGatewayListItems accountId apiToken listId riskLevel w).1 = Returned r.
Proof.
  pose proof (terminates_fetchGatewayListItems accountId apiToken listId riskLevel w) as Ht.
  revert Ht. unfold fetchGatewayListItems. rewrite run_try_catch.
  match goal with |- context [match ?m w with _ => _ end] =>
    destruct (m w) as [[r|e|] w1] end; cbn [fst]; [by exists r| |done].
  intros _. by eexists.
Qed.

End Pagination.

(** ** The retry bound *)

Section RetryBound.
Context {Pl : Type} `{!Platform Pl}.

(** [makeApiRequest] against an endpoint that always answers 429: the
    loop makes [maxRetries] attempts, waits after each of them, and ends
    without a [return]. *)
Lemma makeApiRequest_429_run url options maxRetries resp (w : world Pl) :
  status resp = 429 →
  always_answers (w_plat w) url options (NetResponse resp) →
  ∃ n',
    reachable (w_plat w) n' ∧
    makeApiRequest url options maxRetries w =
    (Returned None,
     World n' (w_kv w)
       (w_log w ++ flat_map (λ attempt, [EvFetch url options;
                                         EvSleep (pause_after_429 resp attempt)])
                    (seq 1 maxRetries))).
Proof.
  intros Hst Hans.
  destruct (makeApiRequest_loop_429 (w_plat w) url options maxRetries resp Hst Hans
              maxRetries 1 w) as (n' & Hreach & Hrun); [constructor|lia|].
  exists n'. split; [done|]. unfold makeApiRequest. rewrite run_bind, Hrun. reflexivity.
Qed.

(** [makeApiRequest] against an endpoint whose status is always 500 or
    more. *)
Lemma makeApiRequest_5xx_run url options maxRetries resp (w : world Pl) :
  500 ≤ status resp → 1 ≤ maxRetries →
  always_answers (w_plat w) url options (NetResponse resp) →
  ∃ n',
    reachable (w_plat w) n' ∧
    makeApiRequest url options maxRetries w =
    (Returned (Some resp),
     World n' (w_kv w)
       (w_log w ++ flat_map (λ attempt, [EvFetch url options;
                                         EvSleep (Millis (2 ^ attempt * 1000))])
                    (seq 1 (maxRetries - 1))
                ++ [EvFetch url options])).
Proof.
  intros Hst Hmax Hans.
  destruct (makeApiRequest_loop_5xx (w_plat w) url options maxRetries resp Hst Hans
              (maxRetries - 1) 1 maxRetries w) as (n' & Hreach & Hrun);
    [constructor|lia|lia|].
  exists n'. split; [done|]. unfold makeApiRequest. rewrite run_bind, Hrun. reflexivity.
Qed.


(** The list fetch when every attempt of its first page request is
    answered 429: [response] is [undefined], reading [json] of it throws,
    and the catch block returns no items and the error message. *)
Lemma fetchGatewayListItems_on_429 accountId apiToken listId riskLevel resp (w : world Pl) :
  status resp = 429 →
  always_answers (w_plat w) (items_url accountId listId 1) (get_options apiToken)
    (NetResponse resp) →
  ∃ w',
    fetchGatewayListItems accountId apiToken listId riskLevel w =
    (Returned (ListFetch riskLevel listId [] None (Some TypeError_undefined_json) None), w').
Proof.
  intros Hst Hans.
  destruct (makeApiRequest_429_run _ _ defaultMaxRetries resp w Hst Hans)
    as (n' & _ & Hrun).
  unfold fetchGatewayListItems. rewrite run_try_catch, run_bind, while_unfold.
  cbn [st_hasMore st_totalRequests andb Nat.ltb Nat.leb]. rewrite run_bind.
  unfold fetchGatewayListItems_body at 1. rewrite run_bind. cbn [st_page].
  unfold items_url, get_options in Hrun. rewrite Hrun.
  rewrite run_bind, run_response_json. eexists. reflexivity.
Qed.

(** The same for the fetch of the risk scores. *)
Lemma fetchAllUserRiskScores_on_429 accountId apiToken resp (w : world Pl) :
  status resp = 429 →
  always_answers (w_plat w) (risk_url accountId 1) (get_options apiToken)
    (NetResponse resp) →
  ∃ w',
    fetchAllUserRiskScores accountId apiToken w =
    (Returned (RiskFetch false None None [TypeError_undefined_json]), w').
Proof.
  intros Hst Hans.
  destruct (makeApiRequest_429_run _ _ defaultMaxRetries resp w Hst Hans)
    as (n' & _ & Hrun).
  unfold fetchAllUserRiskScores. rewrite run_try_catch, run_bind, while_unfold.
  cbn [st_hasMore st_totalRequests andb Nat.ltb Nat.leb]. rewrite run_bind.
  unfold fetchAllUserRiskScores_body at 1. rewrite run_bind. cbn [st_page].
  unfold risk_url, get_options in Hrun. rewrite Hrun.
  rewrite run_bind, run_response_json. eexists. reflexivity.
Qed.

(** C10.  When every attempt is answered 429, [makeApiRequest] returns
    [undefined]: no response and no thrown error.  When every attempt is
    answered with a status of 500 or more, it returns the response of the
    last attempt.  A caller that reads [json] of the [undefined] result
    fails with a TypeError: both fetchers end in their catch block. *)
Theorem makeApiRequest_429_returns_undefined url options maxRetries resp (w : world Pl) :
  (status resp = 429 →
   always_answers (w_plat w) url options (NetResponse resp) →
   (makeApiRequest url options maxRetries w).1 = Returned None) ∧
  (500 ≤ status resp → 1 ≤ maxRetries →
   always_answers (w_plat w) url options (NetResponse resp) →
   (makeApiRequest url options maxRetries w).1 = Returned (Some resp) ∧
   fetches_in (drop (length (w_log w)) (w_log (makeApiRequest url options maxRetries w).2))
   = maxRetries) ∧
  (∀ w' : world Pl, response_json None w' = (Thrown TypeError_undefined_json, w')) ∧
  (∀ accountId apiToken listId riskLevel,
     status resp = 429 →
     always_answers (w_plat w) (items_url accountId listId 1) (get_options apiToken)
       (NetResponse resp) →
     (fetchGatewayListItems accountId apiToken listId riskLevel w).1 =
     Returned (ListFetch riskLevel listId [] None (Some TypeError_undefined_json) None)) ∧
  (∀ accountId apiToken,
     status resp = 429 →
     always_answers (w_plat w) (risk_url accountId 1) (get_options apiToken)
       (NetResponse resp) →
     (fetchAllUserRiskScores accountId apiToken w).1 =
     Returned (RiskFetch false None None [TypeError_undefined_json])).
Proof.
  split_and!.
  - intros Hst Hans.
    destruct (makeApiRequest_429_run url options maxRetries resp w Hst Hans)
      as (n' & _ & ->). reflexivity.
  - intros Hst Hmax Hans.
    destruct (makeApiRequest_5xx_run url options maxRetries resp w Hst Hmax Hans)
      as (n' & _ & ->). split; [reflexivity|]. cbn [snd w_log].
    rewrite drop_app_length, fetches_in_app.
    rewrite (fetches_in_pairs (λ _, EvFetch url options)
               (λ attempt, EvSleep (Millis (2 ^ attempt * 1000)))) by done.
    cbn. lia.
  - reflexivity.
  - intros accountId apiToken listId riskLevel Hst Hans.
    destruct (fetchGatewayListItems_on_429 accountId apiToken listId riskLevel resp w
                Hst Hans) as (w' & ->). reflexivity.
  - intros accountId apiToken Hst Hans.
    destruct (fetchAllUserRiskScores_on_429 accountId apiToken resp w Hst Hans)
      as (w' & ->). reflexivity.
Qed.

End RetryBound.

(** ** Examples of the retry bound *)

Lemma constantEndpoint_reachable (n0 n : constantEndpoint) : reachable n0 n → n = n0.
Proof. induction 1 as [|n url options _ IH|n t _ IH]; [done|by rewrite IH..]. Qed.

Lemma constantEndpoint_always (n0 : constantEndpoint) url options :
  always_answers n0 url options (the_answer n0).
Proof. intros n ->%constantEndpoint_reachable. reflexivity. Qed.



Lemma makeApiRequest_429_returns_undefined_witness :
  (makeApiRequest (GatewayListUrl acct list_m) (get_options token) 3
     (fresh_world (ConstantEndpoint (NetResponse (rate_limited None))))).1 = Returned None ∧
  (makeApiRequest (GatewayListUrl acct list_m) (get_options token) 3
     (fresh_world (ConstantEndpoint (NetResponse unavailable)))).1
  = Returned (Some unavailable) ∧
  (fetchGatewayListItems acct token list_m None
     (fresh_world (ConstantEndpoint (NetResponse (rate_limited None))))).1
  = Returned (ListFetch None list_m [] None (Some TypeError_undefined_json) None) ∧
  (fetchAllUserRiskScores acct token
     (fresh_world (ConstantEndpoint (NetResponse (rate_limited None))))).1
  = Returned (RiskFetch false None None [TypeError_undefined_json]).
Proof.
  split_and!.
  - apply (makeApiRequest_429_returns_undefined (GatewayListUrl acct list_m)
             (get_options token) 3 (rate_limited None)
             (fresh_world (ConstantEndpoint (NetResponse (rate_limited None)))));
      [reflexivity|apply constantEndpoint_always].
  - apply (makeApiRequest_429_returns_undefined (GatewayListUrl acct list_m)
             (get_options token) 3 unavailable
             (fresh_world (ConstantEndpoint (NetResponse unavailable))));
      [cbn; lia|lia|apply constantEndpoint_always].
  - apply (makeApiRequest_429_returns_undefined (GatewayListUrl acct list_m)
             (get_options token) 3 (rate_limited None)
             (fresh_world (ConstantEndpoint (NetResponse (rate_limited None)))));
      [reflexivity|apply constantEndpoint_always].
  - apply (makeApiRequest_429_returns_undefined (GatewayListUrl acct list_m)
             (get_options token) 3 (rate_limited None)
             (fresh_world (ConstantEndpoint (NetResponse (rate_limited None)))));
      [reflexivity|apply constantEndpoint_always].
Defined.

(** ** Pagination against a source that answers every page *)

Section HonestSource.
Context {Pl : Type} `{!Platform Pl}.

(** The pagination of the risk scores: the pages are requested once each,
    in increasing order, until the answer says there is no more page or
    100 requests were made. *)
Lemma fetchAllUserRiskScores_loop_honest n0 accountId apiToken more :
  answers_pages n0 (risk_url accountId) (get_options apiToken) (λ _, True) more →
  ∀ fuel st (w : world Pl),
    reachable n0 (w_plat w) →
    st_hasMore st = true → st_totalRequests st + fuel = 100 →
    ∃ st' w' evs,
      while_ fuel (λ st, st_hasMore st && (st_totalRequests st <? 100))
        (fetchAllUserRiskScores_body accountId apiToken) st w
      = (Returned (inl st'), w') ∧
      st_totalRequests st' = st_totalRequests st + pages_until more (st_page st) fuel ∧
      st_page st' = st_page st + pages_until more (st_page st) fuel ∧
      w_kv w' = w_kv w ∧ w_log w' = w_log w ++ evs ∧
      List.filter is_fetch evs =
        (λ p, EvFetch (risk_url accountId p) (get_options apiToken))
          <$> seq (st_page st) (pages_until more (st_page st) fuel).
Proof.
  intros Hsrc. induction fuel as [|fuel IH]; intros st w Hreach Hmore Hsum;
    rewrite while_unfold.
  - replace (st_hasMore st && (st_totalRequests st <? 100)) with false
      by (symmetry; apply andb_false_iff; right; apply Nat.ltb_ge; lia).
    exists st, w, []. cbn [pages_until seq fmap list_fmap List.filter].
    rewrite !Nat.add_0_r, app_nil_r. done.
  - replace (st_hasMore st && (st_totalRequests st <? 100)) with true
      by (symmetry; apply andb_true_iff; split; [done|apply Nat.ltb_lt; lia]).
    rewrite run_bind. unfold fetchAllUserRiskScores_body at 1. rewrite run_bind.
    destruct (Hsrc (w_plat w) (st_page st) Hreach)
      as (resp & data & Hf & H429 & H500 & Hjson & Hok & _ & Hhas).
    fold (get_options apiToken). fold (risk_url accountId (st_page st)).
    rewrite (makeApiRequest_once _ _ _ _ resp Hf H429 H500) by (cbv; lia).
    pose proof (reach_fetch n0 _ (risk_url accountId (st_page st)) (get_options apiToken)
                  Hreach) as Hreach1.
    rewrite run_bind, run_response_json, Hjson, Hok. cbn [negb].
    rewrite Hhas. cbn [pages_until]. destruct (more (st_page st)) eqn:Hm.
    + run_step.
      match goal with |- context [while_ fuel ?c ?b ?s1 ?w1] =>
        destruct (IH s1 w1) as (st' & w' & evs & Hrun & Ht & Hp & Hkv & Hlog & Hfil);
          [by constructor|done|cbn; lia|] end.
      cbn [st_page st_totalRequests w_kv w_log] in *.
      exists st', w', (EvFetch (risk_url accountId (st_page st)) (get_options apiToken)
                       :: EvSleep (Millis 100) :: evs).
      rewrite Hrun, Ht, Hp, Hkv, Hlog, <- !app_assoc.
      cbn [app List.filter is_fetch seq fmap list_fmap].
      rewrite Hfil. split_and!; try done; lia.
    + run_step. rewrite while_unfold. cbn [st_hasMore andb]. run_step.
      eexists _, _, [EvFetch (risk_url accountId (st_page st)) (get_options apiToken)].
      cbn [st_page st_totalRequests w_kv w_log].
      split_and!; try done; cbn [st_page st_totalRequests]; lia.
Qed.

(** The same for the items of a list, with 50 requests at most. *)
Lemma fetchGatewayListItems_loop_honest n0 accountId apiToken listId more :
  answers_pages n0 (items_url accountId listId) (get_options apiToken) iterable more →
  ∀ fuel st (w : world Pl),
    reachable n0 (w_plat w) →
    st_hasMore st = true → st_totalRequests st + fuel = 50 →
    ∃ st' w' evs,
      while_ fuel (λ st, st_hasMore st && (st_totalRequests st <? 50))
        (fetchGatewayListItems_body accountId apiToken listId) st w
      = (Returned (inl st'), w') ∧
      st_totalRequests st' = st_totalRequests st + pages_until more (st_page st) fuel ∧
      st_page st' = st_page st + pages_until more (st_page st) fuel ∧
      w_kv w' = w_kv w ∧ w_log w' = w_log w ++ evs ∧
      List.filter is_fetch evs =
        (λ p, EvFetch (items_url accountId listId p) (get_options apiToken))
          <$> seq (st_page st) (pages_until more (st_page st) fuel).
Proof.
  intros Hsrc. induction fuel as [|fuel IH]; intros st w Hreach Hmore Hsum;
    rewrite while_unfold.
  - replace (st_hasMore st && (st_totalRequests st <? 50)) with false
      by (symmetry; apply andb_false_iff; right; apply Nat.ltb_ge; lia).
    exists st, w, []. cbn [pages_until seq fmap list_fmap List.filter].
    rewrite !Nat.add_0_r, app_nil_r. done.
  - replace (st_hasMore st && (st_totalRequests st <? 50)) with true
      by (symmetry; apply andb_true_iff; split; [done|apply Nat.ltb_lt; lia]).
    rewrite run_bind. unfold fetchGatewayListItems_body at 1. rewrite run_bind.
    destruct (Hsrc (w_plat w) (st_page st) Hreach)
      as (resp & data & Hf & H429 & H500 & Hjson & Hok & Hiter & Hhas).
    fold (get_options apiToken). fold (items_url accountId listId (st_page st)).
    rewrite (makeApiRequest_once _ _ _ _ resp Hf H429 H500) by (cbv; lia).
    pose proof (reach_fetch n0 _ (items_url accountId listId (st_page st))
                  (get_options apiToken) Hreach) as Hreach1.
    rewrite run_bind, run_response_json, Hjson, Hok. cbn [negb].
    rewrite run_bind, run_items_of.
    match goal with |- context [World ?n1 ?kv1 ?log1] => set (w1 := World n1 kv1 log1) end.
    assert (∃ l, (match data_result data with
                  | RAbsent => (Returned [], w1)
                  | RItems l => (Returned l, w1)
                  | _ => (Thrown TypeError_not_iterable, w1)
                  end : outcome (list listItem) * world Pl) = (Returned l, w1)) as [l ->].
    { destruct Hiter as [->|[l ->]]; eauto. }
    subst w1. rewrite Hhas. cbn [pages_until]. destruct (more (st_page st)) eqn:Hm.
    + run_step.
      match goal with |- context [while_ fuel ?c ?b ?s1 ?w1] =>
        destruct (IH s1 w1) as (st' & w' & evs & Hrun & Ht & Hp & Hkv & Hlog & Hfil);
          [by constructor|done|cbn; lia|] end.
      cbn [st_page st_totalRequests w_kv w_log] in *.
      exists st', w', (EvFetch (items_url accountId listId (st_page st))
                         (get_options apiToken)
                       :: EvSleep (Millis 50) :: evs).
      rewrite Hrun, Ht, Hp, Hkv, Hlog, <- !app_assoc.
      cbn [app List.filter is_fetch seq fmap list_fmap].
      rewrite Hfil. split_and!; try done; lia.
    + run_step. rewrite while_unfold. cbn [st_hasMore andb]. run_step.
      eexists _, _, [EvFetch (items_url accountId listId (st_page st))
                       (get_options apiToken)].
      cbn [st_page st_totalRequests w_kv w_log].
      split_and!; try done; cbn [st_page st_totalRequests]; lia.
Qed.

End HonestSource.

(** ** The pagination safety bound *)

Section SafetyBound.
Context {Pl : Type} `{!Platform Pl}.

(** Whatever the source answers, the fetch of the risk scores returns,
    and it requests only pages 1 to 100, each with the retries of one
    [makeApiRequest] call at most. *)
Lemma fetchAllUserRiskScores_effects accountId apiToken (w : world Pl) :
  ∃ r w' evs,
    fetchAllUserRiskScores accountId apiToken w = (Returned r, w') ∧
    w_log w' = w_log w ++ evs ∧
    Forall (page_event (risk_url accountId) (get_options apiToken) 1 100) evs ∧
    fetches_in evs ≤ 100 * defaultMaxRetries.
Proof.
  destruct (fetchAllUserRiskScores_returns accountId apiToken w) as [r Hr].
  destruct (fetchAllUserRiskScores_loop_effects accountId apiToken 100
              (PageLoop [] 1 true 0) w) as (evs & Hlog & Hall & Hn).
  cbn [st_page st_totalRequests] in Hall, Hn.
  exists r, (fetchAllUserRiskScores accountId apiToken w).2, evs.
  split; [by rewrite <- Hr, <- surjective_pairing|].
  split_and!; [|done..].
  unfold fetchAllUserRiskScores. rewrite run_try_catch, run_bind.
  destruct (while_ _ _ _ _ w) as [[[?|?]|?|] w1]; exact Hlog.
Qed.

Lemma fetchGatewayListItems_effects accountId apiToken listId riskLevel (w : world Pl) :
  ∃ r w' evs,
    fetchGatewayListItems accountId apiToken listId riskLevel w = (Returned r, w') ∧
    w_log w' = w_log w ++ evs ∧
    Forall (page_event (items_url accountId listId) (get_options apiToken) 1 50) evs ∧
    fetches_in evs ≤ 50 * defaultMaxRetries.
Proof.
  destruct (fetchGatewayListItems_returns accountId apiToken listId riskLevel w) as [r Hr].
  destruct (fetchGatewayListItems_loop_effects accountId apiToken listId 50
              (PageLoop [] 1 true 0) w) as (evs & Hlog & Hall & Hn).
  cbn [st_page st_totalRequests] in Hall, Hn.
  exists r, (fetchGatewayListItems accountId apiToken listId riskLevel w).2, evs.
  split; [by rewrite <- Hr, <- surjective_pairing|].
  split_and!; [|done..].
  unfold fetchGatewayListItems. rewrite run_try_catch, run_bind.
  destruct (while_ _ _ _ _ w) as [[[?|?]|?|] w1]; exact Hlog.
Qed.

(** Against a source that answers every page: the pages requested are
    1, 2, ... up to the first page whose answer reports no more page, and
    100 pages at most. *)
Lemma fetchAllUserRiskScores_honest accountId apiToken more (w : world Pl) :
  answers_pages (w_plat w) (risk_url accountId) (get_options apiToken) (λ _, True) more →
  ∃ r w' evs,
    fetchAllUserRiskScores accountId apiToken w = (Returned r, w') ∧
    rf_success r = true ∧
    totalRequests <$> rf_pagination r = Some (pages_until more 1 100) ∧
    w_log w' = w_log w ++ evs ∧
    List.filter is_fetch evs =
      (λ p, EvFetch (risk_url accountId p) (get_options apiToken))
        <$> seq 1 (pages_until more 1 100).
Proof.
  intros Hsrc.
  destruct (fetchAllUserRiskScores_loop_honest (w_plat w) accountId apiToken more Hsrc
              100 (PageLoop [] 1 true 0) w)
    as (st' & w' & evs & Hrun & Ht & Hp & Hkv & Hlog & Hfil); [constructor|done|done|].
  cbn [st_page st_totalRequests] in *.
  unfold fetchAllUserRiskScores. rewrite run_try_catch, run_bind, Hrun.
  eexists _, w', evs. split; [reflexivity|]. cbn [rf_success rf_pagination fmap option_fmap
    option_map totalRequests]. rewrite Ht. done.
Qed.

Lemma fetchGatewayListItems_honest accountId apiToken listId riskLevel more (w : world Pl) :
  answers_pages (w_plat w) (items_url accountId listId) (get_options apiToken) iterable
    more →
  ∃ r w' evs,
    fetchGatewayListItems accountId apiToken listId riskLevel w = (Returned r, w') ∧
    lf_error r = None ∧
    totalRequests <$> lf_pagination r = Some (pages_until more 1 50) ∧
    w_log w' = w_log w ++ evs ∧
    List.filter is_fetch evs =
      (λ p, EvFetch (items_url accountId listId p) (get_options apiToken))
        <$> seq 1 (pages_until more 1 50).
Proof.
  intros Hsrc.
  destruct (fetchGatewayListItems_loop_honest (w_plat w) accountId apiToken listId more
              Hsrc 50 (PageLoop [] 1 true 0) w)
    as (st' & w' & evs & Hrun & Ht & Hp & Hkv & Hlog & Hfil); [constructor|done|done|].
  cbn [st_page st_totalRequests] in *.
  unfold fetchGatewayListItems. rewrite run_try_catch, run_bind, Hrun.
  eexists _, w', evs. split; [reflexivity|]. cbn [lf_error lf_pagination fmap option_fmap
    option_map totalRequests]. rewrite Ht. done.
Qed.

Lemma fetches_in_pages (f : nat → event) evs start n :
  List.filter is_fetch evs = f <$> seq start n → fetches_in evs = n.
Proof. intros Hfil. unfold fetches_in. by rewrite Hfil, length_fmap, length_seq. Qed.

(** C5.  Whatever the source answers, [fetchAllUserRiskScores] returns
    after requesting only pages 1 to 100, and [fetchGatewayListItems]
    after requesting only pages 1 to 50, each page through one
    [makeApiRequest] call (so with its retries at most).  Against a source
    that answers every page, the requests are the pages 1, 2, ... in
    order, one request each: 100 (respectively 50) of them when the
    source never reports [page >= total_pages], and [k] of them when the
    answer to page [k] is the first to report it. *)
Theorem pagination_safety_bound accountId apiToken listId riskLevel (w : world Pl) :
  (∃ r w' evs,
     fetchAllUserRiskScores accountId apiToken w = (Returned r, w') ∧
     w_log w' = w_log w ++ evs ∧
     Forall (page_event (risk_url accountId) (get_options apiToken) 1 100) evs ∧
     fetches_in evs ≤ 100 * defaultMaxRetries) ∧
  (∃ r w' evs,
     fetchGatewayListItems accountId apiToken listId riskLevel w = (Returned r, w') ∧
     w_log w' = w_log w ++ evs ∧
     Forall (page_event (items_url accountId listId) (get_options apiToken) 1 50) evs ∧
     fetches_in evs ≤ 50 * defaultMaxRetries) ∧
  (∀ more,
     answers_pages (w_plat w) (risk_url accountId) (get_options apiToken) (λ _, True) more →
     ∃ r w' evs,
       fetchAllUserRiskScores accountId apiToken w = (Returned r, w') ∧
       rf_success r = true ∧ w_log w' = w_log w ++ evs ∧
       List.filter is_fetch evs =
         (λ p, EvFetch (risk_url accountId p) (get_options apiToken))
           <$> seq 1 (fetches_in evs) ∧
       ((∀ p, more p = true) → fetches_in evs = 100) ∧
       (∀ k, 1 ≤ k ≤ 100 → (∀ p, 1 ≤ p < k → more p = true) → more k = false →
             fetches_in evs = k)) ∧
  (∀ more,
     answers_pages (w_plat w) (items_url accountId listId) (get_options apiToken) iterable
       more →
     ∃ r w' evs,
       fetchGatewayListItems accountId apiToken listId riskLevel w = (Returned r, w') ∧
       lf_error r = None ∧ w_log w' = w_log w ++ evs ∧
       List.filter is_fetch evs =
         (λ p, EvFetch (items_url accountId listId p) (get_options apiToken))
           <$> seq 1 (fetches_in evs) ∧
       ((∀ p, more p = true) → fetches_in evs = 50) ∧
       (∀ k, 1 ≤ k ≤ 50 → (∀ p, 1 ≤ p < k → more p = true) → more k = false →
             fetches_in evs = k)).
Proof.
  split_and!.
  - apply fetchAllUserRiskScores_effects.
  - apply fetchGatewayListItems_effects.
  - intros more Hsrc.
    destruct (fetchAllUserRiskScores_honest accountId apiToken more w Hsrc)
      as (r & w' & evs & Hrun & Hok & _ & Hlog & Hfil).
    pose proof (fetches_in_pages _ _ _ _ Hfil) as Hn.
    exists r, w', evs. rewrite Hn. split_and!; try done.
    + intros Hm. by apply pages_until_never.
    + intros k Hk Hbefore Hlast.
      transitivity (S (k - 1)); [|lia].
      apply pages_until_last; [|by replace (1 + (k - 1)) with k by lia|lia].
      intros p Hp. apply Hbefore. lia.
  - intros more Hsrc.
    destruct (fetchGatewayListItems_honest accountId apiToken listId riskLevel more w Hsrc)
      as (r & w' & evs & Hrun & Hok & _ & Hlog & Hfil).
    pose proof (fetches_in_pages _ _ _ _ Hfil) as Hn.
    exists r, w', evs. rewrite Hn. split_and!; try done.
    + intros Hm. by apply pages_until_never.
    + intros k Hk Hbefore Hlast.
      transitivity (S (k - 1)); [|lia].
      apply pages_until_last; [|by replace (1 + (k - 1)) with k by lia|lia].
      intros p Hp. apply Hbefore. lia.
Qed.

End SafetyBound.

Lemma constantEndpoint_answers_pages (n0 : constantEndpoint) urlOf options
    (okres : jsResult → Prop) resp data b :
  the_answer n0 = NetResponse resp →
  status resp ≠ 429 → status resp < 500 →
  json_body resp = Some data → data_success data = true →
  okres (data_result data) → hasMore_of data = b →
  answers_pages n0 urlOf options okres (λ _, b).
Proof.
  intros Hans H429 H500 Hjson Hok Hres Hmore n p ->%constantEndpoint_reachable.
  exists resp, data. done.
Qed.

Lemma pagination_safety_bound_witness :
  (∃ r w' evs,
     fetchAllUserRiskScores acct token
       (fresh_world (ConstantEndpoint (users_page [] 1 2))) = (Returned r, w') ∧
     w_log w' = [] ++ evs ∧ fetches_in evs = 100) ∧
  (∃ r w' evs,
     fetchGatewayListItems acct token list_m None
       (fresh_world (ConstantEndpoint (items_page [item "a@x.com"] 1 2))) = (Returned r, w') ∧
     w_log w' = [] ++ evs ∧ fetches_in evs = 50) ∧
  (∃ r w' evs,
     fetchAllUserRiskScores acct token
       (fresh_world (ConstantEndpoint (users_page [] 1 1))) = (Returned r, w') ∧
     w_log w' = [] ++ evs ∧ fetches_in evs = 1) ∧
  (∃ r w' evs,
     fetchGatewayListItems acct token list_m None
       (fresh_world (ConstantEndpoint (items_page [item "a@x.com"] 1 1))) = (Returned r, w') ∧
     w_log w' = [] ++ evs ∧ fetches_in evs = 1).
Proof.
  split_and!.
  - destruct (pagination_safety_bound acct token list_m None
                (fresh_world (ConstantEndpoint (users_page [] 1 2))))
      as (_ & _ & Hrisk & _).
    destruct (Hrisk (λ _, true)) as (r & w' & evs & Hrun & _ & Hlog & _ & Hnever & _).
    { eapply constantEndpoint_answers_pages; [reflexivity|cbn; lia|cbn; lia|
        reflexivity|reflexivity|done|reflexivity]. }
    exists r, w', evs. split_and!; [done|done|by apply Hnever].
  - destruct (pagination_safety_bound acct token list_m None
                (fresh_world (ConstantEndpoint (items_page [item "a@x.com"] 1 2))))
      as (_ & _ & _ & Hitems).
    destruct (Hitems (λ _, true)) as (r & w' & evs & Hrun & _ & Hlog & _ & Hnever & _).
    { eapply constantEndpoint_answers_pages; [reflexivity|cbn; lia|cbn; lia|
        reflexivity|reflexivity|right; by eexists|reflexivity]. }
    exists r, w', evs. split_and!; [done|done|by apply Hnever].
  - destruct (pagination_safety_bound acct token list_m None
                (fresh_world (ConstantEndpoint (users_page [] 1 1))))
      as (_ & _ & Hrisk & _).
    destruct (Hrisk (λ _, false)) as (r & w' & evs & Hrun & _ & Hlog & _ & _ & Hlast).
    { eapply constantEndpoint_answers_pages; [reflexivity|cbn; lia|cbn; lia|
        reflexivity|reflexivity|done|reflexivity]. }
    exists r, w', evs. split_and!; [done|done|].
    apply (Hlast 1); [lia|intros p Hp; lia|reflexivity].
  - destruct (pagination_safety_bound acct token list_m None
                (fresh_world (ConstantEndpoint (items_page [item "a@x.com"] 1 1))))
      as (_ & _ & _ & Hitems).
    destruct (Hitems (λ _, false)) as (r & w' & evs & Hrun & _ & Hlog & _ & _ & Hlast).
    { eapply constantEndpoint_answers_pages; [reflexivity|cbn; lia|cbn; lia|
        reflexivity|reflexivity|right; by eexists|reflexivity]. }
    exists r, w', evs. split_and!; [done|done|].
    apply (Hlast 1); [lia|intros p Hp; lia|reflexivity].
Defined.

(** ** The diff and the patch *)

Lemma default_nonempty {A} (l : list A) :
  default [] (if 0 <? length l then Some l else None) = l.
Proof. by destruct l. Qed.

Lemma filter_all {A} (P : A → Prop) `{∀ x, Decision (P x)} (l : list A) :
  (∀ x, x ∈ l → P x) → filter P l = l.
Proof.
  induction l as [|a l IH]; intros Hall; [done|].
  rewrite filter_cons, decide_True by (apply Hall; left).
  f_equal. apply IH. intros x Hx. apply Hall. by right.
Qed.

Lemma filter_none {A} (P : A → Prop) `{∀ x, Decision (P x)} (l : list A) :
  (∀ x, x ∈ l → ¬ P x) → filter P l = [].
Proof.
  induction l as [|a l IH]; intros Hall; [done|].
  rewrite filter_cons, decide_False by (apply Hall; left).
  apply IH. intros x Hx. apply Hall. by right.
Qed.

Lemma fmap_filter_value (R : list string) (items : list listItem) :
  value <$> filter (λ item, value item ∉ R) items = filter (λ v, v ∉ R) (value <$> items).
Proof.
  induction items as [|it items IH]; [done|].
  rewrite fmap_cons, !filter_cons. simpl.
  destruct (decide (value it ∉ R)); [rewrite fmap_cons|]; by rewrite IH.
Qed.

(** The values of a list after the patch that [syncGatewayListFromKV]
    builds from [toAdd] and [toRemove]. *)
Lemma values_after_patch expected toAdd toRemove items append remove :
  patchBody expected toAdd toRemove = PatchBody append remove →
  value <$> applyPatch items append remove
  = filter (λ v, v ∉ toRemove) (value <$> items) ++ toAdd.
Proof.
  unfold patchBody. intros [= <- <-]. unfold applyPatch.
  rewrite fmap_app, fmap_filter_value, default_nonempty. f_equal.
  destruct toAdd as [|a l]; [done|]. cbn. f_equal.
  rewrite <- list_fmap_compose. apply list_fmap_id.
Qed.

Section Diff.
Context (E A : list string).

Lemma elem_of_toAdd x : x ∈ emailsToAdd (newSet E) (newSet A) ↔ x ∈ E ∧ x ∉ A.
Proof. by rewrite elem_of_emailsToAdd, !elem_of_newSet. Qed.

Lemma elem_of_toRemove x : x ∈ emailsToRemove (newSet E) (newSet A) ↔ x ∈ A ∧ x ∉ E.
Proof. by rewrite elem_of_emailsToRemove, !elem_of_newSet. Qed.

Lemma NoDup_toAdd : NoDup (emailsToAdd (newSet E) (newSet A)).
Proof.
  unfold emailsToAdd. apply NoDup_ListNoDup, List.NoDup_filter, NoDup_ListNoDup.
  apply NoDup_newSet.
Qed.

(** Removing [toRemove] from the current values and adding [toAdd] gives
    the expected values. *)
Lemma elem_of_patched x :
  x ∈ filter (λ v, v ∉ emailsToRemove (newSet E) (newSet A)) A
        ++ emailsToAdd (newSet E) (newSet A)
  ↔ x ∈ E.
Proof.
  rewrite elem_of_app, list_elem_of_filter, elem_of_toAdd, elem_of_toRemove.
  destruct (decide (x ∈ A)); destruct (decide (x ∈ E)); tauto.
Qed.

Lemma NoDup_patched :
  NoDup A →
  NoDup (filter (λ v, v ∉ emailsToRemove (newSet E) (newSet A)) A
           ++ emailsToAdd (newSet E) (newSet A)).
Proof.
  intros HA. apply NoDup_app. split_and!.
  - by apply NoDup_filter.
  - intros x [_ Hx]%list_elem_of_filter [_ Hn]%elem_of_toAdd. done.
  - apply NoDup_toAdd.
Qed.

Lemma length_patched :
  NoDup A →
  length (filter (λ v, v ∉ emailsToRemove (newSet E) (newSet A)) A
            ++ emailsToAdd (newSet E) (newSet A))
  = length (newSet E).
Proof.
  intros HA. apply Permutation_length, NoDup_Permutation.
  - by apply NoDup_patched.
  - apply NoDup_newSet.
  - intros x. by rewrite elem_of_patched, elem_of_newSet.
Qed.

(** Both differences are empty exactly when the two sets are equal. *)
Lemma diff_empty_iff :
  (0 <? length (emailsToAdd (newSet E) (newSet A)))
  || (0 <? length (emailsToRemove (newSet E) (newSet A))) = false
  ↔ (∀ x, x ∈ A ↔ x ∈ E).
Proof.
  rewrite orb_false_iff, !Nat.ltb_ge. split.
  - intros [Ha Hr] x.
    assert (emailsToAdd (newSet E) (newSet A) = []) as Ha'
      by (apply length_zero_iff_nil; lia).
    assert (emailsToRemove (newSet E) (newSet A) = []) as Hr'
      by (apply length_zero_iff_nil; lia).
    pose proof (elem_of_toAdd x) as H1. pose proof (elem_of_toRemove x) as H2.
    rewrite Ha' in H1. rewrite Hr' in H2. rewrite elem_of_nil in H1, H2.
    destruct (decide (x ∈ A)); destruct (decide (x ∈ E)); tauto.
  - intros Heq.
    assert (emailsToAdd (newSet E) (newSet A) = []) as ->.
    { apply elem_of_nil_inv. intros x [Hx Hn]%elem_of_toAdd. by apply Hn, Heq. }
    assert (emailsToRemove (newSet E) (newSet A) = []) as ->.
    { apply elem_of_nil_inv. intros x [Hx Hn]%elem_of_toRemove. by apply Hn, Heq. }
    done.
Qed.

End Diff.

(** ** The reconciler *)

Section SyncRuns.
Context {Pl : Type} `{!Platform Pl}.

Lemma makeApiRequest_once_eq url options maxRetries (w : world Pl) resp n' :
  plat_fetch (w_plat w) url options = (NetResponse resp, n') →
  status resp ≠ 429 → status resp < 500 → 1 ≤ maxRetries →
  makeApiRequest url options maxRetries w =
  (Returned (Some resp), World n' (w_kv w) (w_log w ++ [EvFetch url options])).
Proof.
  intros Hf H429 H500 Hmax.
  rewrite (makeApiRequest_once url options maxRetries w resp); [|by rewrite Hf|done..].
  by rewrite Hf.
Qed.

(** What [syncGatewayListFromKV] does once the expected state is found and
    the current items are fetched without an error tag. *)
Lemma syncGatewayListFromKV_run accountId apiToken listId listName (w : world Pl)
    expected ttl fr w1 :
  w_kv w !! kvKey listId = Some (KvEntry expected ttl) →
  fetched_by_sync accountId apiToken listId w = (Returned fr, w1) →
  truthy_opt (lf_error fr) = false →
  syncGatewayListFromKV accountId apiToken listId listName w =
  if (0 <? length (emailsToAdd (newSet (emails expected))
                     (newSet (value <$> lf_items fr))))
     || (0 <? length (emailsToRemove (newSet (emails expected))
                        (newSet (value <$> lf_items fr))))
  then
    try_catch
      (updateResult ←
         makeApiRequest (GatewayListUrl accountId listId)
           (patch_options apiToken
              (patchBody expected
                 (emailsToAdd (newSet (emails expected)) (newSet (value <$> lf_items fr)))
                 (emailsToRemove (newSet (emails expected))
                    (newSet (value <$> lf_items fr)))))
           defaultMaxRetries;
       updateData ← response_json updateResult;
       if data_success updateData then
         mret (patched_result expected
                 (emailsToAdd (newSet (emails expected)) (newSet (value <$> lf_items fr)))
                 (emailsToRemove (newSet (emails expected))
                    (newSet (value <$> lf_items fr))))
       else mret (sync_failed (ErrList (data_errors updateData))))
      (λ error, mret (sync_failed (ErrMessage error))) w1
  else (Returned (in_sync_result expected), w1).
Proof.
  intros Hkv Hfetch Herr. unfold fetched_by_sync in Hfetch.
  unfold syncGatewayListFromKV. rewrite !run_try_catch, run_bind.
  unfold kv_get at 1. cbn [fst snd]. rewrite Hkv. cbn [fmap option_fmap option_map kv_value].
  rewrite run_bind, Hfetch, Herr.
  destruct ((0 <? length _) || (0 <? length _)); reflexivity.
Qed.

(** The case where the fetched membership is the expected one. *)
Lemma syncGatewayListFromKV_in_sync accountId apiToken listId listName (w : world Pl)
    expected ttl fr w1 :
  w_kv w !! kvKey listId = Some (KvEntry expected ttl) →
  fetched_by_sync accountId apiToken listId w = (Returned fr, w1) →
  truthy_opt (lf_error fr) = false →
  (∀ x, x ∈ value <$> lf_items fr ↔ x ∈ emails expected) →
  syncGatewayListFromKV accountId apiToken listId listName w
  = (Returned (in_sync_result expected), w1).
Proof.
  intros Hkv Hfetch Herr Heq.
  rewrite (syncGatewayListFromKV_run _ _ _ _ _ _ _ _ _ Hkv Hfetch Herr).
  apply diff_empty_iff in Heq. by rewrite Heq.
Qed.

(** The case where there is a difference and the patch request is answered
    at once with success. *)
Lemma syncGatewayListFromKV_patched accountId apiToken listId listName (w : world Pl)
    expected ttl fr w1 resp data n2 :
  w_kv w !! kvKey listId = Some (KvEntry expected ttl) →
  fetched_by_sync accountId apiToken listId w = (Returned fr, w1) →
  truthy_opt (lf_error fr) = false →
  (0 <? length (emailsToAdd (newSet (emails expected)) (newSet (value <$> lf_items fr))))
  || (0 <? length (emailsToRemove (newSet (emails expected))
                     (newSet (value <$> lf_items fr)))) = true →
  plat_fetch (w_plat w1) (GatewayListUrl accountId listId)
    (patch_options apiToken
       (patchBody expected
          (emailsToAdd (newSet (emails expected)) (newSet (value <$> lf_items fr)))
          (emailsToRemove (newSet (emails expected)) (newSet (value <$> lf_items fr)))))
  = (NetResponse resp, n2) →
  status resp ≠ 429 → status resp < 500 →
  json_body resp = Some data → data_success data = true →
  syncGatewayListFromKV accountId apiToken listId listName w
  = (Returned (patched_result expected
                 (emailsToAdd (newSet (emails expected)) (newSet (value <$> lf_items fr)))
                 (emailsToRemove (newSet (emails expected))
                    (newSet (value <$> lf_items fr)))),
     World n2 (w_kv w1)
       (w_log w1 ++
        [EvFetch (GatewayListUrl accountId listId)
           (patch_options apiToken
              (patchBody expected
                 (emailsToAdd (newSet (emails expected)) (newSet (value <$> lf_items fr)))
                 (emailsToRemove (newSet (emails expected))
                    (newSet (value <$> lf_items fr)))))])).
Proof.
  intros Hkv Hfetch Herr Hdiff Hf H429 H500 Hjson Hok.
  rewrite (syncGatewayListFromKV_run _ _ _ _ _ _ _ _ _ Hkv Hfetch Herr).
  rewrite Hdiff, run_try_catch, run_bind.
  rewrite (makeApiRequest_once_eq _ _ _ _ _ _ Hf H429 H500) by (cbv; lia).
  rewrite run_bind, run_response_json, Hjson, Hok. reflexivity.
Qed.

End SyncRuns.

(** ** Read-only frames *)

Ltac keeps_with leaf :=
  repeat first
    [ match goal with |- PreOrder _ => apply _ end
    | match goal with |- ∀ _, _ => intros ? end
    | leaf
    | apply keeps_ret | apply keeps_throw | apply keeps_now
    | apply keeps_bind
    | apply keeps_try_catch
    | apply keeps_while
    | progress case_match ].

Section ReadFrames.
Context {Pl : Type} `{!Platform Pl}.
Context (Rp : relation Pl) `{!PreOrder Rp}.
Context (Hget : ∀ n url options, opt_method options = GET → Rp n (plat_fetch n url options).2).
Context (Hsleep : ∀ n t, Rp n (plat_sleep n t)).

Lemma keeps_read_sleep t : keeps (frame read_event Rp eq) (sleep t).
Proof. apply (keeps_sleep read_event Rp eq); [exact I|]. intros n. apply Hsleep. Qed.

Lemma keeps_response_json r : keeps (frame read_event Rp eq) (response_json r).
Proof. unfold response_json. keeps_with fail. Qed.

Lemma keeps_makeApiRequest_get url options maxRetries :
  opt_method options = GET →
  keeps (frame read_event Rp eq) (makeApiRequest url options maxRetries).
Proof.
  intros Hm. unfold makeApiRequest, makeApiRequest_body.
  assert (keeps (frame read_event Rp eq) (fetch url options)) as Hfetch.
  { apply (keeps_fetch read_event Rp eq); [exact Hm|]. intros n. by apply Hget. }
  keeps_with ltac:(first [exact Hfetch | apply keeps_read_sleep]).
Qed.

Lemma keeps_fetchGatewayListItems accountId apiToken listId riskLevel :
  keeps (frame read_event Rp eq)
    (fetchGatewayListItems accountId apiToken listId riskLevel).
Proof.
  unfold fetchGatewayListItems, fetchGatewayListItems_body, items_of.
  keeps_with ltac:(first [ apply keeps_makeApiRequest_get; reflexivity
                         | apply keeps_response_json | apply keeps_read_sleep ]).
Qed.

Lemma keeps_fetchAllUserRiskScores accountId apiToken :
  keeps (frame read_event Rp eq) (fetchAllUserRiskScores accountId apiToken).
Proof.
  unfold fetchAllUserRiskScores, fetchAllUserRiskScores_body.
  keeps_with ltac:(first [ apply keeps_makeApiRequest_get; reflexivity
                         | apply keeps_response_json | apply keeps_read_sleep ]).
Qed.

Lemma keeps_handleReconciliation_loop accountId apiToken listIds results :
  keeps (frame read_event Rp eq)
    (handleReconciliation_loop accountId apiToken listIds results).
Proof.
  revert results. induction listIds as [|[id name] rest IH]; intros results;
    cbn [handleReconciliation_loop].
  - keeps_with fail.
  - keeps_with ltac:(first [ apply IH
                           | apply (keeps_kv_get read_event Rp eq); exact I
                           | apply keeps_fetchGatewayListItems ]).
Qed.

Lemma keeps_handleReconciliation accountId apiToken high medium low :
  keeps (frame read_event Rp eq)
    (handleReconciliation accountId apiToken high medium low).
Proof.
  unfold handleReconciliation.
  keeps_with ltac:(apply keeps_handleReconciliation_loop).
Qed.

End ReadFrames.

(** ** The simulated list store *)

Lemma page_count_ltb n p k : 0 < k → (p <? page_count n k) = bool_decide (p * k < n).
Proof.
  intros Hk. unfold page_count. case_bool_decide as Hlt.
  - apply Nat.ltb_lt. apply (Nat.div_le_lower_bound (n + k - 1) k (S p)); [lia|nia].
  - apply Nat.ltb_ge. apply Nat.lt_succ_r.
    apply (Nat.Div0.div_lt_upper_bound (n + k - 1) k (S p)). nia.
Qed.

Lemma take_page_slice {A} (l : list A) p k :
  1 ≤ p → take ((p - 1) * k) l ++ page_slice l p k = take (p * k) l.
Proof.
  intros Hp. unfold page_slice. rewrite take_take_drop. f_equal.
  destruct p as [|p]; [lia|]. simpl. rewrite Nat.sub_0_r. lia.
Qed.

(** A GET request and a timer leave the simulated store as it is. *)
Lemma listStore_get_unchanged (s : listStore) url options :
  opt_method options = GET → (plat_fetch s url options).2 = s.
Proof.
  intros Hm. cbn. unfold listStore_fetch. rewrite Hm.
  destruct url; [done| |]; destruct (ls_lists s !! listId); done.
Qed.

Lemma listStore_reachable_users (s0 s : listStore) :
  reachable s0 s → ls_users s = ls_users s0.
Proof.
  induction 1 as [|s url options _ IH|s t _ IH]; [done| |done].
  rewrite <- IH. cbn. unfold listStore_fetch.
  repeat case_match; done.
Qed.

Lemma listStore_items_loop accountId apiToken listId (s : listStore) items :
  ls_lists s !! listId = Some items → length items ≤ 50 * 100 →
  ∀ fuel p (w : world listStore),
    w_plat w = s → 1 ≤ p → fuel + (p - 1) = 50 →
    (p = 1 ∨ (p - 1) * 100 < length items) →
    ∃ st' w',
      while_ fuel (λ st, st_hasMore st && (st_totalRequests st <? 50))
        (fetchGatewayListItems_body accountId apiToken listId)
        (PageLoop (take ((p - 1) * 100) items) p true (p - 1)) w
      = (Returned (inl st'), w') ∧
      st_all st' = items ∧ w_plat w' = s ∧ w_kv w' = w_kv w.
Proof.
  intros Hlist Hlen. induction fuel as [|fuel IH]; intros p w Hs Hp Hsum Hreach;
    rewrite while_unfold; cbn [st_hasMore st_totalRequests andb].
  - exfalso. assert (p = 51) as -> by lia. destruct Hreach as [?|Hr]; [lia|].
    cbn in Hr. lia.
  - replace (p - 1 <? 50) with true by (symmetry; apply Nat.ltb_lt; lia).
    rewrite run_bind. unfold fetchGatewayListItems_body at 1. cbn [st_page].
    rewrite run_bind.
    assert (plat_fetch (w_plat w) (ListItemsUrl accountId listId p 100)
              (ReqOptions GET (get_headers apiToken) NoBody)
            = (NetResponse (paged_response RItems items p 100), s)) as Hf.
    { rewrite Hs. cbn. by rewrite Hlist. }
    rewrite (makeApiRequest_once_eq _ _ _ _ _ _ Hf) by (cbv; lia).
    rewrite run_bind, run_response_json. cbn [paged_response ok_response json_body
      data_success negb].
    rewrite run_bind, run_items_of. cbn [data_result].
    unfold hasMore_of. cbn [data_result_info ri_page ri_total_pages].
    rewrite page_count_ltb by lia. cbn [st_all st_page st_hasMore st_totalRequests].
    rewrite take_page_slice by done.
    case_bool_decide as Hlt.
    + run_step.
      match goal with |- context [while_ fuel ?c ?b ?s1 ?w1] =>
        destruct (IH (S p) w1) as (st' & w' & Hrun & Hall & Hplat & Hkv);
          [done|lia|lia|right; cbn; lia|] end.
      replace (S p - 1) with p in Hrun by lia.
      replace (S (p - 1)) with p by lia.
      exists st', w'. rewrite Hrun. done.
    + run_step. rewrite while_unfold. cbn [st_hasMore andb]. run_step.
      eexists _, _. split; [reflexivity|]. cbn [st_all w_plat w_kv].
      split_and!; [|done..]. apply take_ge. lia.
Qed.

(** Against the simulated store, a list of at most 50 pages of 100 items
    is fetched whole, and the fetch changes neither the store nor the
    key-value namespace. *)
Lemma listStore_fetchGatewayListItems accountId apiToken listId riskLevel
    (w : world listStore) items :
  ls_lists (w_plat w) !! listId = Some items → length items ≤ 50 * 100 →
  ∃ r w',
    fetchGatewayListItems accountId apiToken listId riskLevel w = (Returned r, w') ∧
    lf_items r = items ∧ lf_error r = None ∧ lf_success r = None ∧
    w_plat w' = w_plat w ∧ w_kv w' = w_kv w.
Proof.
  intros Hlist Hlen. unfold fetchGatewayListItems.
  rewrite run_try_catch, run_bind.
  destruct (listStore_items_loop accountId apiToken listId (w_plat w) items Hlist Hlen
              50 1 w) as (st' & w' & Hrun & Hall & Hplat & Hkv); [done|lia|lia|by left|].
  cbn [Nat.sub Nat.mul] in Hrun. rewrite take_0 in Hrun. rewrite Hrun. run_step.
  eexists _, _. split; [reflexivity|]. cbn [lf_items lf_error lf_success]. done.
Qed.

(** One run of [syncGatewayListFromKV] against the simulated store, for a
    list of at most 5000 items: the run succeeds, reports the sizes of
    the two differences, sends a patch only if there is a difference, and
    leaves in the list the items that were not to remove followed by the
    items to add. *)
Lemma listStore_sync accountId apiToken listId listName (s : listStore) kv log
    expected ttl items :
  ls_lists s !! listId = Some items → length items ≤ 50 * 100 →
  kv !! kvKey listId = Some (KvEntry expected ttl) →
  ∃ r w' fr w1,
    fetched_by_sync accountId apiToken listId (World s kv log) = (Returned fr, w1) ∧
    lf_items fr = items ∧ w_plat w1 = s ∧
    syncGatewayListFromKV accountId apiToken listId listName (World s kv log)
    = (Returned r, w') ∧
    r = (if (0 <? length (emailsToAdd (newSet (emails expected))
                            (newSet (value <$> items))))
            || (0 <? length (emailsToRemove (newSet (emails expected))
                               (newSet (value <$> items))))
         then
           patched_result expected
             (emailsToAdd (newSet (emails expected)) (newSet (value <$> items)))
             (emailsToRemove (newSet (emails expected)) (newSet (value <$> items)))
         else in_sync_result expected) ∧
    w_kv w' = kv ∧
    (if (0 <? length (emailsToAdd (newSet (emails expected)) (newSet (value <$> items))))
        || (0 <? length (emailsToRemove (newSet (emails expected))
                           (newSet (value <$> items))))
     then
       w_log w' = w_log w1 ++
         [EvFetch (GatewayListUrl accountId listId)
            (patch_options apiToken
               (patchBody expected
                  (emailsToAdd (newSet (emails expected)) (newSet (value <$> items)))
                  (emailsToRemove (newSet (emails expected)) (newSet (value <$> items)))))]
     else w' = w1) ∧
    ls_users (w_plat w') = ls_users s ∧
    (∀ other, other ≠ listId → ls_lists (w_plat w') !! other = ls_lists s !! other) ∧
    ∃ items',
      ls_lists (w_plat w') !! listId = Some items' ∧
      value <$> items'
      = filter (λ v, v ∉ emailsToRemove (newSet (emails expected))
                           (newSet (value <$> items))) (value <$> items)
        ++ emailsToAdd (newSet (emails expected)) (newSet (value <$> items)).
Proof.
  intros Hlist Hlen Hkv.
  set (w := World s kv log).
  destruct (listStore_fetchGatewayListItems accountId apiToken listId None
              (log_event (EvKvGet (kvKey listId)) w) items Hlist Hlen)
    as (fr & w1 & Hfetch & Hitems & Herr & _ & Hplat & Hkv1).
  cbn [log_event w w_plat w_kv] in Hplat, Hkv1.
  assert (truthy_opt (lf_error fr) = false) as Herr' by (by rewrite Herr).
  fold (fetched_by_sync accountId apiToken listId w) in Hfetch.
  destruct ((0 <? length (emailsToAdd (newSet (emails expected)) (newSet (value <$> items))))
            || (0 <? length (emailsToRemove (newSet (emails expected))
                               (newSet (value <$> items))))) eqn:Hdiff.
  - set (toAdd := emailsToAdd _ _) in *. set (toRemove := emailsToRemove _ _) in *.
    destruct (patchBody expected toAdd toRemove) as [|append remove|] eqn:Hbody;
      [discriminate Hbody| |discriminate Hbody].
    set (s' := ListStore (ls_users s)
                 (<[listId := applyPatch items append remove]> (ls_lists s))).
    assert (plat_fetch (w_plat w1) (GatewayListUrl accountId listId)
              (patch_options apiToken (patchBody expected toAdd toRemove))
            = (NetResponse (ok_response RAbsent None), s')) as Hf.
    { rewrite Hplat, Hbody. cbn. rewrite Hlist. reflexivity. }
    pose proof (syncGatewayListFromKV_patched accountId apiToken listId listName w
                  expected ttl fr w1 (ok_response RAbsent None)
                  (ApiData true [] RAbsent None) s' Hkv Hfetch Herr') as Hrun.
    rewrite Hitems in Hrun. fold toAdd toRemove in Hrun.
    specialize (Hrun Hdiff Hf).
    rewrite Hrun by (cbn; first [lia|done]).
    eexists _, _, fr, w1. split_and!; try done.
    + cbn [w_log]. by rewrite Hbody.
    + intros other Hne. cbn [w_plat s' ls_lists]. by rewrite lookup_insert_ne.
    + eexists. cbn [w_plat s' ls_lists]. rewrite lookup_insert_eq. split; [done|].
      by eapply values_after_patch.
  - pose proof (syncGatewayListFromKV_run accountId apiToken listId listName w
                  expected ttl fr w1 Hkv Hfetch Herr') as Hrun.
    rewrite Hitems, Hdiff in Hrun.
    apply orb_false_iff in Hdiff as [Ha%Nat.ltb_ge Hr%Nat.ltb_ge].
    assert (emailsToAdd (newSet (emails expected)) (newSet (value <$> items)) = []) as Ha'
      by (apply length_zero_iff_nil; lia).
    assert (emailsToRemove (newSet (emails expected)) (newSet (value <$> items)) = []) as Hr'
      by (apply length_zero_iff_nil; lia).
    eexists _, _, fr, w1. split; [done|]. split; [done|]. split; [done|].
    split; [exact Hrun|]. rewrite Ha', Hr', Hplat.
    split_and!; try done. exists items. split; [done|].
    rewrite app_nil_r. symmetry. apply filter_all. intros x _. apply not_elem_of_nil.
Qed.

(** ** Completeness of the diff *)

(** C1.  For the expected emails of the stored state and the items
    fetched from the list, the two differences that
    [syncGatewayListFromKV] computes are [E − A] and [A − E] as sets, and
    the patch built from them turns a list holding the fetched items into
    a list whose values are exactly [E].  Against the simulated store,
    for a list of at most 50 pages of 100 items, the function sends that
    patch and the list ends with the values [E]. *)
Theorem syncGatewayListFromKV_diff_complete (expected : expectedState)
    (items : list listItem) :
  (list_to_set (emailsToAdd (newSet (emails expected)) (newSet (value <$> items)))
   : gset string)
  = list_to_set (emails expected) ∖ list_to_set (value <$> items) ∧
  (list_to_set (emailsToRemove (newSet (emails expected)) (newSet (value <$> items)))
   : gset string)
  = list_to_set (value <$> items) ∖ list_to_set (emails expected) ∧
  (∀ append remove,
     patchBody expected
       (emailsToAdd (newSet (emails expected)) (newSet (value <$> items)))
       (emailsToRemove (newSet (emails expected)) (newSet (value <$> items)))
     = PatchBody append remove →
     (list_to_set (value <$> applyPatch items append remove) : gset string)
     = list_to_set (emails expected)) ∧
  (∀ accountId apiToken listId listName (s : listStore) kv log ttl,
     ls_lists s !! listId = Some items → length items ≤ 50 * 100 →
     kv !! kvKey listId = Some (KvEntry expected ttl) →
     ∃ r w' items',
       syncGatewayListFromKV accountId apiToken listId listName (World s kv log)
       = (Returned r, w') ∧
       sync_success r = true ∧
       sync_added r
       = Some (length (emailsToAdd (newSet (emails expected))
                         (newSet (value <$> items)))) ∧
       sync_removed r
       = Some (length (emailsToRemove (newSet (emails expected))
                         (newSet (value <$> items)))) ∧
       ls_lists (w_plat w') !! listId = Some items' ∧
       (list_to_set (value <$> items') : gset string) = list_to_set (emails expected)).
Proof.
  split_and!.
  - apply set_eq. intros x.
    rewrite elem_of_difference, !elem_of_list_to_set. apply elem_of_toAdd.
  - apply set_eq. intros x.
    rewrite elem_of_difference, !elem_of_list_to_set. apply elem_of_toRemove.
  - intros append remove Hbody. apply set_eq. intros x.
    rewrite !elem_of_list_to_set, (values_after_patch _ _ _ _ _ _ Hbody).
    apply elem_of_patched.
  - intros accountId apiToken listId listName s kv log ttl Hlist Hlen Hkv.
    destruct (listStore_sync accountId apiToken listId listName s kv log expected ttl
                items Hlist Hlen Hkv)
      as (r & w' & fr & w1 & _ & _ & _ & Hrun & Hr & _ & _ & _ & _ & items' & Hl' & Hv').
    exists r, w', items'. split; [done|].
    assert (sync_success r = true ∧
            sync_added r = Some (length (emailsToAdd (newSet (emails expected))
                                           (newSet (value <$> items)))) ∧
            sync_removed r = Some (length (emailsToRemove (newSet (emails expected))
                                             (newSet (value <$> items))))) as (? & ? & ?).
    { rewrite Hr.
      destruct (0 <? length (emailsToAdd _ _)) eqn:Ha;
        destruct (0 <? length (emailsToRemove _ _)) eqn:Hb; cbn; try done.
      apply Nat.ltb_ge in Ha, Hb.
      split_and!; [done|f_equal; lia|f_equal; lia]. }
    split_and!; try done.
    apply set_eq. intros x. rewrite !elem_of_list_to_set, Hv'. apply elem_of_patched.
Qed.

Lemma syncGatewayListFromKV_diff_complete_witness :
  (list_to_set
     (value <$> applyPatch [item "b@x.com"; item "c@x.com"]
                  (Some [ListItem "a@x.com"
                           (Some ("medium risk user - updated " +:+ a_timestamp))])
                  (Some ["c@x.com"%string])) : gset string)
  = list_to_set ["a@x.com"; "b@x.com"]%string ∧
  ∃ r w' items',
    syncGatewayListFromKV acct token list_m "Medium Risk Users - New"
      (World (ListStore [] {[ list_m := [item "b@x.com"; item "c@x.com"] ]})
         {[ kvKey list_m := snapshot ["a@x.com"; "b@x.com"]%string "medium" ]} [])
    = (Returned r, w') ∧
    sync_success r = true ∧ sync_added r = Some 1 ∧ sync_removed r = Some 1 ∧
    ls_lists (w_plat w') !! list_m = Some items' ∧
    (list_to_set (value <$> items') : gset string)
    = list_to_set ["a@x.com"; "b@x.com"]%string.
Proof.
  destruct (syncGatewayListFromKV_diff_complete
              (kv_value (snapshot ["a@x.com"; "b@x.com"]%string "medium"))
              [item "b@x.com"; item "c@x.com"]) as (_ & _ & Hpatch & Hrun).
  split.
  - apply (Hpatch (Some [ListItem "a@x.com"
                           (Some ("medium risk user - updated " +:+ a_timestamp))])
             (Some ["c@x.com"%string])).
    vm_compute. reflexivity.
  - apply (Hrun acct token list_m "Medium Risk Users - New"%string
             (ListStore [] {[ list_m := [item "b@x.com"; item "c@x.com"] ]})
             {[ kvKey list_m := snapshot ["a@x.com"; "b@x.com"]%string "medium" ]} [] None).
    + apply lookup_singleton_eq.
    + cbn. lia.
    + apply lookup_singleton_eq.
Defined.

(** ** An empty expected set *)

Lemma emailsToRemove_nil l : emailsToRemove (newSet []) l = l.
Proof.
  unfold emailsToRemove. induction l as [|v l IH]; [done|]. cbn [List.filter].
  replace (Set_has (newSet []) v) with false
    by (symmetry; apply Set_has_false, not_elem_of_nil).
  cbn [negb]. by rewrite IH.
Qed.

(** C7.  When the stored expected state is empty and the list is not,
    and the list holds at most 50 pages of 100 items, which is what
    [fetchGatewayListItems] reads, [syncGatewayListFromKV] does not skip:
    what it computes to remove is the whole membership of the list, the
    patch it sends has no [append] and removes all of it, and the list
    of the simulated store ends empty. *)
Theorem syncGatewayListFromKV_empties_list accountId apiToken listId listName
    (s : listStore) kv log expected ttl items :
  emails expected = [] → items ≠ [] →
  ls_lists s !! listId = Some items → length items ≤ 50 * 100 →
  kv !! kvKey listId = Some (KvEntry expected ttl) →
  emailsToAdd (newSet (emails expected)) (newSet (value <$> items)) = [] ∧
  emailsToRemove (newSet (emails expected)) (newSet (value <$> items))
  = newSet (value <$> items) ∧
  (∀ v, v ∈ newSet (value <$> items) ↔ v ∈ value <$> items) ∧
  ∃ w' log1,
    syncGatewayListFromKV accountId apiToken listId listName (World s kv log)
    = (Returned (patched_result expected [] (newSet (value <$> items))), w') ∧
    w_log w' = log1 ++
      [EvFetch (GatewayListUrl accountId listId)
         (patch_options apiToken (PatchBody None (Some (newSet (value <$> items)))))] ∧
    ls_lists (w_plat w') !! listId = Some [].
Proof.
  intros Hempty Hne Hlist Hlen Hkv.
  assert (emailsToAdd (newSet (emails expected)) (newSet (value <$> items)) = []) as Ha.
  { by rewrite Hempty. }
  assert (emailsToRemove (newSet (emails expected)) (newSet (value <$> items))
          = newSet (value <$> items)) as Hr.
  { rewrite Hempty. apply emailsToRemove_nil. }
  assert (0 < length (newSet (value <$> items))) as Hpos.
  { destruct items as [|it items]; [done|].
    destruct (newSet (value <$> it :: items)) as [|v l] eqn:Hset; [|cbn; lia].
    assert (value it ∈ newSet (value <$> it :: items)) as Hin
      by (apply elem_of_newSet; left).
    rewrite Hset in Hin. by apply elem_of_nil in Hin. }
  split; [done|]. split; [done|]. split; [intros v; apply elem_of_newSet|].
  destruct (listStore_sync accountId apiToken listId listName s kv log expected ttl
              items Hlist Hlen Hkv)
    as (r & w' & fr & w1 & _ & _ & _ & Hrun & Hres & _ & Hlog & _ & _ & items' & Hl' & Hv').
  rewrite Ha, Hr in Hres, Hlog, Hv'.
  replace (0 <? length (newSet (value <$> items))) with true in Hres, Hlog
    by (symmetry; by apply Nat.ltb_lt).
  cbn [length Nat.ltb Nat.leb orb] in Hres, Hlog. subst r.
  exists w', (w_log w1). split; [done|]. split.
  - rewrite Hlog. unfold patchBody.
    rewrite (proj2 (Nat.ltb_lt 0 (length (newSet (value <$> items)))) Hpos).
    reflexivity.
  - rewrite Hl'. f_equal. apply fmap_nil_inv with (f := value).
    rewrite Hv', app_nil_r. apply filter_none.
    intros v Hv Hnot. apply Hnot. by apply elem_of_newSet.
Qed.

Lemma syncGatewayListFromKV_empties_list_witness :
  ∃ w' log1,
    syncGatewayListFromKV acct token list_m "Medium Risk Users - New"
      (World (ListStore [] {[ list_m := [item "d@x.com"] ]})
         {[ kvKey list_m := snapshot [] "medium" ]} [])
    = (Returned (patched_result (kv_value (snapshot [] "medium")) []
                   (newSet (value <$> [item "d@x.com"]))), w') ∧
    w_log w' = log1 ++
      [EvFetch (GatewayListUrl acct list_m)
         (patch_options token
            (PatchBody None (Some (newSet (value <$> [item "d@x.com"])))))] ∧
    ls_lists (w_plat w') !! list_m = Some [].
Proof.
  apply (syncGatewayListFromKV_empties_list acct token list_m
           "Medium Risk Users - New"%string
           (ListStore [] {[ list_m := [item "d@x.com"] ]})
           {[ kvKey list_m := snapshot [] "medium" ]} []
           (kv_value (snapshot [] "medium")) None [item "d@x.com"]).
  - reflexivity.
  - discriminate.
  - apply lookup_singleton_eq.
  - cbn. lia.
  - apply lookup_singleton_eq.
Defined.

(** ** Idempotence *)

Lemma always_preorder {A} : PreOrder (λ _ _ : A, True).
Proof. split; done. Qed.

Lemma read_event_not_a_mutation e : read_event e → not_a_mutation e.
Proof. by destruct e. Qed.

Section Idempotence.
Context {Pl : Type} `{!Platform Pl}.

(** [storeExpectedStateInKV] overwrites the entry of the list with a state
    that holds the emails of the users, the level, the time and the count,
    and nothing else: no drift flag. *)
Lemma storeExpectedStateInKV_run listId users level (w : world Pl) :
  storeExpectedStateInKV listId users level w =
  (Returned (StoreResult true (Some (length users)) None),
   World (w_plat w)
     (<[kvKey listId :=
          KvEntry (ExpectedState (email <$> users) (Some level)
                     (Some (plat_now (w_plat w))) (Some (length users)) None None None)
            None]> (w_kv w))
     (w_log w ++ [EvKvPut (kvKey listId)])).
Proof. reflexivity. Qed.

(** The list fetch of [syncGatewayListFromKV] only reads. *)
Lemma fetched_by_sync_frame accountId apiToken listId (w : world Pl) :
  w_kv (fetched_by_sync accountId apiToken listId w).2 = w_kv w ∧
  ∃ evs,
    w_log (fetched_by_sync accountId apiToken listId w).2 = w_log w ++ evs ∧
    Forall read_event evs.
Proof.
  pose proof (keeps_fetchGatewayListItems (λ _ _, True) (PreOrder0 := always_preorder)
                (λ _ _ _ _, I) (λ _ _, I) accountId apiToken listId None
                (log_event (EvKvGet (kvKey listId)) w))
    as ((evs & Hlog & Hall) & _ & Hkv).
  unfold fetched_by_sync. split; [by rewrite <- Hkv|].
  exists (EvKvGet (kvKey listId) :: evs). rewrite Hlog. cbn [log_event w_log].
  rewrite <- app_assoc. split; [done|]. by constructor.
Qed.

End Idempotence.

(** ** The scheduled cycle against the simulated store *)

Lemma kvKey_inj a b : kvKey a = kvKey b → a = b.
Proof. unfold kvKey. cbn. intros H. by simplify_eq. Qed.

(** One run of the reconciler against the simulated store, with its log:
    when the list already holds the expected emails the store is left as
    it is and no request other than GET is sent. *)
Lemma listStore_sync_log accountId apiToken listId listName (s : listStore) kv log
    expected ttl items :
  ls_lists s !! listId = Some items → length items ≤ 50 * 100 →
  kv !! kvKey listId = Some (KvEntry expected ttl) →
  ∃ r w' items' evs,
    syncGatewayListFromKV accountId apiToken listId listName (World s kv log)
    = (Returned r, w') ∧
    synced (emails expected) items r items' ∧
    w_kv w' = kv ∧ ls_users (w_plat w') = ls_users s ∧
    (∀ other, other ≠ listId → ls_lists (w_plat w') !! other = ls_lists s !! other) ∧
    ls_lists (w_plat w') !! listId = Some items' ∧
    w_log w' = log ++ evs ∧
    ((∀ x, x ∈ value <$> items ↔ x ∈ emails expected) →
     w_plat w' = s ∧ Forall not_a_mutation evs).
Proof.
  intros Hlist Hlen Hkv.
  destruct (listStore_sync accountId apiToken listId listName s kv log expected ttl
              items Hlist Hlen Hkv)
    as (r & w' & fr & w1 & Hfetch & _ & Hplat1 & Hrun & Hr & Hkv' & Hlog & Husers & Hother
        & items' & Hl' & Hv').
  destruct (fetched_by_sync_frame accountId apiToken listId (World s kv log))
    as (_ & evs & Hlogf & Hall).
  rewrite Hfetch in Hlogf. cbn [snd w_log] in Hlogf.
  assert (synced (emails expected) items r items') as Hsynced.
  { unfold synced. rewrite Hr.
    destruct (0 <? length (emailsToAdd _ _)) eqn:Ha;
      destruct (0 <? length (emailsToRemove _ _)) eqn:Hb; cbn; try done.
    apply Nat.ltb_ge in Ha, Hb.
    split_and!; [done|f_equal; lia|f_equal; lia|done]. }
  destruct ((0 <? length (emailsToAdd (newSet (emails expected)) (newSet (value <$> items))))
            || (0 <? length (emailsToRemove (newSet (emails expected))
                               (newSet (value <$> items))))) eqn:Hdiff.
  - eexists r, w', items', _. split_and!; try done.
    + rewrite Hlog, Hlogf, <- app_assoc. reflexivity.
    + intros Hsame%diff_empty_iff. congruence.
  - subst w'. exists r, w1, items', evs. split_and!; try done.
    intros _. split; [done|]. eapply Forall_impl; [exact Hall|].
    apply read_event_not_a_mutation.
Qed.

Lemma length_usersAtLevel level users : length (usersAtLevel level users) ≤ length users.
Proof. unfold usersAtLevel. apply List.filter_length_le. Qed.

Lemma synced_in_sync E items r items' :
  synced E items r items' → (∀ x, x ∈ value <$> items ↔ x ∈ E) →
  sync_success r = true ∧ sync_added r = Some 0 ∧ sync_removed r = Some 0.
Proof.
  intros (Hok & Ha & Hr & _) Hsame%diff_empty_iff.
  apply orb_false_iff in Hsame as [Hla%Nat.ltb_ge Hlr%Nat.ltb_ge].
  rewrite Ha, Hr. split_and!; [done|f_equal; lia|f_equal; lia].
Qed.

(** *** Beyond the safety bound *)

Lemma listStore_items_loop_any accountId apiToken listId (s : listStore) items :
  ls_lists s !! listId = Some items →
  ∀ fuel p (w : world listStore),
    w_plat w = s → 1 ≤ p → fuel + (p - 1) = 50 →
    (p = 1 ∨ (p - 1) * 100 < length items) →
    ∃ st' w',
      while_ fuel (λ st, st_hasMore st && (st_totalRequests st <? 50))
        (fetchGatewayListItems_body accountId apiToken listId)
        (PageLoop (take ((p - 1) * 100) items) p true (p - 1)) w
      = (Returned (inl st'), w') ∧
      st_all st' = take (50 * 100) items ∧
      st_page st' = S (st_totalRequests st') ∧ 1 ≤ st_page st' ∧ st_totalRequests st' ≤ 50 ∧
      w_plat w' = s ∧ w_kv w' = w_kv w.
Proof.
  intros Hlist. induction fuel as [|fuel IH]; intros p w Hs Hp Hsum Hreach;
    rewrite while_unfold; cbn [st_hasMore st_totalRequests andb].
  - assert (p = 51) as -> by lia.
    replace (51 - 1 <? 50) with false by done. run_step.
    eexists _, _. split; [reflexivity|]. cbn [st_all st_page st_totalRequests].
    split_and!; try done; lia.
  - replace (p - 1 <? 50) with true by (symmetry; apply Nat.ltb_lt; lia).
    rewrite run_bind. unfold fetchGatewayListItems_body at 1. cbn [st_page].
    rewrite run_bind.
    assert (plat_fetch (w_plat w) (ListItemsUrl accountId listId p 100)
              (ReqOptions GET (get_headers apiToken) NoBody)
            = (NetResponse (paged_response RItems items p 100), s)) as Hf.
    { rewrite Hs. cbn. by rewrite Hlist. }
    rewrite (makeApiRequest_once_eq _ _ _ _ _ _ Hf) by (cbv; lia).
    rewrite run_bind, run_response_json. cbn [paged_response ok_response json_body
      data_success negb].
    rewrite run_bind, run_items_of. cbn [data_result].
    unfold hasMore_of. cbn [data_result_info ri_page ri_total_pages].
    rewrite page_count_ltb by lia. cbn [st_all st_page st_hasMore st_totalRequests].
    rewrite take_page_slice by done.
    case_bool_decide as Hlt.
    + run_step.
      match goal with |- context [while_ fuel ?c ?b ?s1 ?w1] =>
        destruct (IH (S p) w1) as (st' & w' & Hrun & Hall & Hpg & Hp1 & Hreq & Hplat & Hkv);
          [done|lia|lia|right; cbn; lia|] end.
      replace (S p - 1) with p in Hrun by lia.
      replace (S (p - 1)) with p by lia.
      exists st', w'. rewrite Hrun. done.
    + run_step. rewrite while_unfold. cbn [st_hasMore andb]. run_step.
      eexists _, _. split; [reflexivity|]. cbn [st_all st_page st_totalRequests w_plat w_kv].
      split_and!; try done; try lia.
      rewrite !take_ge; [done|lia|lia].
Qed.

Lemma listStore_users_loop_any accountId apiToken (s : listStore) :
  ∀ fuel p (w : world listStore),
    w_plat w = s → 1 ≤ p → fuel + (p - 1) = 100 →
    (p = 1 ∨ (p - 1) * 50 < length (ls_users s)) →
    ∃ st' w',
      while_ fuel (λ st, st_hasMore st && (st_totalRequests st <? 100))
        (fetchAllUserRiskScores_body accountId apiToken)
        (PageLoop (take ((p - 1) * 50) (ls_users s)) p true (p - 1)) w
      = (Returned (inl st'), w') ∧
      st_all st' = take (100 * 50) (ls_users s) ∧
      st_page st' = S (st_totalRequests st') ∧ 1 ≤ st_page st' ∧ st_totalRequests st' ≤ 100 ∧
      w_plat w' = s ∧ w_kv w' = w_kv w.
Proof.
  induction fuel as [|fuel IH]; intros p w Hs Hp Hsum Hreach;
    rewrite while_unfold; cbn [st_hasMore st_totalRequests andb].
  - assert (p = 101) as -> by lia.
    replace (101 - 1 <? 100) with false by done. run_step.
    eexists _, _. split; [reflexivity|]. cbn [st_all st_page st_totalRequests].
    split_and!; try done; lia.
  - replace (p - 1 <? 100) with true by (symmetry; apply Nat.ltb_lt; lia).
    rewrite run_bind. unfold fetchAllUserRiskScores_body at 1. cbn [st_page].
    rewrite run_bind.
    assert (plat_fetch (w_plat w) (RiskSummaryUrl accountId p 50)
              (ReqOptions GET (get_headers apiToken) NoBody)
            = (NetResponse (paged_response RUsers (ls_users s) p 50), s)) as Hf.
    { rewrite Hs. reflexivity. }
    rewrite (makeApiRequest_once_eq _ _ _ _ _ _ Hf) by (cbv; lia).
    rewrite run_bind, run_response_json. cbn [paged_response ok_response json_body
      data_success negb].
    unfold hasMore_of, users_of.
    cbn [data_result data_result_info ri_page ri_total_pages].
    rewrite page_count_ltb by lia. cbn [st_all st_page st_hasMore st_totalRequests].
    rewrite take_page_slice by done.
    case_bool_decide as Hlt.
    + run_step.
      match goal with |- context [while_ fuel ?c ?b ?s1 ?w1] =>
        destruct (IH (S p) w1) as (st' & w' & Hrun & Hall & Hpg & Hp1 & Hreq & Hplat & Hkv);
          [done|lia|lia|right; cbn; lia|] end.
      replace (S p - 1) with p in Hrun by lia.
      replace (S (p - 1)) with p by lia.
      exists st', w'. rewrite Hrun. done.
    + run_step. rewrite while_unfold. cbn [st_hasMore andb]. run_step.
      eexists _, _. split; [reflexivity|]. cbn [st_all st_page st_totalRequests w_plat w_kv].
      split_and!; try done; try lia.
      rewrite !take_ge; [done|lia|lia].
Qed.

Lemma string_app_suffix_inj (t s1 s2 : string) : s1 +:+ t = s2 +:+ t → s1 = s2.
Proof.
  assert (∀ s, String.length (s +:+ t) = String.length s + String.length t) as Hlen.
  { induction s as [|c s IH]; [done|]. simpl. by rewrite IH. }
  revert s2. induction s1 as [|c s1 IH]; intros [|c2 s2] Heq.
  - done.
  - apply (f_equal String.length) in Heq. rewrite !Hlen in Heq. simpl in Heq. lia.
  - apply (f_equal String.length) in Heq. rewrite !Hlen in Heq. simpl in Heq. lia.
  - simpl in Heq. injection Heq as -> Heq. f_equal. by apply IH.
Qed.

Lemma value_numbered_inj j k : value (numbered j) = value (numbered k) → j = k.
Proof.
  unfold numbered, item. cbn [value]. intros Heq.
  apply (inj (String.app "user")) in Heq.
  apply string_app_suffix_inj in Heq. by apply (inj pretty) in Heq.
Qed.

Lemma NoDup_many_items n : NoDup (value <$> many_items n).
Proof.
  unfold many_items. rewrite <- list_fmap_compose.
  apply NoDup_fmap_2; [|apply NoDup_seq].
  intros j k. apply value_numbered_inj.
Qed.

Lemma length_many_items n : length (many_items n) = n.
Proof. unfold many_items. by rewrite length_fmap, length_seq. Qed.

Lemma many_items_S n : many_items (S n) = many_items n ++ [numbered n].
Proof. unfold many_items. by rewrite seq_S, fmap_app. Qed.

Lemma take_many_items n : take n (many_items (S n)) = many_items n.
Proof.
  rewrite many_items_S. apply take_app_length'. by rewrite length_many_items.
Qed.

(** A [Set] built from an array without duplicates holds the array. *)
Lemma newSet_NoDup l : NoDup l → newSet l = l.
Proof.
  unfold newSet.
  assert (∀ acc, NoDup (acc ++ l) → foldl Set_add acc l = acc ++ l) as Hgen.
  { induction l as [|x l IH]; intros acc Hnd; cbn [foldl]; [by rewrite app_nil_r|].
    unfold Set_add at 2.
    replace (Set_has acc x) with false.
    - rewrite IH; rewrite <- app_assoc; done.
    - symmetry. apply Set_has_false. apply NoDup_app in Hnd as (_ & Hdis & _).
      intros Hin. apply (Hdis x Hin). left. }
  intros Hnd. apply (Hgen []). done.
Qed.

(** Against the simulated store, the first 50 pages of 100 items of any
    list are fetched, with no error tag. *)
Lemma listStore_fetchGatewayListItems_any accountId apiToken listId riskLevel
    (w : world listStore) items :
  ls_lists (w_plat w) !! listId = Some items →
  ∃ r w',
    fetchGatewayListItems accountId apiToken listId riskLevel w = (Returned r, w') ∧
    lf_items r = take (50 * 100) items ∧ lf_error r = None ∧
    w_plat w' = w_plat w ∧ w_kv w' = w_kv w.
Proof.
  intros Hlist. unfold fetchGatewayListItems. rewrite run_try_catch, run_bind.
  destruct (listStore_items_loop_any accountId apiToken listId (w_plat w) items Hlist
              50 1 w) as (st' & w' & Hrun & Hall & _ & _ & _ & Hplat & Hkv);
    [done|lia|lia|by left|].
  cbn [Nat.sub Nat.mul] in Hrun. rewrite take_0 in Hrun. rewrite Hrun. run_step.
  eexists _, _. split; [reflexivity|]. cbn [lf_items lf_error]. by rewrite Hall.
Qed.

(** The first 100 pages of 50 records of any risk source are fetched, by
    reads only. *)
Lemma listStore_fetchAllUserRiskScores_any accountId apiToken (w : world listStore) :
  ∃ r w' evs,
    fetchAllUserRiskScores accountId apiToken w = (Returned r, w') ∧
    rf_success r = true ∧ rf_users r = Some (take (100 * 50) (ls_users (w_plat w))) ∧
    w_plat w' = w_plat w ∧ w_kv w' = w_kv w ∧
    w_log w' = w_log w ++ evs ∧ Forall read_event evs.
Proof.
  pose proof (keeps_fetchAllUserRiskScores (λ _ _, True) (PreOrder0 := always_preorder)
                (λ _ _ _ _, I) (λ _ _, I) accountId apiToken w)
    as ((evs & Hlog & Hall) & _ & _).
  revert Hlog. unfold fetchAllUserRiskScores.
  rewrite run_try_catch, run_bind.
  destruct (listStore_users_loop_any accountId apiToken (w_plat w) 100 1 w)
    as (st' & w' & Hrun & Hst & _ & _ & _ & Hplat & Hkv); [done|lia|lia|by left|].
  cbn [Nat.sub Nat.mul] in Hrun. rewrite take_0 in Hrun. rewrite Hrun. run_step.
  intros Hlog. eexists _, _, evs. split; [reflexivity|].
  cbn [rf_success rf_users]. rewrite Hst. done.
Qed.

(** One run of [syncGatewayListFromKV] against the simulated store, for a
    list of any length: the differences are computed from the first 50
    pages of 100 items, and the patch is applied to the whole list. *)
Lemma listStore_sync_any accountId apiToken listId listName (s : listStore) kv log
    expected ttl items :
  ls_lists s !! listId = Some items →
  kv !! kvKey listId = Some (KvEntry expected ttl) →
  let toAdd := emailsToAdd (newSet (emails expected))
                 (newSet (value <$> take (50 * 100) items)) in
  let toRemove := emailsToRemove (newSet (emails expected))
                    (newSet (value <$> take (50 * 100) items)) in
  ∃ r w' evs,
    syncGatewayListFromKV accountId apiToken listId listName (World s kv log)
    = (Returned r, w') ∧
    w_kv w' = kv ∧ w_log w' = log ++ evs ∧
    ls_users (w_plat w') = ls_users s ∧
    (∀ other, other ≠ listId → ls_lists (w_plat w') !! other = ls_lists s !! other) ∧
    if (0 <? length toAdd) || (0 <? length toRemove) then
      r = patched_result expected toAdd toRemove ∧
      ∃ append remove log1,
        patchBody expected toAdd toRemove = PatchBody append remove ∧
        w_log w' = log1 ++ [EvFetch (GatewayListUrl accountId listId)
                              (patch_options apiToken (PatchBody append remove))] ∧
        ls_lists (w_plat w') !! listId = Some (applyPatch items append remove)
    else
      r = in_sync_result expected ∧ w_plat w' = s ∧ Forall not_a_mutation evs.
Proof.
  intros Hlist Hkv toAdd toRemove.
  set (w := World s kv log).
  destruct (listStore_fetchGatewayListItems_any accountId apiToken listId None
              (log_event (EvKvGet (kvKey listId)) w) items Hlist)
    as (fr & w1 & Hfetch & Hitems & Herr & Hplat & Hkv1).
  cbn [log_event w w_plat w_kv] in Hplat, Hkv1.
  assert (truthy_opt (lf_error fr) = false) as Herr' by (by rewrite Herr).
  fold (fetched_by_sync accountId apiToken listId w) in Hfetch.
  destruct (fetched_by_sync_frame accountId apiToken listId w) as (_ & evs & Hlogf & Hall).
  rewrite Hfetch in Hlogf. cbn [snd w w_log] in Hlogf.
  destruct ((0 <? length toAdd) || (0 <? length toRemove)) eqn:Hdiff.
  - destruct (patchBody expected toAdd toRemove) as [|append remove|] eqn:Hbody;
      [discriminate Hbody| |discriminate Hbody].
    set (s' := ListStore (ls_users s)
                 (<[listId := applyPatch items append remove]> (ls_lists s))).
    assert (plat_fetch (w_plat w1) (GatewayListUrl accountId listId)
              (patch_options apiToken (patchBody expected toAdd toRemove))
            = (NetResponse (ok_response RAbsent None), s')) as Hf.
    { rewrite Hplat, Hbody. cbn. rewrite Hlist. reflexivity. }
    pose proof (syncGatewayListFromKV_patched accountId apiToken listId listName w
                  expected ttl fr w1 (ok_response RAbsent None)
                  (ApiData true [] RAbsent None) s' Hkv Hfetch Herr') as Hrun.
    rewrite Hitems in Hrun. fold toAdd toRemove in Hrun.
    specialize (Hrun Hdiff Hf).
    rewrite Hrun by (cbn; first [lia|done]).
    eexists _, _, _. split; [reflexivity|]. cbn [w_kv w_log w_plat].
    split; [done|]. split; [rewrite Hlogf, <- app_assoc; reflexivity|].
    split; [done|]. split.
    + intros other Hne. cbn [s' ls_lists]. by rewrite lookup_insert_ne.
    + split; [done|]. exists append, remove, (w_log w1). split; [done|].
      split; [by rewrite Hbody|].
      cbn [s' ls_lists]. by rewrite lookup_insert_eq.
  - pose proof (syncGatewayListFromKV_run accountId apiToken listId listName w
                  expected ttl fr w1 Hkv Hfetch Herr') as Hrun.
    rewrite Hitems in Hrun. fold toAdd toRemove in Hrun. rewrite Hdiff in Hrun.
    exists (in_sync_result expected), w1, evs. split; [exact Hrun|].
    split; [done|]. split; [done|]. rewrite Hplat.
    split; [done|]. split; [done|]. split; [done|]. split; [done|].
    eapply Forall_impl; [exact Hall|]. apply read_event_not_a_mutation.
Qed.

(** *** The cycle, run twice *)

Lemma settled_in_reach kv s listId : settled kv s listId → in_reach kv s listId.
Proof.
  intros (items & expected & ttl & Hl & Hlen & Hkv & Hsame).
  exists items, expected, ttl. split_and!; [done..|by right].
Qed.

(** A sync of a list within reach settles it and leaves the other lists
    as they were; a sync of a settled list changes nothing. *)
Lemma listStore_sync_step accountId apiToken listId listName (s : listStore) kv log :
  in_reach kv s listId →
  ∃ r w' evs,
    syncGatewayListFromKV accountId apiToken listId listName (World s kv log)
    = (Returned r, w') ∧
    sync_success r = true ∧
    w_kv w' = kv ∧ w_log w' = log ++ evs ∧ ls_users (w_plat w') = ls_users s ∧
    settled kv (w_plat w') listId ∧
    (∀ y, in_reach kv s y → in_reach kv (w_plat w') y) ∧
    (∀ y, settled kv s y → settled kv (w_plat w') y) ∧
    (settled kv s listId →
     sync_added r = Some 0 ∧ sync_removed r = Some 0 ∧
     w_plat w' = s ∧ Forall not_a_mutation evs).
Proof.
  intros (items & expected & ttl & Hl & Hlen & Hkv & Hcase).
  destruct (listStore_sync_log accountId apiToken listId listName s kv log expected ttl
              items Hl Hlen Hkv)
    as (r & w' & items' & evs & Hrun & Hsynced & Hkv' & Husers & Hother & Hl' & Hlog & Hquiet).
  assert (settled kv (w_plat w') listId) as Hsettled.
  { destruct Hcase as [[Hnd HlenE]|Hsame].
    - destruct Hsynced as (_ & _ & _ & Hv).
      exists items', expected, ttl. split_and!; [done| |done|].
      + rewrite <- (length_fmap value), Hv, length_patched by done.
        etransitivity; [apply length_newSet|done].
      + intros v. rewrite Hv. apply elem_of_patched.
    - destruct (Hquiet Hsame) as [-> _]. by exists items, expected, ttl. }
  assert (∀ y, y ≠ listId → ls_lists (w_plat w') !! y = ls_lists s !! y) as Hother' by done.
  exists r, w', evs. split; [done|]. split; [by destruct Hsynced|].
  split; [done|]. split; [done|]. split; [done|]. split; [done|]. split_and!.
  - intros y Hy. destruct (decide (y = listId)) as [->|Hne];
      [by apply settled_in_reach|].
    destruct Hy as (iy & ey & ty & ? & ? & ? & ?).
    exists iy, ey, ty. rewrite Hother' by done. done.
  - intros y Hy. destruct (decide (y = listId)) as [->|Hne]; [done|].
    destruct Hy as (iy & ey & ty & ? & ? & ? & ?).
    exists iy, ey, ty. rewrite Hother' by done. done.
  - intros (items0 & expected0 & ttl0 & Hl0 & _ & Hkv0 & Hsame).
    rewrite Hl in Hl0. injection Hl0 as <-. rewrite Hkv in Hkv0. injection Hkv0 as <- <-.
    destruct (synced_in_sync _ _ _ _ Hsynced Hsame) as (_ & Ha & Hr).
    destruct (Hquiet Hsame) as [Hplat Hall]. done.
Qed.

Lemma three_syncs_run {Pl} `{!Platform Pl} accountId apiToken high medium low
    (w w1 w2 w3 : world Pl) rh rm rl :
  syncGatewayListFromKV accountId apiToken high "High Risk Users - New" w
  = (Returned rh, w1) →
  syncGatewayListFromKV accountId apiToken medium "Medium Risk Users - New" w1
  = (Returned rm, w2) →
  syncGatewayListFromKV accountId apiToken low "Low Risk Users - New" w2
  = (Returned rl, w3) →
  three_syncs accountId apiToken high medium low w = (Returned (Some (rh, rm, rl)), w3).
Proof.
  intros H1 H2 H3. unfold three_syncs.
  rewrite run_bind, H1, run_bind, H2, run_bind, H3. reflexivity.
Qed.

(** The three syncs of a cycle, on lists within reach: the three lists
    end settled; on settled lists nothing is added or removed and the
    store is not changed. *)
Lemma listStore_three_syncs accountId apiToken high medium low (s : listStore) kv log :
  in_reach kv s high → in_reach kv s medium → in_reach kv s low →
  ∃ rh rm rl w' evs,
    three_syncs accountId apiToken high medium low (World s kv log)
    = (Returned (Some (rh, rm, rl)), w') ∧
    w_kv w' = kv ∧ w_log w' = log ++ evs ∧ ls_users (w_plat w') = ls_users s ∧
    settled kv (w_plat w') high ∧ settled kv (w_plat w') medium ∧
    settled kv (w_plat w') low ∧
    (settled kv s high → settled kv s medium → settled kv s low →
     Forall (λ r, sync_success r = true ∧ sync_added r = Some 0 ∧ sync_removed r = Some 0)
       [rh; rm; rl] ∧
     w_plat w' = s ∧ Forall not_a_mutation evs).
Proof.
  intros Hh Hm Hl.
  destruct (listStore_sync_step accountId apiToken high "High Risk Users - New" s kv log Hh)
    as (rh & w1 & evs1 & Hrun1 & Hok1 & Hkv1 & Hlog1 & Hu1 & Hs1 & Hreach1 & Hkeep1 & Hq1).
  destruct w1 as [s1 kv1 log1]. cbn [w_plat w_kv w_log] in *. subst kv1 log1.
  destruct (listStore_sync_step accountId apiToken medium "Medium Risk Users - New" s1 kv
              (log ++ evs1) (Hreach1 _ Hm))
    as (rm & w2 & evs2 & Hrun2 & Hok2 & Hkv2 & Hlog2 & Hu2 & Hs2 & Hreach2 & Hkeep2 & Hq2).
  destruct w2 as [s2 kv2 log2]. cbn [w_plat w_kv w_log] in *. subst kv2 log2.
  destruct (listStore_sync_step accountId apiToken low "Low Risk Users - New" s2 kv
              ((log ++ evs1) ++ evs2) (Hreach2 _ (Hreach1 _ Hl)))
    as (rl & w3 & evs3 & Hrun3 & Hok3 & Hkv3 & Hlog3 & Hu3 & Hs3 & Hreach3 & Hkeep3 & Hq3).
  exists rh, rm, rl, w3, (evs1 ++ evs2 ++ evs3).
  split; [by apply (three_syncs_run _ _ _ _ _ _ _ _ _ _ _ _ Hrun1 Hrun2 Hrun3)|].
  split; [done|]. split; [by rewrite Hlog3, <- !app_assoc|].
  split; [congruence|].
  split; [by apply Hkeep3, Hkeep2|]. split; [by apply Hkeep3|]. split; [done|].
  intros Hsh Hsm Hsl.
  destruct (Hq1 Hsh) as (Ha1 & Hr1 & -> & Hn1).
  destruct (Hq2 Hsm) as (Ha2 & Hr2 & -> & Hn2).
  destruct (Hq3 Hsl) as (Ha3 & Hr3 & Hp3 & Hn3).
  split; [by repeat constructor|]. split; [done|].
  rewrite !Forall_app. done.
Qed.

(** The first steps of a cycle against the simulated store: the fetch of
    the risk records, which reads, and the three snapshot writes. *)
Lemma listStore_cycle_stores accountId apiToken high medium low (s : listStore) kv log :
  ∃ evs,
    Forall not_a_mutation evs ∧
    handleRequest_cycle accountId apiToken high medium low (World s kv log)
    = three_syncs accountId apiToken high medium low
        (World s (tier_snapshots high medium low (take (100 * 50) (ls_users s)) kv)
           (log ++ evs)).
Proof.
  destruct (listStore_fetchAllUserRiskScores_any accountId apiToken (World s kv log))
    as (rf & w0 & evs0 & Hfetch & Hok & Husers & Hplat0 & Hkv0 & Hlog0 & Hall0).
  destruct w0 as [s0 kv0 log0]. cbn [w_plat w_kv w_log] in *. subst s0 kv0 log0.
  exists (evs0 ++ [EvKvPut (kvKey high); EvKvPut (kvKey medium); EvKvPut (kvKey low)]).
  split.
  - apply Forall_app. split; [|by repeat constructor].
    eapply Forall_impl; [exact Hall0|]. apply read_event_not_a_mutation.
  - unfold handleRequest_cycle. rewrite run_bind, Hfetch, Hok, Husers.
    cbn [negb default].
    rewrite run_bind, storeExpectedStateInKV_run. cbn [w_plat w_kv w_log].
    rewrite run_bind, storeExpectedStateInKV_run. cbn [w_plat w_kv w_log].
    rewrite run_bind, storeExpectedStateInKV_run. cbn [w_plat w_kv w_log].
    rewrite <- !app_assoc. reflexivity.
Qed.

(** The snapshot of each of the three lists after the three writes. *)
Lemma tier_snapshots_lookup high medium low users kv listId :
  listId = high ∨ listId = medium ∨ listId = low →
  ∃ level,
    tier_snapshots high medium low users kv !! kvKey listId
    = Some (tier_snapshot level users).
Proof.
  intros Hid. unfold tier_snapshots.
  destruct (decide (listId = low)) as [->|Hl];
    [exists "low"%string; apply lookup_insert_eq|].
  rewrite lookup_insert_ne by (intros Heq%kvKey_inj; congruence).
  destruct (decide (listId = medium)) as [->|Hm];
    [exists "medium"%string; apply lookup_insert_eq|].
  rewrite lookup_insert_ne by (intros Heq%kvKey_inj; congruence).
  destruct Hid as [->|[->| ->]]; [|done..].
  exists "high"%string. apply lookup_insert_eq.
Qed.

(** Writing the same three snapshots again changes nothing. *)
Lemma tier_snapshots_again high medium low users kv :
  tier_snapshots high medium low users (tier_snapshots high medium low users kv)
  = tier_snapshots high medium low users kv.
Proof.
  apply map_eq. intros k. unfold tier_snapshots.
  destruct (decide (k = kvKey low)) as [->|Hl]; [by rewrite !lookup_insert_eq|].
  rewrite !(lookup_insert_ne _ (kvKey low)) by done.
  destruct (decide (k = kvKey medium)) as [->|Hm]; [by rewrite !lookup_insert_eq|].
  rewrite !(lookup_insert_ne _ (kvKey medium)) by done.
  destruct (decide (k = kvKey high)) as [->|Hh]; [by rewrite !lookup_insert_eq|].
  rewrite !(lookup_insert_ne _ (kvKey high)) by done.
  rewrite !(lookup_insert_ne _ (kvKey low)) by done.
  rewrite !(lookup_insert_ne _ (kvKey medium)) by done.
  by rewrite !(lookup_insert_ne _ (kvKey high)) by done.
Qed.

Lemma length_tier_snapshot level users :
  length (emails (kv_value (tier_snapshot level users))) ≤ length users.
Proof.
  cbn. unfold expectedEmailsOf. rewrite length_fmap. apply length_usersAtLevel.
Qed.

(** Two cycles in succession over the same risk records, on three lists
    of at most 50 pages of 100 items that hold no value twice. *)
Lemma handleRequest_cycle_again accountId apiToken high medium low (s : listStore) kv log
    ih im il :
  ls_lists s !! high = Some ih → ls_lists s !! medium = Some im →
  ls_lists s !! low = Some il →
  NoDup (value <$> ih) → NoDup (value <$> im) → NoDup (value <$> il) →
  length ih ≤ 50 * 100 → length im ≤ 50 * 100 → length il ≤ 50 * 100 →
  ∃ r1 w1 rh rm rl w2 evs,
    handleRequest_cycle accountId apiToken high medium low (World s kv log)
    = (Returned (Some r1), w1) ∧
    handleRequest_cycle accountId apiToken high medium low w1
    = (Returned (Some (rh, rm, rl)), w2) ∧
    Forall (λ r, sync_success r = true ∧ sync_added r = Some 0 ∧ sync_removed r = Some 0)
      [rh; rm; rl] ∧
    w_plat w2 = w_plat w1 ∧ w_log w2 = w_log w1 ++ evs ∧ Forall not_a_mutation evs.
Proof.
  intros Hh Hm Hl Hnh Hnm Hnl Hlh Hlm Hll.
  set (users := take (100 * 50) (ls_users s)).
  set (kv3 := tier_snapshots high medium low users kv).
  assert (length users ≤ 50 * 100) as Hlu.
  { unfold users. rewrite length_take. lia. }
  assert (∀ x items, x = high ∨ x = medium ∨ x = low →
            ls_lists s !! x = Some items → NoDup (value <$> items) →
            length items ≤ 50 * 100 → in_reach kv3 s x) as Hreach.
  { intros x items Hx Hlx Hnd Hlen.
    destruct (tier_snapshots_lookup high medium low users kv x Hx) as [level Hkv].
    eexists items, _, None. split_and!; [done|done|exact Hkv|]. left. split; [done|].
    etransitivity; [apply (length_tier_snapshot level users)|done]. }
  (* the first cycle *)
  destruct (listStore_cycle_stores accountId apiToken high medium low s kv log)
    as (evs0 & _ & Hcycle1).
  destruct (listStore_three_syncs accountId apiToken high medium low s kv3 (log ++ evs0))
    as (rh1 & rm1 & rl1 & w1 & evs1 & Hrun1 & Hkv1 & _ & Hu1 & Hsh & Hsm & Hsl & _);
    [by eapply Hreach; eauto..|].
  fold users kv3 in Hcycle1. rewrite Hrun1 in Hcycle1.
  (* the second cycle *)
  destruct w1 as [s1 kv1 log1]. cbn [w_plat w_kv w_log] in *. subst kv1.
  destruct (listStore_cycle_stores accountId apiToken high medium low s1 kv3 log1)
    as (evs2 & Hall2 & Hcycle2).
  rewrite Hu1 in Hcycle2. fold users in Hcycle2. unfold kv3 in Hcycle2 at 2.
  rewrite tier_snapshots_again in Hcycle2. fold kv3 in Hcycle2.
  destruct (listStore_three_syncs accountId apiToken high medium low s1 kv3 (log1 ++ evs2))
    as (rh & rm & rl & w2 & evs3 & Hrun2 & _ & Hlog2 & _ & _ & _ & _ & Hquiet);
    [by apply settled_in_reach..|].
  rewrite Hrun2 in Hcycle2.
  destruct (Hquiet Hsh Hsm Hsl) as (Hzero & Hplat & Hall3).
  exists (rh1, rm1, rl1), (World s1 kv3 log1), rh, rm, rl, w2, (evs2 ++ evs3).
  cbn [w_plat w_log]. split_and!; [done|done|done|done|by rewrite Hlog2, app_assoc|].
  by apply Forall_app.
Qed.

(** C2.  When the items fetched from the list have exactly the expected
    emails as values, [syncGatewayListFromKV] returns success with 0 added
    and 0 removed, and what it did is the read of the key-value store and
    the list fetch: no PATCH, no write.  Consequently, against the
    simulated store, when each of the three lists holds at most 50 pages
    of 100 items and no value twice, running the whole cycle twice over
    the same risk records gives 0 added and 0 removed on the second run
    for each of the three lists; the second run sends no request other
    than GET and leaves the store as the first run left it. *)
Theorem syncGatewayListFromKV_idempotent :
  (∀ (Pl : Type) (platform : Platform Pl) accountId apiToken listId listName
     (w : world Pl) expected ttl fr w1,
     w_kv w !! kvKey listId = Some (KvEntry expected ttl) →
     fetched_by_sync accountId apiToken listId w = (Returned fr, w1) →
     truthy_opt (lf_error fr) = false →
     (list_to_set (value <$> lf_items fr) : gset string)
     = list_to_set (emails expected) →
     ∃ r evs,
       syncGatewayListFromKV accountId apiToken listId listName w = (Returned r, w1) ∧
       sync_success r = true ∧ sync_added r = Some 0 ∧ sync_removed r = Some 0 ∧
       w_kv w1 = w_kv w ∧ w_log w1 = w_log w ++ evs ∧ Forall read_event evs) ∧
  (∀ accountId apiToken high medium low (s : listStore) kv log ih im il,
     ls_lists s !! high = Some ih → ls_lists s !! medium = Some im →
     ls_lists s !! low = Some il →
     NoDup (value <$> ih) → NoDup (value <$> im) → NoDup (value <$> il) →
     length ih ≤ 50 * 100 → length im ≤ 50 * 100 → length il ≤ 50 * 100 →
     ∃ r1 w1 rh rm rl w2 evs,
       handleRequest_cycle accountId apiToken high medium low (World s kv log)
       = (Returned (Some r1), w1) ∧
       handleRequest_cycle accountId apiToken high medium low w1
       = (Returned (Some (rh, rm, rl)), w2) ∧
       Forall (λ r, sync_success r = true ∧ sync_added r = Some 0 ∧ sync_removed r = Some 0)
         [rh; rm; rl] ∧
       w_plat w2 = w_plat w1 ∧ w_log w2 = w_log w1 ++ evs ∧ Forall not_a_mutation evs).
Proof.
  split.
  - intros Pl platform accountId apiToken listId listName w expected ttl fr w1
      Hkv Hfetch Herr Hsame.
    destruct (fetched_by_sync_frame accountId apiToken listId w) as (Hkv1 & evs & Hlog & Hall).
    rewrite Hfetch in Hkv1, Hlog. cbn [snd] in Hkv1, Hlog.
    exists (in_sync_result expected), evs. split_and!; try done.
    apply (syncGatewayListFromKV_in_sync _ _ _ _ _ _ _ _ _ Hkv Hfetch Herr).
    intros x.
    rewrite <- (elem_of_list_to_set (C := gset string) x (value <$> lf_items fr)).
    by rewrite Hsame, elem_of_list_to_set.
  - apply handleRequest_cycle_again.
Qed.

Lemma syncGatewayListFromKV_idempotent_witness :
  (let w : world constantEndpoint :=
     World (ConstantEndpoint (items_page [item "a@x.com"] 1 1))
       {[ kvKey list_m := snapshot ["a@x.com"] "medium" ]} [] in
   ∃ r evs,
     syncGatewayListFromKV acct token list_m "Medium Risk Users - New" w
     = (Returned r, (fetched_by_sync acct token list_m w).2) ∧
     sync_success r = true ∧ sync_added r = Some 0 ∧ sync_removed r = Some 0 ∧
     w_kv (fetched_by_sync acct token list_m w).2 = w_kv w ∧
     w_log (fetched_by_sync acct token list_m w).2 = w_log w ++ evs ∧
     Forall read_event evs) ∧
  (∃ r1 w1 rh rm rl w2 evs,
     handleRequest_cycle acct token list_h list_m list_l (fresh_world two_tier_store)
     = (Returned (Some r1), w1) ∧
     handleRequest_cycle acct token list_h list_m list_l w1
     = (Returned (Some (rh, rm, rl)), w2) ∧
     Forall (λ r, sync_success r = true ∧ sync_added r = Some 0 ∧ sync_removed r = Some 0)
       [rh; rm; rl] ∧
     w_plat w2 = w_plat w1 ∧ w_log w2 = w_log w1 ++ evs ∧ Forall not_a_mutation evs).
Proof.
  destruct syncGatewayListFromKV_idempotent as (Honce & Hcycles). split.
  - intros w.
    apply (Honce constantEndpoint _ acct token list_m "Medium Risk Users - New"%string
             w (kv_value (snapshot ["a@x.com"] "medium")) None
             (ListFetch None list_m [item "a@x.com"] (Some (Pagination 1 1 1)) None None)).
    + apply lookup_singleton_eq.
    + vm_compute. reflexivity.
    + reflexivity.
    + reflexivity.
  - apply (Hcycles acct token list_h list_m list_l two_tier_store ∅ []
             [] [item "b@x.com"; item "c@x.com"] [item "a@x.com"]).
    + vm_compute. reflexivity.
    + vm_compute. reflexivity.
    + vm_compute. reflexivity.
    + apply NoDup_nil_2.
    + cbn. apply NoDup_cons. split; [|apply NoDup_singleton].
      intros Hin%list_elem_of_singleton. discriminate Hin.
    + apply NoDup_singleton.
    + cbn. lia.
    + cbn. lia.
    + cbn. lia.
Defined.

(** The first cycle over [two_tier_store]: [a] is added to the high list
    and removed from the low list, [c] is removed from the medium list. *)
Example handleRequest_cycle_example :
  (handleRequest_cycle acct token list_h list_m list_l (fresh_world two_tier_store)).1
  = Returned
      (Some (patched_result (kv_value (snapshot ["a@x.com"%string] "high"))
               ["a@x.com"%string] [],
             patched_result (kv_value (snapshot ["b@x.com"%string] "medium"))
               [] ["c@x.com"%string],
             patched_result (kv_value (snapshot [] "low")) [] ["a@x.com"%string])).
Proof. vm_compute. reflexivity. Qed.

(** ** The consistency check *)

Section ConsistencyCheck.
Context {Pl : Type} `{!Platform Pl}.

Lemma while_no_return {S R} fuel cond (body : S → M Pl (ctl S R)) s w r w' :
  (∀ s w r w', body s w ≠ (Returned (Return r), w')) →
  while_ fuel cond body s w ≠ (Returned (inr r), w').
Proof.
  intros Hbody. revert s w. induction fuel as [|fuel IH]; intros s w;
    rewrite while_unfold; destruct (cond s); try done.
  rewrite run_bind. specialize (Hbody s w).
  destruct (body s w) as [[[s1|s1|r1]|e|] w1]; [apply IH| | |done..].
  - run_step. done.
  - by destruct (Hbody r1 w1).
Qed.

(** ** Lists beyond the reach of the fetcher *)

(** Of a list without a repeated value, the items whose value is not
    among those of the items before the last: the last one. *)
Lemma filter_all_but_last (items : list listItem) (x : listItem) :
  NoDup (value <$> items ++ [x]) →
  filter (λ it, value it ∉ value <$> items) (items ++ [x]) = [x].
Proof.
  intros Hnd. rewrite filter_app.
  rewrite (filter_none (λ it, value it ∉ value <$> items) items).
  - rewrite filter_cons, decide_True; [done|].
    rewrite fmap_app in Hnd. apply NoDup_app in Hnd as (_ & Hdis & _).
    intros Hin. apply (Hdis _ Hin). cbn. left.
  - intros it Hit Hnot. apply Hnot. by apply list_elem_of_fmap_2.
Qed.

(** The sync of an empty list whose snapshot is empty does nothing to the
    store. *)
Lemma listStore_sync_nothing accountId apiToken listId listName (s : listStore) kv log
    expected ttl :
  ls_lists s !! listId = Some [] →
  kv !! kvKey listId = Some (KvEntry expected ttl) → emails expected = [] →
  ∃ r evs,
    syncGatewayListFromKV accountId apiToken listId listName (World s kv log)
    = (Returned r, World s kv (log ++ evs)) ∧
    sync_removed r = Some 0.
Proof.
  intros Hl Hkv He.
  assert (settled kv s listId) as Hsettled.
  { exists [], expected, ttl. split_and!; [done|cbn; lia|done|]. by rewrite He. }
  destruct (listStore_sync_step accountId apiToken listId listName s kv log
              (settled_in_reach _ _ _ Hsettled))
    as (r & w' & evs & Hrun & _ & Hkv' & Hlog & _ & _ & _ & _ & Hquiet).
  destruct (Hquiet Hsettled) as (_ & Hr & Hplat & _).
  exists r, evs. split; [|done]. rewrite Hrun. destruct w'; cbn in *. by subst.
Qed.

(** The sync of a list of 5001 items whose snapshot is empty: the first
    5000 values are removed, and the last item stays. *)
Lemma listStore_sync_overlong accountId apiToken listId listName (s : listStore) kv log
    expected ttl items x :
  ls_lists s !! listId = Some (items ++ [x]) →
  length items = 50 * 100 → NoDup (value <$> items ++ [x]) →
  kv !! kvKey listId = Some (KvEntry expected ttl) → emails expected = [] →
  ∃ r w' log1,
    syncGatewayListFromKV accountId apiToken listId listName (World s kv log)
    = (Returned r, w') ∧
    sync_success r = true ∧ sync_removed r = Some (50 * 100) ∧
    w_kv w' = kv ∧ ls_users (w_plat w') = ls_users s ∧
    (∀ other, other ≠ listId → ls_lists (w_plat w') !! other = ls_lists s !! other) ∧
    w_log w' = log1 ++
      [EvFetch (GatewayListUrl accountId listId)
         (patch_options apiToken (PatchBody None (Some (value <$> items))))] ∧
    ls_lists (w_plat w') !! listId = Some [x].
Proof.
  intros Hl Hlen Hnd Hkv He.
  pose proof (listStore_sync_any accountId apiToken listId listName s kv log expected ttl
                (items ++ [x]) Hl Hkv) as Hsync.
  cbv zeta in Hsync. rewrite He in Hsync.
  rewrite (take_app_length' items [x]) in Hsync by done.
  assert (NoDup (value <$> items)) as Hnd'.
  { rewrite fmap_app in Hnd. by apply NoDup_app in Hnd as (? & _). }
  rewrite (newSet_NoDup (value <$> items)) in Hsync by done.
  rewrite emailsToRemove_nil in Hsync.
  assert (emailsToAdd (newSet []) (value <$> items) = []) as Ha by reflexivity.
  rewrite Ha in Hsync.
  assert (length (value <$> items) = 50 * 100) as Hlenv by (by rewrite length_fmap).
  unfold patchBody in Hsync. rewrite Hlenv in Hsync.
  assert (((0 <? length (@nil string)) || (0 <? 50 * 100)) = true) as Hc by reflexivity.
  rewrite Hc in Hsync.
  assert ((0 <? length (@nil string)) = false) as Hc0 by reflexivity.
  assert ((0 <? 50 * 100) = true) as Hc1 by reflexivity.
  rewrite Hc0, Hc1 in Hsync.
  destruct Hsync as (r & w' & evs & Hrun & Hkv' & _ & Husers & Hother & -> & append
                     & remove & log1 & [= <- <-] & Hlog & Hl').
  exists (patched_result expected [] (value <$> items)), w', log1. split; [exact Hrun|].
  cbn [patched_result sync_success sync_removed]. rewrite Hlenv.
  split_and!; [done..|].
  rewrite Hl'. unfold applyPatch. cbn [default]. rewrite app_nil_r.
  f_equal. by apply filter_all_but_last.
Qed.

(** The sync of a list of one item whose snapshot is empty removes it. *)
Lemma listStore_sync_last accountId apiToken listId listName (s : listStore) kv log
    expected ttl it :
  ls_lists s !! listId = Some [it] →
  kv !! kvKey listId = Some (KvEntry expected ttl) → emails expected = [] →
  ∃ r w',
    syncGatewayListFromKV accountId apiToken listId listName (World s kv log)
    = (Returned r, w') ∧
    sync_success r = true ∧ sync_added r = Some 0 ∧ sync_removed r = Some 1 ∧
    w_kv w' = kv ∧ ls_users (w_plat w') = ls_users s ∧
    (∀ other, other ≠ listId → ls_lists (w_plat w') !! other = ls_lists s !! other).
Proof.
  intros Hl Hkv He.
  destruct (listStore_sync accountId apiToken listId listName s kv log expected ttl [it] Hl)
    as (r & w' & _ & _ & _ & _ & _ & Hrun & Hr & Hkv' & _ & Hu & Hother & _);
    [cbn; lia|done|].
  rewrite He, emailsToRemove_nil in Hr.
  change (value <$> [it]) with [value it] in Hr.
  rewrite (newSet_NoDup [value it]) in Hr by apply NoDup_singleton.
  cbn in Hr. exists r, w'. by subst r.
Qed.

Lemma crowded_store_lists :
  ls_lists crowded_store !! list_h = Some [] ∧
  ls_lists crowded_store !! list_m = Some (many_items (S (50 * 100))) ∧
  ls_lists crowded_store !! list_l = Some [].
Proof.
  unfold crowded_store. cbn [ls_lists]. split_and!.
  - apply lookup_insert_eq.
  - rewrite lookup_insert_ne by discriminate. apply lookup_insert_eq.
  - rewrite !lookup_insert_ne by discriminate. apply lookup_singleton_eq.
Qed.

(** The snapshots of the three lists of the examples after the three
    writes. *)
Lemma tier_snapshots_of_examples users kv :
  tier_snapshots list_h list_m list_l users kv !! kvKey list_h
  = Some (tier_snapshot "high" users) ∧
  tier_snapshots list_h list_m list_l users kv !! kvKey list_m
  = Some (tier_snapshot "medium" users) ∧
  tier_snapshots list_h list_m list_l users kv !! kvKey list_l
  = Some (tier_snapshot "low" users).
Proof.
  unfold tier_snapshots. split_and!.
  - rewrite !lookup_insert_ne by discriminate. apply lookup_insert_eq.
  - rewrite lookup_insert_ne by discriminate. apply lookup_insert_eq.
  - apply lookup_insert_eq.
Qed.

Lemma newSet_replicate n a : 0 < n → newSet (replicate n a) = [a].
Proof.
  assert (∀ k, foldl Set_add [a] (replicate k a) = [a]) as Hgen.
  { induction k as [|k IH]; [done|]. cbn [replicate foldl]. unfold Set_add at 2.
    replace (Set_has [a] a) with true; [done|].
    symmetry. apply Set_has_true. left. }
  intros Hn. destruct n as [|n]; [lia|]. unfold newSet. cbn [replicate foldl].
  unfold Set_add at 2. replace (Set_has [] a) with false; [apply Hgen|].
  symmetry. apply Set_has_false, not_elem_of_nil.
Qed.

Lemma repeated_store_lists :
  ls_lists repeated_store !! list_h = Some [] ∧
  ls_lists repeated_store !! list_m = Some (replicate (50 * 100) (item "a@x.com")) ∧
  ls_lists repeated_store !! list_l = Some [].
Proof.
  unfold repeated_store. cbn [ls_lists]. split_and!.
  - apply lookup_insert_eq.
  - rewrite lookup_insert_ne by discriminate. apply lookup_insert_eq.
  - rewrite !lookup_insert_ne by discriminate. apply lookup_singleton_eq.
Qed.

(** C7 as stated fails beyond the reach of [fetchGatewayListItems].  The
    medium list of [crowded_store] holds 5001 items, all different, and
    its snapshot is empty: [syncGatewayListFromKV] reports success with
    5000 removed, the patch it sends removes the values of the first 5000
    items only, and the list keeps its last item. *)
Lemma empties_list_beyond_reach_counterexample :
  emails (kv_value (snapshot [] "medium")) = [] ∧
  length (many_items (S (50 * 100))) = S (50 * 100) ∧
  NoDup (value <$> many_items (S (50 * 100))) ∧
  ∃ r w' log1,
    syncGatewayListFromKV acct token list_m "Medium Risk Users - New"
      (World crowded_store {[ kvKey list_m := snapshot [] "medium" ]} [])
    = (Returned r, w') ∧
    sync_success r = true ∧ sync_removed r = Some (50 * 100) ∧
    w_log w' = log1 ++
      [EvFetch (GatewayListUrl acct list_m)
         (patch_options token
            (PatchBody None (Some (value <$> many_items (50 * 100)))))] ∧
    ls_lists (w_plat w') !! list_m = Some [numbered (50 * 100)].
Proof.
  split; [reflexivity|]. split; [apply length_many_items|].
  split; [apply NoDup_many_items|].
  destruct crowded_store_lists as (_ & Hm & _).
  destruct (listStore_sync_overlong acct token list_m "Medium Risk Users - New"
              crowded_store {[ kvKey list_m := snapshot [] "medium" ]} []
              (kv_value (snapshot [] "medium")) None
              (many_items (50 * 100)) (numbered (50 * 100)))
    as (r & w' & log1 & Hrun & Hok & Hrem & _ & _ & _ & Hlog & Hl).
  - rewrite <- many_items_S. exact Hm.
  - apply length_many_items.
  - rewrite <- many_items_S. apply NoDup_many_items.
  - apply lookup_singleton_eq.
  - reflexivity.
  - exists r, w', log1. split; [exact Hrun|]. split; [exact Hok|].
    split; [exact Hrem|]. split; [exact Hlog|exact Hl].
Qed.

(** C2 as stated fails beyond the reach of [fetchGatewayListItems].  The
    risk source of [crowded_store] has no record and does not change; the
    medium list holds 5001 items, all different.  The first cycle removes
    5000 of them, and the second cycle, run on what the first left,
    removes one more. *)
Lemma second_run_beyond_reach_counterexample :
  ∃ rh1 rm1 rl1 w1 rh rm rl w2,
    handleRequest_cycle acct token list_h list_m list_l (fresh_world crowded_store)
    = (Returned (Some (rh1, rm1, rl1)), w1) ∧
    sync_removed rm1 = Some (50 * 100) ∧
    ls_users (w_plat w1) = ls_users crowded_store ∧
    handleRequest_cycle acct token list_h list_m list_l w1
    = (Returned (Some (rh, rm, rl)), w2) ∧
    sync_success rm = true ∧ sync_added rm = Some 0 ∧ sync_removed rm = Some 1.
Proof.
  destruct crowded_store_lists as (Hh & Hm & Hl).
  destruct (tier_snapshots_of_examples [] ∅) as (Hkh & Hkm & Hkl).
  set (kv3 := tier_snapshots list_h list_m list_l [] ∅) in *.
  (* the first cycle *)
  destruct (listStore_cycle_stores acct token list_h list_m list_l crowded_store ∅ [])
    as (evs0 & _ & Hc1).
  change (ls_users crowded_store) with (@nil riskUser) in Hc1.
  rewrite take_nil in Hc1. fold kv3 in Hc1.
  destruct (listStore_sync_nothing acct token list_h "High Risk Users - New"
              crowded_store kv3 ([] ++ evs0)
              (kv_value (tier_snapshot "high" [])) None Hh Hkh eq_refl)
    as (rh1 & e1 & Hr1 & _).
  destruct (listStore_sync_overlong acct token list_m "Medium Risk Users - New"
              crowded_store kv3 (([] ++ evs0) ++ e1)
              (kv_value (tier_snapshot "medium" [])) None
              (many_items (50 * 100)) (numbered (50 * 100)))
    as (rm1 & w2 & log2 & Hr2 & _ & Hrem1 & Hkv2 & Hu2 & Ho2 & _ & Hl2);
    [rewrite <- many_items_S; exact Hm|apply length_many_items
    |rewrite <- many_items_S; apply NoDup_many_items|exact Hkm|reflexivity|].
  destruct w2 as [s2 kv2 l2]. cbn [w_plat w_kv w_log] in *. subst kv2.
  destruct (listStore_sync_nothing acct token list_l "Low Risk Users - New"
              s2 kv3 l2 (kv_value (tier_snapshot "low" [])) None) as (rl1 & e3 & Hr3 & _);
    [rewrite Ho2 by discriminate; exact Hl|exact Hkl|reflexivity|].
  rewrite (three_syncs_run _ _ _ _ _ _ _ _ _ _ _ _ Hr1 Hr2 Hr3) in Hc1.
  (* the second cycle *)
  destruct (listStore_cycle_stores acct token list_h list_m list_l s2 kv3 (l2 ++ e3))
    as (evs4 & _ & Hc2).
  rewrite Hu2 in Hc2. change (ls_users crowded_store) with (@nil riskUser) in Hc2.
  rewrite take_nil in Hc2. unfold kv3 in Hc2. rewrite tier_snapshots_again in Hc2.
  fold kv3 in Hc2.
  destruct (listStore_sync_nothing acct token list_h "High Risk Users - New"
              s2 kv3 ((l2 ++ e3) ++ evs4) (kv_value (tier_snapshot "high" [])) None)
    as (rh & e5 & Hr5 & _);
    [rewrite Ho2 by discriminate; exact Hh|exact Hkh|reflexivity|].
  destruct (listStore_sync_last acct token list_m "Medium Risk Users - New"
              s2 kv3 (((l2 ++ e3) ++ evs4) ++ e5)
              (kv_value (tier_snapshot "medium" [])) None (numbered (50 * 100)))
    as (rm & w6 & Hr6 & Hok & Hadd & Hrem & Hkv6 & _ & Ho6);
    [exact Hl2|exact Hkm|reflexivity|].
  destruct w6 as [s6 kv6 l6]. cbn [w_plat w_kv w_log] in *. subst kv6.
  destruct (listStore_sync_nothing acct token list_l "Low Risk Users - New"
              s6 kv3 l6 (kv_value (tier_snapshot "low" [])) None) as (rl & e7 & Hr7 & _);
    [rewrite Ho6, Ho2 by discriminate; exact Hl|exact Hkl|reflexivity|].
  rewrite (three_syncs_run _ _ _ _ _ _ _ _ _ _ _ _ Hr5 Hr6 Hr7) in Hc2.
  exists rh1, rm1, rl1, (World s2 kv3 (l2 ++ e3)), rh, rm, rl, (World s6 kv3 (l6 ++ e7)).
  cbn [w_plat]. split; [exact Hc1|]. split; [exact Hrem1|]. split; [exact Hu2|].
  split; [exact Hc2|]. split; [exact Hok|]. split; [exact Hadd|exact Hrem].
Qed.

(** Why the lists are to hold no value twice.  The medium list of
    [repeated_store] holds [a@x.com] 5000 times and the medium tier is
    [a@x.com] and [b@x.com]: the first cycle adds [b@x.com] as item 5001,
    out of the reach of the fetch, and the second cycle adds it again. *)
Example handleRequest_cycle_repeated_value_example :
  ∃ rh1 rm1 rl1 w1 rh rm rl w2,
    handleRequest_cycle acct token list_h list_m list_l (fresh_world repeated_store)
    = (Returned (Some (rh1, rm1, rl1)), w1) ∧
    ls_users (w_plat w1) = ls_users repeated_store ∧
    handleRequest_cycle acct token list_h list_m list_l w1
    = (Returned (Some (rh, rm, rl)), w2) ∧
    sync_success rm = true ∧ sync_added rm = Some 1.
Proof.
  destruct repeated_store_lists as (Hh & Hm & Hl).
  set (users := ls_users repeated_store).
  destruct (tier_snapshots_of_examples users ∅) as (Hkh & Hkm & Hkl).
  set (kv3 := tier_snapshots list_h list_m list_l users ∅) in *.
  set (E := kv_value (tier_snapshot "medium" users)).
  assert (newSet (value <$> replicate (50 * 100) (item "a@x.com")) = ["a@x.com"%string])
    as Hset.
  { rewrite fmap_replicate. apply newSet_replicate. lia. }
  assert (emailsToAdd (newSet (emails E)) ["a@x.com"%string] = ["b@x.com"%string]) as Hadd
    by (vm_compute; reflexivity).
  assert (emailsToRemove (newSet (emails E)) ["a@x.com"%string] = []) as Hrem
    by (vm_compute; reflexivity).
  (* the first cycle *)
  destruct (listStore_cycle_stores acct token list_h list_m list_l repeated_store ∅ [])
    as (evs0 & _ & Hc1).
  fold users in Hc1. rewrite (take_ge users) in Hc1 by (cbn; lia). fold kv3 in Hc1.
  destruct (listStore_sync_nothing acct token list_h "High Risk Users - New"
              repeated_store kv3 ([] ++ evs0)
              (kv_value (tier_snapshot "high" users)) None Hh Hkh eq_refl)
    as (rh1 & e1 & Hr1 & _).
  destruct (listStore_sync_log acct token list_m "Medium Risk Users - New"
              repeated_store kv3 (([] ++ evs0) ++ e1) E None
              (replicate (50 * 100) (item "a@x.com")) Hm)
    as (rm1 & w2 & items' & evs2 & Hr2 & Hsynced & Hkv2 & Hu2 & Ho2 & Hl2 & _);
    [by rewrite length_replicate|exact Hkm|].
  destruct Hsynced as (_ & _ & _ & Hv').
  rewrite Hset, Hadd, Hrem in Hv'.
  rewrite (filter_all (λ v, v ∉ []) _) in Hv' by (intros v _; apply not_elem_of_nil).
  destruct w2 as [s2 kv2 l2]. cbn [w_plat w_kv w_log] in *. subst kv2.
  destruct (listStore_sync_nothing acct token list_l "Low Risk Users - New"
              s2 kv3 l2 (kv_value (tier_snapshot "low" users)) None) as (rl1 & e3 & Hr3 & _);
    [rewrite Ho2 by discriminate; exact Hl|exact Hkl|reflexivity|].
  rewrite (three_syncs_run _ _ _ _ _ _ _ _ _ _ _ _ Hr1 Hr2 Hr3) in Hc1.
  (* the second cycle *)
  destruct (listStore_cycle_stores acct token list_h list_m list_l s2 kv3 (l2 ++ e3))
    as (evs4 & _ & Hc2).
  rewrite Hu2 in Hc2. fold users in Hc2. rewrite (take_ge users) in Hc2 by (cbn; lia).
  unfold kv3 in Hc2. rewrite tier_snapshots_again in Hc2. fold kv3 in Hc2.
  destruct (listStore_sync_nothing acct token list_h "High Risk Users - New"
              s2 kv3 ((l2 ++ e3) ++ evs4) (kv_value (tier_snapshot "high" users)) None)
    as (rh & e5 & Hr5 & _);
    [rewrite Ho2 by discriminate; exact Hh|exact Hkh|reflexivity|].
  pose proof (listStore_sync_any acct token list_m "Medium Risk Users - New"
                s2 kv3 (((l2 ++ e3) ++ evs4) ++ e5) E None items' Hl2 Hkm) as Hsync.
  cbv zeta in Hsync. rewrite fmap_take, Hv' in Hsync.
  rewrite take_app_length' in Hsync by (by rewrite length_fmap, length_replicate).
  rewrite Hset, Hadd, Hrem in Hsync.
  change ((0 <? length ["b@x.com"%string]) || (0 <? length (@nil string))) with true
    in Hsync.
  destruct Hsync as (rm & w6 & evs6 & Hr6 & Hkv6 & Hlog6 & _ & Ho6 & -> & _).
  destruct w6 as [s6 kv6 l6]. cbn [w_plat w_kv w_log] in *. subst kv6.
  destruct (listStore_sync_nothing acct token list_l "Low Risk Users - New"
              s6 kv3 l6 (kv_value (tier_snapshot "low" users)) None) as (rl & e7 & Hr7 & _);
    [rewrite Ho6, Ho2 by discriminate; exact Hl|exact Hkl|reflexivity|].
  rewrite (three_syncs_run _ _ _ _ _ _ _ _ _ _ _ _ Hr5 Hr6 Hr7) in Hc2.
  eexists rh1, rm1, rl1, (World s2 kv3 (l2 ++ e3)), rh, _, rl, (World s6 kv3 (l6 ++ e7)).
  cbn [w_plat]. split; [exact Hc1|]. split; [exact Hu2|].
  split; [exact Hc2|]. split; reflexivity.
Qed.

Lemma fetchGatewayListItems_body_no_return accountId apiToken listId st (w : world Pl) r w' :
  fetchGatewayListItems_body accountId apiToken listId st w ≠ (Returned (Return r), w').
Proof.
  unfold fetchGatewayListItems_body. rewrite run_bind.
  destruct (makeApiRequest _ _ _ w) as [[resp|e|] w1]; [|done..].
  rewrite run_bind, run_response_json.
  destruct resp as [resp|]; [destruct (json_body resp) as [data|]|]; [|done..].
  destruct (data_success data); cbn [negb]; [|done].
  rewrite run_bind, run_items_of.
  destruct (data_result data); try done;
    destruct (hasMore_of data); run_step; done.
Qed.

(** Whatever [fetchGatewayListItems] returns has no [success] member. *)
Lemma fetchGatewayListItems_success_undefined accountId apiToken listId riskLevel
    (w : world Pl) r w' :
  fetchGatewayListItems accountId apiToken listId riskLevel w = (Returned r, w') →
  lf_success r = None.
Proof.
  unfold fetchGatewayListItems. rewrite run_try_catch, run_bind.
  pose proof (λ r0 w0, while_no_return 50
                (λ st, st_hasMore st && (st_totalRequests st <? 50))
                (fetchGatewayListItems_body accountId apiToken listId)
                (PageLoop [] 1 true 0) w r0 w0
                (fetchGatewayListItems_body_no_return accountId apiToken listId)) as Hno.
  destruct (while_ _ _ _ _ w) as [[[st|early]|e|] w1].
  - run_step. by intros [= <- _].
  - by destruct (Hno early w1).
  - run_step. by intros [= <- _].
  - done.
Qed.

(** Since the [success] member is never there, the loop of the
    consistency check takes its [continue] for every list: it returns the
    results it was given. *)
Lemma handleReconciliation_loop_run accountId apiToken listIds results (w : world Pl) :
  ∃ w', handleReconciliation_loop accountId apiToken listIds results w
        = (Returned results, w').
Proof.
  revert w. induction listIds as [|[id name] rest IH]; intros w;
    cbn [handleReconciliation_loop]; [by eexists|].
  rewrite run_bind. unfold kv_get at 1. cbn [fst snd].
  destruct (kv_value <$> w_kv w !! kvKey id) as [expectedState|]; [|apply IH].
  rewrite run_bind.
  destruct (fetchGatewayListItems_returns accountId apiToken id None
              (log_event (EvKvGet (kvKey id)) w)) as [r Hr].
  destruct (fetchGatewayListItems accountId apiToken id None
              (log_event (EvKvGet (kvKey id)) w)) as [o w1] eqn:Hfetch.
  cbn [fst] in Hr. subst o.
  rewrite (fetchGatewayListItems_success_undefined _ _ _ _ _ _ _ Hfetch).
  cbn [truthy_bool default negb]. apply IH.
Qed.

Lemma handleReconciliation_run accountId apiToken high medium low (w : world Pl) :
  ∃ w', handleReconciliation accountId apiToken high medium low w
        = (Returned (ReconOk (plat_now (w_plat w')) []), w').
Proof.
  unfold handleReconciliation. rewrite run_try_catch, run_bind.
  destruct (handleReconciliation_loop_run accountId apiToken
              [(high, "high"%string); (medium, "medium"%string); (low, "low"%string)]
              [] w) as [w' ->].
  exists w'. reflexivity.
Qed.

Lemma remote_preorder {X} (remote : Pl → X) :
  PreOrder (λ n n', remote n' = remote n).
Proof. split; [done|]. intros n1 n2 n3 H1 H2. by rewrite H2. Qed.

(** C9.  The consistency check always returns a response, and whatever it
    finds, all it does is read: the key-value namespace is unchanged, the
    events performed are [get]s of the namespace, GET requests and
    timers, and anything of the remote state that GET requests and timers
    do not change is unchanged. *)
Theorem handleReconciliation_read_only {X : Type} (remote : Pl → X)
    accountId apiToken high medium low (w : world Pl) :
  (∀ n url options, opt_method options = GET →
                    remote (plat_fetch n url options).2 = remote n) →
  (∀ n t, remote (plat_sleep n t) = remote n) →
  ∃ resp w' evs,
    handleReconciliation accountId apiToken high medium low w = (Returned resp, w') ∧
    w_kv w' = w_kv w ∧ remote (w_plat w') = remote (w_plat w) ∧
    w_log w' = w_log w ++ evs ∧ Forall read_event evs.
Proof.
  intros Hget Hsleep.
  destruct (handleReconciliation_run accountId apiToken high medium low w) as [w' Hrun].
  pose proof (keeps_handleReconciliation (λ n n', remote n' = remote n)
                (PreOrder0 := remote_preorder remote) Hget Hsleep
                accountId apiToken high medium low w) as Hframe.
  rewrite Hrun in Hframe. destruct Hframe as ((evs & Hlog & Hall) & Hplat & Hkv).
  cbn [snd] in *. eexists _, w', evs. split; [exact Hrun|]. done.
Qed.


Lemma frame_bind {A B} (R : relation (world Pl)) `{!PreOrder R}
    (m : M Pl A) (f : A → M Pl B) w :
  R w (m w).2 → (∀ a w', m w = (Returned a, w') → R w' (f a w').2) →
  R w ((m ≫= f) w).2.
Proof.
  intros Hm Hf. rewrite run_bind. destruct (m w) as [[a|e|] w1]; cbn [snd] in *; [|done..].
  etransitivity; [exact Hm|]. by apply Hf.
Qed.

(** The full-replace path stops after its first list fetch, for the same
    reason as the consistency check: it only reads. *)
Lemma updateGatewayList_only_reads accountId apiToken listId users (w : world Pl) :
  w_kv (updateGatewayList accountId apiToken listId users w).2 = w_kv w ∧
  ∃ evs,
    w_log (updateGatewayList accountId apiToken listId users w).2 = w_log w ++ evs ∧
    Forall read_event evs.
Proof.
  pose proof (@always_preorder Pl) as Hpre.
  assert (frame read_event (λ _ _, True) eq w
            (updateGatewayList accountId apiToken listId users w).2)
    as ((evs & Hlog & Hall) & _ & Hkv); [|split; [by rewrite <- Hkv|by exists evs]].
  unfold updateGatewayList. rewrite run_try_catch.
  match goal with |- context [match ?m w with _ => _ end] =>
    assert (frame read_event (λ _ _ : Pl, True) eq w (m w).2) as Hbody;
      [|by destruct (m w) as [[?|?|] ?]] end.
  apply frame_bind; [apply _|by apply (keeps_kv_get read_event (λ _ _ : Pl, True) eq)|].
  intros expectedStateStr w0 _.
  apply frame_bind;
    [apply _|by apply (keeps_makeApiRequest_get (λ _ _ : Pl, True))|].
  intros resp w1 _.
  apply frame_bind; [apply _|by apply (keeps_response_json (λ _ _ : Pl, True))|].
  intros data w2 _.
  destruct (data_success data); cbn [negb]; [|reflexivity].
  apply frame_bind;
    [apply _|by apply (keeps_fetchGatewayListItems (λ _ _ : Pl, True))|].
  intros currentItemsResult w4 Hfetch.
  rewrite (fetchGatewayListItems_success_undefined _ _ _ _ _ _ _ Hfetch).
  reflexivity.
Qed.

End ConsistencyCheck.

Lemma handleReconciliation_read_only_witness :
  ∃ resp w' evs,
    handleReconciliation acct token list_h list_m list_l
      (World (ListStore [] {[ list_m := [item "x@x.com"; item "y@x.com"] ]})
         {[ kvKey list_m := snapshot ["x@x.com"%string] "medium" ]} [])
    = (Returned resp, w') ∧
    w_kv w' = {[ kvKey list_m := snapshot ["x@x.com"%string] "medium" ]} ∧
    w_plat w' = ListStore [] {[ list_m := [item "x@x.com"; item "y@x.com"] ]} ∧
    w_log w' = [] ++ evs ∧ Forall read_event evs.
Proof.
  destruct (handleReconciliation_read_only (λ s : listStore, s) acct token
              list_h list_m list_l
              (World (ListStore [] {[ list_m := [item "x@x.com"; item "y@x.com"] ]})
                 {[ kvKey list_m := snapshot ["x@x.com"%string] "medium" ]} []))
    as (resp & w' & evs & Hrun & Hkv & Hplat & Hlog & Hall).
  - intros n url options Hm. by apply listStore_get_unchanged.
  - reflexivity.
  - exists resp, w', evs. split_and!; [exact Hrun|exact Hkv|exact Hplat|exact Hlog|exact Hall].
Defined.


(** The full-replace path on a list that does not hold the target: no
    request but GETs is sent, and the snapshot is not written, so no
    drift flag is persisted. *)
Example updateGatewayList_example :
  (updateGatewayList acct token list_m [RiskUser "x@x.com" "medium" 1 ""]
     (World (ListStore [] {[ list_m := [item "y@x.com"] ]}) ∅ [])).1
  = Returned (UpdateFailed None).
Proof. vm_compute. reflexivity. Qed.

(** The consistency check with expected [{x}] and actual [{x, y}]: the
    response lists no result. *)
Example handleReconciliation_example :
  (handleReconciliation acct token list_h list_m list_l
     (World (ListStore [] {[ list_m := [item "x@x.com"; item "y@x.com"] ]})
        {[ kvKey list_m := snapshot ["x@x.com"%string] "medium" ]} [])).1
  = Returned (ReconOk a_timestamp []).
Proof. vm_compute. reflexivity. Qed.

(** ** A failed page *)

(** C3 fails on the code.  When the second page of a list answers
    [success: false], [fetchGatewayListItems] returns the items of the
    first page with no error tag (and no [success] member); and
    [syncGatewayListFromKV], which looks only at the error tag, takes them
    for the whole list: with [a] and [b] expected, it sends a patch that
    appends [b] and reports one addition.  When the second page fails
    with a network error on every attempt, the error is tagged, and the
    items of the first page are dropped. *)
Theorem fetchGatewayListItems_failure_untagged :
  (fetchGatewayListItems acct token list_m None
     (fresh_world (ScriptedEndpoint [items_page [item "a@x.com"] 1 2; api_failure]))).1
  = Returned (ListFetch None list_m [item "a@x.com"] (Some (Pagination 1 2 1)) None None) ∧
  (let r := syncGatewayListFromKV acct token list_m "Medium Risk Users - New"
              (World (ScriptedEndpoint [items_page [item "a@x.com"] 1 2; api_failure;
                                        api_success])
                 {[ kvKey list_m := snapshot ["a@x.com"; "b@x.com"]%string "medium" ]} []) in
   r.1 = Returned (patched_result
                     (kv_value (snapshot ["a@x.com"; "b@x.com"]%string "medium"))
                     ["b@x.com"%string] []) ∧
   last (w_log r.2)
   = Some (EvFetch (GatewayListUrl acct list_m)
             (patch_options token
                (PatchBody
                   (Some [ListItem "b@x.com"
                            (Some ("medium risk user - updated " +:+ a_timestamp))])
                   None)))) ∧
  (fetchGatewayListItems acct token list_m None
     (fresh_world (ScriptedEndpoint [items_page [item "a@x.com"] 1 2; NetError "reset";
                                     NetError "reset"; NetError "reset"]))).1
  = Returned (ListFetch None list_m [] None (Some "reset"%string) None).
Proof. cbv zeta. split_and!; vm_compute; reflexivity. Qed.

(** * Further properties *)

(** ** The validation of the configuration, and set equality *)

Ltac each_character c :=
  destruct c as [[] [] [] [] [] [] [] []]; vm_compute;
  (split; [intros ?; first [discriminate | lia] | intros ?; first [reflexivity | lia]]).

Lemma in_class_i_hex c :
  in_class_i [(97, 102); (48, 57)] c = true ↔ hex_digit c.
Proof. unfold hex_digit. each_character c. Qed.

Lemma in_class_i_hex_dash c :
  in_class_i [(97, 102); (48, 57); (45, 45)] c = true ↔ hex_digit_or_dash c.
Proof. unfold hex_digit_or_dash, hex_digit. each_character c. Qed.

Lemma in_class_token c :
  in_class [(65, 90); (97, 122); (48, 57); (95, 95); (45, 45)] c = true
  ↔ token_character c.
Proof. unfold token_character. each_character c. Qed.

Lemma test_repeat_true class (P : Ascii.ascii → Prop) lo hi s :
  (∀ c, class c = true ↔ P c) →
  test_repeat class lo hi s = true ↔
  Forall P (chars s) ∧ lo ≤ String.length s
  ∧ match hi with Some m => String.length s ≤ m | None => True end.
Proof.
  intros Hclass. unfold test_repeat, chars.
  rewrite !andb_true_iff, forallb_forall, Forall_forall, Nat.leb_le.
  assert ((∀ x, In x (String.list_ascii_of_string s) → class x = true)
          ↔ (∀ x, x ∈ String.list_ascii_of_string s → P x)) as ->.
  { split; intros H x Hx; apply Hclass || apply Hclass in Hx; first
      [ apply Hclass, H, list_elem_of_In, Hx | apply H, list_elem_of_In, Hx ]. }
  destruct hi as [m|]; [rewrite Nat.leb_le|]; tauto.
Qed.

Lemma account_id_pattern_true s :
  account_id_pattern s = true ↔ String.length s = 32 ∧ Forall hex_digit (chars s).
Proof.
  unfold account_id_pattern. rewrite (test_repeat_true _ hex_digit) by apply in_class_i_hex.
  intuition lia.
Qed.

Lemma api_token_pattern_true s :
  api_token_pattern s = true ↔ 40 ≤ String.length s ∧ Forall token_character (chars s).
Proof.
  unfold api_token_pattern.
  rewrite (test_repeat_true _ token_character) by apply in_class_token. tauto.
Qed.

Lemma list_id_pattern_true s :
  list_id_pattern s = true ↔ String.length s = 36 ∧ Forall hex_digit_or_dash (chars s).
Proof.
  unfold list_id_pattern.
  rewrite (test_repeat_true _ hex_digit_or_dash) by apply in_class_i_hex_dash.
  intuition lia.
Qed.

Lemma truthy_of_length s n : String.length s = n → 0 < n → truthy s = true.
Proof. intros Hl Hn. destruct s; [cbn in Hl; lia|done]. Qed.

Lemma validateListId_passes listId listName :
  validateListId listId listName = Passes ↔ well_formed_id listId.
Proof.
  unfold validateListId, well_formed_id. destruct listId as [s|]; cbn [truthy_opt show default from_option id].
  - destruct (truthy s) eqn:Ht; cbn [negb orb].
    + destruct (list_id_pattern s) eqn:Hp; cbn [negb].
      * apply list_id_pattern_true in Hp. split; [|done]. intros _. exists s. by split.
      * split; [done|]. intros (s' & [= <-] & Hl & Hall).
        assert (list_id_pattern s = true) by (by apply list_id_pattern_true). congruence.
    + split; [done|]. intros (s' & [= <-] & Hl & _).
      rewrite (truthy_of_length s 36) in Ht by first [done|lia]. done.
  - cbn. split; [done|]. by intros (s & ? & _).
Qed.

Lemma chars_app a b : chars (a +:+ b) = chars a ++ chars b.
Proof. induction a as [|c a IH]; [done|]. unfold chars in *. cbn. rewrite <- IH. reflexivity. Qed.

Lemma length_chars s : length (chars s) = String.length s.
Proof. induction s as [|c s IH]; [done|]. unfold chars in *. cbn. by f_equal. Qed.

(** X12.  A list id passes [validateListId] exactly when it is a string of
    36 characters, each a hexadecimal digit (in either case) or a dash;
    otherwise the function throws the message that names the list.  So
    every UUID in its canonical 8-4-4-4-12 form passes, and so does any
    other arrangement of 36 such characters. *)
Theorem validateListId_accepts (listId : option string) (listName : string) :
  (validateListId listId listName = Passes ↔
   ∃ s, listId = Some s ∧ String.length s = 36 ∧ Forall hex_digit_or_dash (chars s)) ∧
  (validateListId listId listName ≠ Passes →
   validateListId listId listName = Throws ("Invalid " +:+ listName +:+ " list ID format")) ∧
  (∀ a b c d e,
     String.length a = 8 → String.length b = 4 → String.length c = 4 →
     String.length d = 4 → String.length e = 12 →
     Forall hex_digit (chars (a +:+ b +:+ c +:+ d +:+ e)) →
     validateListId (Some (a +:+ "-" +:+ b +:+ "-" +:+ c +:+ "-" +:+ d +:+ "-" +:+ e))
       listName = Passes).
Proof.
  split_and!.
  - apply validateListId_passes.
  - unfold validateListId. by destruct (_ || _).
  - intros a b c d e Ha Hb Hc Hd He Hall. apply validateListId_passes.
    eexists. split; [reflexivity|].
    rewrite <- !length_chars in *. rewrite !chars_app in *. rewrite !length_app.
    rewrite !Forall_app in *. destruct Hall as (? & ? & ? & ? & ?).
    split; [cbn; lia|].
    assert (∀ l, Forall hex_digit l → Forall hex_digit_or_dash l) as Hweak.
    { intros l Hl. eapply Forall_impl; [exact Hl|]. intros x Hx. by left. }
    assert (Forall hex_digit_or_dash (chars "-")) as Hdash.
    { apply Forall_singleton. right. reflexivity. }
    split_and!; auto.
Qed.

Lemma validateListId_accepts_witness :
  validateListId (Some "0a1B2c3D-4e5F-6789-abcd-ef0123456789"%string) "high risk" = Passes.
Proof.
  destruct (validateListId_accepts (Some "0a1B2c3D-4e5F-6789-abcd-ef0123456789"%string)
              "high risk") as (_ & _ & Huuid).
  apply (Huuid "0a1B2c3D" "4e5F" "6789" "abcd" "ef0123456789")%string;
    [reflexivity..|].
  repeat (apply Forall_cons; split; [unfold hex_digit; vm_compute; lia|]).
  apply Forall_nil_2.
Defined.

Lemma validateEnvironmentVariables_passes (env : workerEnv) :
  validateEnvironmentVariables env = Passes ↔
  (∃ a, CLOUDFLARE_ACCOUNT_ID env = Some a ∧ String.length a = 32
        ∧ Forall hex_digit (chars a)) ∧
  (∃ t, CLOUDFLARE_API_TOKEN env = Some t ∧ 40 ≤ String.length t
        ∧ Forall token_character (chars t)).
Proof.
  unfold validateEnvironmentVariables.
  destruct env as [acc tok h m l kv]. cbn [CLOUDFLARE_ACCOUNT_ID CLOUDFLARE_API_TOKEN].
  cbn [List.filter snd fmap list_fmap].
  destruct (truthy_opt acc) eqn:Hacc; destruct (truthy_opt tok) eqn:Htok;
    cbn [negb List.filter fmap list_fmap length Nat.ltb Nat.leb fst].
  - destruct acc as [a|]; [|done]. destruct tok as [t|]; [|done].
    cbn [show default from_option id].
    destruct (account_id_pattern a) eqn:Ha; cbn [negb].
    + apply account_id_pattern_true in Ha.
      destruct (api_token_pattern t) eqn:Ht; cbn [negb].
      * apply api_token_pattern_true in Ht. split; [|done]. intros _.
        split; [exists a|exists t]; by split.
      * split; [done|]. intros (_ & t' & [= <-] & Hl & Hall).
        assert (api_token_pattern t = true) by (by apply api_token_pattern_true).
        congruence.
    + split; [done|]. intros ((a' & [= <-] & Hl & Hall) & _).
      assert (account_id_pattern a = true) by (by apply account_id_pattern_true).
      congruence.
  - split; [done|]. intros (_ & t & -> & Hl & _). cbn in Htok.
    rewrite (truthy_of_length t (String.length t)) in Htok by first [done|lia]. done.
  - split; [done|]. intros ((a & -> & Hl & _) & _). cbn in Hacc.
    rewrite (truthy_of_length a 32) in Hacc by first [done|lia]. done.
  - split; [done|]. intros ((a & -> & Hl & _) & _). cbn in Hacc.
    rewrite (truthy_of_length a 32) in Hacc by first [done|lia]. done.
Qed.

(** X11.  [validateEnvironmentVariables] returns without throwing exactly
    when the account id is a string of 32 hexadecimal digits and the token
    a string of 40 or more letters, digits, underscores and dashes.  A
    variable that is absent or empty is reported before any format
    error, by name, and the account id before the token. *)
Theorem validateEnvironmentVariables_accepts (env : workerEnv) :
  (validateEnvironmentVariables env = Passes ↔
   (∃ a, CLOUDFLARE_ACCOUNT_ID env = Some a ∧ String.length a = 32
         ∧ Forall hex_digit (chars a)) ∧
   (∃ t, CLOUDFLARE_API_TOKEN env = Some t ∧ 40 ≤ String.length t
         ∧ Forall token_character (chars t))) ∧
  (truthy_opt (CLOUDFLARE_ACCOUNT_ID env) = false →
   truthy_opt (CLOUDFLARE_API_TOKEN env) = false →
   validateEnvironmentVariables env
   = Throws "Missing required environment variables: CLOUDFLARE_ACCOUNT_ID, CLOUDFLARE_API_TOKEN") ∧
  (truthy_opt (CLOUDFLARE_ACCOUNT_ID env) = false →
   truthy_opt (CLOUDFLARE_API_TOKEN env) = true →
   validateEnvironmentVariables env
   = Throws "Missing required environment variables: CLOUDFLARE_ACCOUNT_ID") ∧
  (truthy_opt (CLOUDFLARE_ACCOUNT_ID env) = true →
   truthy_opt (CLOUDFLARE_API_TOKEN env) = false →
   validateEnvironmentVariables env
   = Throws "Missing required environment variables: CLOUDFLARE_API_TOKEN") ∧
  (∀ a t, CLOUDFLARE_ACCOUNT_ID env = Some a → CLOUDFLARE_API_TOKEN env = Some t →
     a ≠ ""%string → t ≠ ""%string →
     ¬ (String.length a = 32 ∧ Forall hex_digit (chars a)) →
     validateEnvironmentVariables env = Throws "Invalid CLOUDFLARE_ACCOUNT_ID format") ∧
  (∀ a t, CLOUDFLARE_ACCOUNT_ID env = Some a → CLOUDFLARE_API_TOKEN env = Some t →
     String.length a = 32 → Forall hex_digit (chars a) → t ≠ ""%string →
     ¬ (40 ≤ String.length t ∧ Forall token_character (chars t)) →
     validateEnvironmentVariables env = Throws "Invalid CLOUDFLARE_API_TOKEN format").
Proof.
  split; [apply validateEnvironmentVariables_passes|].
  unfold validateEnvironmentVariables.
  destruct env as [acc tok h m l kv]. cbn [CLOUDFLARE_ACCOUNT_ID CLOUDFLARE_API_TOKEN].
  cbn [List.filter snd fmap list_fmap].
  split_and!.
  - intros -> ->. reflexivity.
  - intros -> ->. reflexivity.
  - intros -> ->. reflexivity.
  - intros a t [= ->] [= ->] Ha Ht Hbad. cbn [truthy_opt]. unfold truthy.
    rewrite !bool_decide_eq_true_2 by done.
    cbn [negb List.filter fmap list_fmap length Nat.ltb Nat.leb show default from_option id].
    destruct (account_id_pattern a) eqn:Hp; [|done].
    apply account_id_pattern_true in Hp. done.
  - intros a t [= ->] [= ->] Hl Hall Ht Hbad. cbn [truthy_opt].
    rewrite (truthy_of_length a 32) by first [done|lia]. unfold truthy.
    rewrite bool_decide_eq_true_2 by done.
    cbn [negb List.filter fmap list_fmap length Nat.ltb Nat.leb show default from_option id].
    assert (account_id_pattern a = true) as -> by (by apply account_id_pattern_true).
    cbn [negb]. destruct (api_token_pattern t) eqn:Hp; [|done].
    apply api_token_pattern_true in Hp. done.
Qed.

Lemma validateEnvironmentVariables_accepts_witness :
  validateEnvironmentVariables (WorkerEnv None (Some ""%string) None None None true)
  = Throws "Missing required environment variables: CLOUDFLARE_ACCOUNT_ID, CLOUDFLARE_API_TOKEN" ∧
  validateEnvironmentVariables
    (WorkerEnv (Some "not-an-account-id"%string) (Some api_token) None None None true)
  = Throws "Invalid CLOUDFLARE_ACCOUNT_ID format" ∧
  validateEnvironmentVariables
    (WorkerEnv (Some acct) (Some "secret"%string) None None None true)
  = Throws "Invalid CLOUDFLARE_API_TOKEN format".
Proof.
  split_and!.
  - destruct (validateEnvironmentVariables_accepts
                (WorkerEnv None (Some ""%string) None None None true))
      as (_ & Hboth & _).
    apply Hboth; reflexivity.
  - destruct (validateEnvironmentVariables_accepts
                (WorkerEnv (Some "not-an-account-id"%string) (Some api_token)
                   None None None true))
      as (_ & _ & _ & _ & Hacc & _).
    apply (Hacc "not-an-account-id"%string api_token); [reflexivity|reflexivity|done|done|].
    intros [Hlen _]. discriminate Hlen.
  - destruct (validateEnvironmentVariables_accepts
                (WorkerEnv (Some acct) (Some "secret"%string) None None None true))
      as (_ & _ & _ & _ & _ & Htok).
    apply (Htok acct "secret"%string); [reflexivity|reflexivity|reflexivity| |done|].
    + repeat (apply Forall_cons; split; [unfold hex_digit; vm_compute; lia|]).
      apply Forall_nil_2.
    + intros [Hlen _]. cbn in Hlen. lia.
Defined.

(** X10.  On two [Set]s, [setsEqual] answers true exactly when they have the
    same elements, whatever the order of insertion and the duplicates of
    the arrays they were built from; and it does not depend on the order
    of its arguments. *)
Theorem setsEqual_same_elements (a b : list string) :
  (setsEqual (newSet a) (newSet b) = true ↔ ∀ x, x ∈ a ↔ x ∈ b) ∧
  setsEqual (newSet a) (newSet b) = setsEqual (newSet b) (newSet a).
Proof.
  assert (∀ a b, setsEqual (newSet a) (newSet b) = true ↔ ∀ x, x ∈ a ↔ x ∈ b) as Hiff.
  { intros a' b'. rewrite setsEqual_true by apply NoDup_newSet.
    split; intros H x; specialize (H x); rewrite ?elem_of_newSet in *; done. }
  split; [apply Hiff|].
  destruct (setsEqual (newSet a) (newSet b)) eqn:Hab;
    destruct (setsEqual (newSet b) (newSet a)) eqn:Hba; try done.
  - pose proof (proj1 (Hiff _ _) Hab) as Hab'. assert (setsEqual (newSet b) (newSet a) = true) as Hc.
    { apply Hiff. intros x. by rewrite Hab'. }
    congruence.
  - pose proof (proj1 (Hiff _ _) Hba) as Hba'. assert (setsEqual (newSet a) (newSet b) = true) as Hc.
    { apply Hiff. intros x. by rewrite Hba'. }
    congruence.
Qed.

(** ** The transport, whatever the endpoint does *)

Section Transport2.
Context {Pl : Type} `{!Platform Pl}.

Lemma keeps_makeApiRequest_kv url options maxRetries :
  keeps (frame (λ _, True) (λ _ _ : Pl, True) eq) (makeApiRequest url options maxRetries).
Proof.
  pose proof (@always_preorder Pl) as Hpre.
  unfold makeApiRequest, makeApiRequest_body.
  keeps_with ltac:(first [ apply (keeps_fetch (λ _, True) (λ _ _ : Pl, True) eq); done
                         | apply (keeps_sleep (λ _, True) (λ _ _ : Pl, True) eq); done ]).
Qed.

Lemma makeApiRequest_loop_first_fetch url options maxRetries fuel attempt (w : world Pl) :
  attempt ≤ maxRetries →
  ∃ evs, w_log (while_ (S fuel) (λ attempt, attempt <=? maxRetries)
                  (makeApiRequest_body url options maxRetries) attempt w).2
         = w_log w ++ EvFetch url options :: evs.
Proof.
  intros Hle. rewrite while_unfold.
  replace (attempt <=? maxRetries) with true by (symmetry; apply Nat.leb_le; lia).
  rewrite run_bind.
  unfold makeApiRequest_body at 1. rewrite run_try_catch, run_bind. unfold fetch.
  assert (∀ a w0, ∃ evs,
            w_log (while_ fuel (λ attempt, attempt <=? maxRetries)
                     (makeApiRequest_body url options maxRetries) a w0).2
            = w_log w0 ++ evs) as Hrest.
  { intros a w0.
    destruct (makeApiRequest_loop_effects url options maxRetries fuel a w0)
      as (evs & Hlog & _). by exists evs. }
  destruct (plat_fetch (w_plat w) url options) as [[e|r] n']; cbn [fst snd].
  - destruct (attempt =? maxRetries); run_step.
    + by exists [].
    + match goal with |- context [while_ fuel ?c ?b ?a ?w0] =>
        destruct (Hrest a w0) as (evs & Hlog) end.
      eexists. rewrite Hlog. cbn [w_log]. rewrite <- !app_assoc. reflexivity.
  - destruct (status r =? 429); run_step.
    + match goal with |- context [while_ fuel ?c ?b ?a ?w0] =>
        destruct (Hrest a w0) as (evs & Hlog) end.
      eexists. rewrite Hlog. cbn [w_log]. rewrite <- !app_assoc. reflexivity.
    + destruct ((500 <=? status r) && (attempt <? maxRetries)); run_step.
      * match goal with |- context [while_ fuel ?c ?b ?a ?w0] =>
          destruct (Hrest a w0) as (evs & Hlog) end.
        eexists. rewrite Hlog. cbn [w_log]. rewrite <- !app_assoc. reflexivity.
      * by exists [].
Qed.

Lemma makeApiRequest_first_fetch url options maxRetries (w : world Pl) :
  1 ≤ maxRetries →
  ∃ evs, w_log (makeApiRequest url options maxRetries w).2
         = w_log w ++ EvFetch url options :: evs.
Proof.
  intros Hmax. destruct maxRetries as [|m]; [lia|].
  destruct (makeApiRequest_loop_first_fetch url options (S m) m 1 w) as (evs & Hlog); [lia|].
  exists evs. unfold makeApiRequest. rewrite run_bind.
  destruct (while_ _ _ _ _ _) as [[[?|?]|?|] w1]; done.
Qed.

(** The effects of [makeApiRequest], whatever the endpoint does. *)
Lemma makeApiRequest_run_bounded url options maxRetries (w : world Pl) :
  ∃ evs,
    (makeApiRequest url options maxRetries w).1 ≠ OutOfFuel ∧
    w_log (makeApiRequest url options maxRetries w).2 = w_log w ++ evs ∧
    Forall (transport_event url options) evs ∧
    fetches_in evs ≤ maxRetries ∧
    (1 ≤ maxRetries → 1 ≤ fetches_in evs) ∧
    w_kv (makeApiRequest url options maxRetries w).2 = w_kv w ∧
    (maxRetries = 0 → makeApiRequest url options maxRetries w = (Returned None, w)).
Proof.
  destruct (makeApiRequest_effects url options maxRetries w) as (evs & Hlog & Hall & Hn).
  exists evs. split_and!; try done.
  - apply terminates_makeApiRequest.
  - intros Hmax. destruct (makeApiRequest_first_fetch url options maxRetries w Hmax)
      as (evs' & Hlog').
    rewrite Hlog in Hlog'. apply app_inv_head in Hlog'. subst evs.
    unfold fetches_in. cbn. lia.
  - destruct (keeps_makeApiRequest_kv url options maxRetries w) as (_ & _ & Hkv). done.
  - intros ->. reflexivity.
Qed.

(** X1.  Whatever the endpoint does, a call of [makeApiRequest] ends, sends
    the one request between once and [maxRetries] times, does nothing else
    but wait, and leaves the key-value store alone.  With [maxRetries] 0
    it sends nothing and returns [undefined]. *)
Theorem makeApiRequest_bounded url options maxRetries (w : world Pl) :
  ∃ evs,
    (makeApiRequest url options maxRetries w).1 ≠ OutOfFuel ∧
    w_log (makeApiRequest url options maxRetries w).2 = w_log w ++ evs ∧
    Forall (transport_event url options) evs ∧
    fetches_in evs ≤ maxRetries ∧
    (1 ≤ maxRetries → 1 ≤ fetches_in evs) ∧
    w_kv (makeApiRequest url options maxRetries w).2 = w_kv w ∧
    (maxRetries = 0 → makeApiRequest url options maxRetries w = (Returned None, w)).
Proof. apply makeApiRequest_run_bounded. Qed.

(** The retry loop against an endpoint that rejects every request. *)
Lemma makeApiRequest_loop_network_error n0 url options maxRetries message :
  always_answers n0 url options (NetError message) →
  ∀ k attempt fuel (w : world Pl),
    reachable n0 (w_plat w) → attempt + k = maxRetries → k < fuel →
    ∃ n',
      reachable n0 n' ∧
      while_ fuel (λ attempt, attempt <=? maxRetries)
        (makeApiRequest_body url options maxRetries) attempt w =
      (Thrown message,
       World n' (w_kv w)
         (w_log w ++ flat_map (λ a, [EvFetch url options;
                                     EvSleep (Millis (2 ^ a * 1000))]) (seq attempt k)
                  ++ [EvFetch url options])).
Proof.
  intros Hresp. induction k as [|k IH]; intros attempt fuel w Hreach Hsum Hfuel;
    (destruct fuel as [|fuel]; [lia|]);
    rewrite while_unfold;
    (replace (attempt <=? maxRetries) with true by (symmetry; apply Nat.leb_le; lia));
    rewrite run_bind; unfold makeApiRequest_body at 1;
    rewrite run_try_catch, run_bind; unfold fetch at 1;
    pose proof (Hresp (w_plat w) Hreach) as Hans;
    pose proof (reach_fetch n0 (w_plat w) url options Hreach) as Hreach1;
    destruct (plat_fetch (w_plat w) url options) as [res n1]; cbn [fst snd] in *; subst res.
  - replace (attempt =? maxRetries) with true by (symmetry; apply Nat.eqb_eq; lia).
    exists n1. split; [done|]. reflexivity.
  - replace (attempt =? maxRetries) with false by (symmetry; apply Nat.eqb_neq; lia).
    run_step.
    destruct (IH (S attempt) fuel
                (World (plat_sleep n1 (Millis (2 ^ attempt * 1000))) (w_kv w)
                   ((w_log w ++ [EvFetch url options]) ++
                    [EvSleep (Millis (2 ^ attempt * 1000))])))
      as (n' & Hreach' & Hrun); [by constructor|lia|lia|].
    exists n'. split; [done|]. rewrite Hrun. cbn [w_kv w_log seq flat_map app].
    rewrite <- !app_assoc. reflexivity.
Qed.

(** X2.  Against an endpoint that rejects every request with a network
    error, [makeApiRequest] makes exactly [maxRetries] attempts, waits
    [2^attempt] seconds after each attempt but the last, and throws the
    error of the last attempt. *)
Theorem makeApiRequest_network_error url options maxRetries message (w : world Pl) :
  1 ≤ maxRetries →
  always_answers (w_plat w) url options (NetError message) →
  ∃ w' evs,
    makeApiRequest url options maxRetries w = (Thrown message, w') ∧
    w_kv w' = w_kv w ∧ w_log w' = w_log w ++ evs ∧
    evs = flat_map (λ attempt, [EvFetch url options;
                                EvSleep (Millis (2 ^ attempt * 1000))])
            (seq 1 (maxRetries - 1))
          ++ [EvFetch url options] ∧
    fetches_in evs = maxRetries.
Proof.
  intros Hmax Hans.
  destruct (makeApiRequest_loop_network_error (w_plat w) url options maxRetries message
              Hans (maxRetries - 1) 1 maxRetries w) as (n' & Hreach & Hrun);
    [constructor|lia|lia|].
  eexists _, _. unfold makeApiRequest. rewrite run_bind, Hrun.
  split; [reflexivity|]. cbn [w_kv w_log]. split_and!; [done|done|done|].
  rewrite fetches_in_app.
  rewrite (fetches_in_pairs (λ _, EvFetch url options)
             (λ attempt, EvSleep (Millis (2 ^ attempt * 1000)))) by done.
  cbn. lia.
Qed.

End Transport2.

Lemma makeApiRequest_network_error_witness :
  ∃ w' evs,
    makeApiRequest (GatewayListUrl acct list_m) (get_options token) 3
      (fresh_world (ConstantEndpoint (NetError "connection reset")))
    = (Thrown "connection reset", w') ∧
    w_kv w' = ∅ ∧ w_log w' = [] ++ evs ∧
    evs = flat_map (λ attempt, [EvFetch (GatewayListUrl acct list_m) (get_options token);
                                EvSleep (Millis (2 ^ attempt * 1000))])
            (seq 1 (3 - 1))
          ++ [EvFetch (GatewayListUrl acct list_m) (get_options token)] ∧
    fetches_in evs = 3.
Proof.
  apply (makeApiRequest_network_error (GatewayListUrl acct list_m) (get_options token) 3
           "connection reset"
           (fresh_world (ConstantEndpoint (NetError "connection reset")))).
  - lia.
  - apply constantEndpoint_always.
Defined.

Lemma makeApiRequest_bounded_witness :
  (∃ evs,
     w_log (makeApiRequest (GatewayListUrl acct list_m) (get_options token) 3
              (fresh_world (ConstantEndpoint (NetResponse unavailable)))).2 = [] ++ evs ∧
     1 ≤ fetches_in evs ≤ 3) ∧
  makeApiRequest (GatewayListUrl acct list_m) (get_options token) 0
    (fresh_world (ConstantEndpoint (NetResponse unavailable)))
  = (Returned None, fresh_world (ConstantEndpoint (NetResponse unavailable))).
Proof.
  split.
  - destruct (makeApiRequest_bounded (GatewayListUrl acct list_m) (get_options token) 3
                (fresh_world (ConstantEndpoint (NetResponse unavailable))))
      as (evs & _ & Hlog & _ & Hle & Hge & _).
    exists evs. split; [exact Hlog|]. split; [apply Hge; lia|exact Hle].
  - destruct (makeApiRequest_bounded (GatewayListUrl acct list_m) (get_options token) 0
                (fresh_world (ConstantEndpoint (NetResponse unavailable))))
      as (evs & _ & _ & _ & _ & _ & _ & Hzero).
    apply Hzero. reflexivity.
Defined.

Lemma makeApiRequest_loop_recovers url options maxRetries ok rest kv :
  status ok ≠ 429 → status ok < 500 →
  ∀ fails attempt fuel log,
    Forall transient fails → attempt + length fails ≤ maxRetries → length fails < fuel →
    while_ fuel (λ attempt, attempt <=? maxRetries)
      (makeApiRequest_body url options maxRetries) attempt
      (World (ScriptedEndpoint (fails ++ (NetResponse ok :: rest))) kv log)
    = (Returned (inr ok),
       World (ScriptedEndpoint rest) kv
         (log ++ retries url options attempt fails ++ [EvFetch url options])).
Proof.
  intros H429 H500. induction fails as [|r fails IH]; intros attempt fuel log Hall Hsum Hfuel;
    (destruct fuel as [|fuel]; [cbn in Hfuel; lia|]); cbn [length] in *;
    rewrite while_unfold;
    (replace (attempt <=? maxRetries) with true by (symmetry; apply Nat.leb_le; lia));
    rewrite run_bind; unfold makeApiRequest_body at 1;
    rewrite run_try_catch, run_bind; unfold fetch at 1; cbn [w_plat plat_fetch
      scriptedEndpoint_platform script app].
  - cbn [fst snd w_kv w_log]. apply Nat.eqb_neq in H429. rewrite H429.
    replace (500 <=? status ok) with false by (symmetry; apply Nat.leb_gt; lia).
    reflexivity.
  - apply Forall_cons in Hall as [Hr Hall].
    assert ((attempt =? maxRetries) = false) as Hne by (apply Nat.eqb_neq; lia).
    assert ((attempt <? maxRetries) = true) as Hlt by (apply Nat.ltb_lt; lia).
    destruct r as [message|resp]; cbn [fst snd w_kv w_log transient backoff_after] in *.
    + rewrite Hne. run_step. cbn [plat_sleep scriptedEndpoint_platform].
      rewrite IH by first [done|lia]. cbn [retries backoff_after].
      rewrite <- !app_assoc. reflexivity.
    + destruct (status resp =? 429) eqn:Hst.
      * run_step. cbn [plat_sleep scriptedEndpoint_platform].
        rewrite IH by first [done|lia]. cbn [retries backoff_after]. rewrite Hst.
        rewrite <- !app_assoc. reflexivity.
      * apply Nat.eqb_neq in Hst. destruct Hr as [?|Hr]; [done|].
        replace (500 <=? status resp) with true by (symmetry; apply Nat.leb_le; lia).
        rewrite Hlt. cbn [andb]. run_step. cbn [plat_sleep scriptedEndpoint_platform].
        rewrite IH by first [done|lia]. cbn [retries backoff_after].
        replace (status resp =? 429) with false by (symmetry; apply Nat.eqb_neq; lia).
        rewrite <- !app_assoc. reflexivity.
Qed.

(** X3.  Against an endpoint that answers with fewer than [maxRetries]
    transient failures (network errors, 429s, statuses of 500 or more)
    and then with a response whose status is below 500 and not 429,
    [makeApiRequest] returns that response: it has sent one request per
    answer, with a wait after each failure.  With no failure at all it
    sends one request and does not wait; a 4xx status is such a response,
    and is returned without a retry. *)
Theorem makeApiRequest_recovers url options maxRetries fails ok rest kv log :
  Forall transient fails → length fails < maxRetries →
  status ok ≠ 429 → status ok < 500 →
  makeApiRequest url options maxRetries
    (World (ScriptedEndpoint (fails ++ (NetResponse ok :: rest))) kv log)
  = (Returned (Some ok),
     World (ScriptedEndpoint rest) kv
       (log ++ retries url options 1 fails ++ [EvFetch url options])) ∧
  fetches_in (retries url options 1 fails ++ [EvFetch url options]) = S (length fails).
Proof.
  intros Hall Hlen H429 H500. split.
  - unfold makeApiRequest. rewrite run_bind.
    rewrite (makeApiRequest_loop_recovers url options maxRetries ok rest kv H429 H500)
      by first [done|lia].
    reflexivity.
  - rewrite fetches_in_app. cbn.
    assert (∀ a, fetches_in (retries url options a fails) = length fails) as ->; [|lia].
    clear. induction fails as [|r fails IH]; intros a; [done|].
    cbn [retries length]. unfold fetches_in in *. cbn. by rewrite IH.
Qed.

Lemma makeApiRequest_recovers_witness :
  makeApiRequest (GatewayListUrl acct list_m) (get_options token) 3
    (World (ScriptedEndpoint
              ([NetError "connection reset"; NetResponse (rate_limited (Some "7"%string))]
               ++ (NetResponse not_found :: [api_success]))) ∅ [])
  = (Returned (Some not_found),
     World (ScriptedEndpoint [api_success]) ∅
       ([] ++ [EvFetch (GatewayListUrl acct list_m) (get_options token);
               EvSleep (Millis (2 ^ 1 * 1000));
               EvFetch (GatewayListUrl acct list_m) (get_options token);
               EvSleep (HeaderTimes1000 "7")]
           ++ [EvFetch (GatewayListUrl acct list_m) (get_options token)])).
Proof.
  apply (makeApiRequest_recovers (GatewayListUrl acct list_m) (get_options token) 3
           [NetError "connection reset"; NetResponse (rate_limited (Some "7"%string))]
           not_found [api_success] ∅ []).
  - repeat constructor.
  - cbn. lia.
  - discriminate.
  - cbn. lia.
Defined.

(** ** The safety bound of the fetchers *)

(** X4.  Against the simulated store, whatever the size of the list and of
    the risk source, [fetchGatewayListItems] returns the first 50 pages of
    100 items (the whole list when it has no more than that), in order and
    with no error tag, and [fetchAllUserRiskScores] returns with success
    the first 100 pages of 50 records: beyond the safety bound the rest is
    left out silently.  In both, [pagesProcessed] equals [totalRequests],
    and neither the store nor the key-value namespace changes. *)
Theorem fetchers_stop_at_safety_bound accountId apiToken listId riskLevel
    (w : world listStore) items :
  ls_lists (w_plat w) !! listId = Some items →
  (∃ r w' k,
     fetchGatewayListItems accountId apiToken listId riskLevel w = (Returned r, w') ∧
     lf_items r = take (50 * 100) items ∧ lf_error r = None ∧
     lf_pagination r = Some (Pagination (length (take (50 * 100) items)) k k) ∧ k ≤ 50 ∧
     w_plat w' = w_plat w ∧ w_kv w' = w_kv w) ∧
  (∃ r w' k,
     fetchAllUserRiskScores accountId apiToken w = (Returned r, w') ∧
     rf_success r = true ∧ rf_users r = Some (take (100 * 50) (ls_users (w_plat w))) ∧
     rf_pagination r
     = Some (Pagination (length (take (100 * 50) (ls_users (w_plat w)))) k k) ∧ k ≤ 100 ∧
     w_plat w' = w_plat w ∧ w_kv w' = w_kv w).
Proof.
  intros Hlist. split.
  - unfold fetchGatewayListItems. rewrite run_try_catch, run_bind.
    destruct (listStore_items_loop_any accountId apiToken listId (w_plat w) items Hlist
                50 1 w) as (st' & w' & Hrun & Hall & Hpg & Hp1 & Hreq & Hplat & Hkv);
      [done|lia|lia|by left|].
    cbn [Nat.sub Nat.mul] in Hrun. rewrite take_0 in Hrun. rewrite Hrun. run_step.
    eexists _, _, (st_totalRequests st'). split; [reflexivity|].
    cbn [lf_items lf_error lf_pagination]. rewrite Hall, Hpg.
    replace (S (st_totalRequests st') - 1) with (st_totalRequests st') by lia. done.
  - unfold fetchAllUserRiskScores. rewrite run_try_catch, run_bind.
    destruct (listStore_users_loop_any accountId apiToken (w_plat w) 100 1 w)
      as (st' & w' & Hrun & Hall & Hpg & Hp1 & Hreq & Hplat & Hkv);
      [done|lia|lia|by left|].
    cbn [Nat.sub Nat.mul] in Hrun. rewrite take_0 in Hrun. rewrite Hrun. run_step.
    eexists _, _, (st_totalRequests st'). split; [reflexivity|].
    cbn [rf_success rf_users rf_pagination]. rewrite Hall, Hpg.
    replace (S (st_totalRequests st') - 1) with (st_totalRequests st') by lia. done.
Qed.

Lemma fetchers_stop_at_safety_bound_witness :
  (∃ r w' k,
     fetchGatewayListItems acct token list_m None (fresh_world two_tier_store)
     = (Returned r, w') ∧
     lf_items r = take (50 * 100) [item "b@x.com"; item "c@x.com"] ∧ lf_error r = None ∧
     lf_pagination r
     = Some (Pagination (length (take (50 * 100) [item "b@x.com"; item "c@x.com"])) k k) ∧
     k ≤ 50 ∧
     w_plat w' = two_tier_store ∧ w_kv w' = ∅) ∧
  (∃ r w' k,
     fetchAllUserRiskScores acct token (fresh_world two_tier_store) = (Returned r, w') ∧
     rf_success r = true ∧ rf_users r = Some (take (100 * 50) (ls_users two_tier_store)) ∧
     rf_pagination r
     = Some (Pagination (length (take (100 * 50) (ls_users two_tier_store))) k k) ∧
     k ≤ 100 ∧
     w_plat w' = two_tier_store ∧ w_kv w' = ∅).
Proof.
  apply (fetchers_stop_at_safety_bound acct token list_m None (fresh_world two_tier_store)
           [item "b@x.com"; item "c@x.com"]).
  vm_compute. reflexivity.
Defined.

(** ** Snapshots and the reconciler *)

Section Snapshots.
Context {Pl : Type} `{!Platform Pl}.


(** What [syncGatewayListFromKV] does when the list fetch comes back
    tagged with an error. *)
Lemma syncGatewayListFromKV_fetch_failed accountId apiToken listId listName (w : world Pl)
    expected ttl fr w1 :
  w_kv w !! kvKey listId = Some (KvEntry expected ttl) →
  fetched_by_sync accountId apiToken listId w = (Returned fr, w1) →
  truthy_opt (lf_error fr) = true →
  syncGatewayListFromKV accountId apiToken listId listName w
  = (Returned (sync_failed (ErrMessage (default ""%string (lf_error fr)))), w1).
Proof.
  intros Hkv Hfetch Herr. unfold fetched_by_sync in Hfetch.
  unfold syncGatewayListFromKV. rewrite !run_try_catch, run_bind.
  unfold kv_get at 1. cbn [fst snd]. rewrite Hkv. cbn [fmap option_fmap option_map kv_value].
  rewrite run_bind, Hfetch, Herr. reflexivity.
Qed.

Lemma syncGatewayListFromKV_no_snapshot accountId apiToken listId listName (w : world Pl) :
  w_kv w !! kvKey listId = None →
  syncGatewayListFromKV accountId apiToken listId listName w
  = (Returned (sync_failed (ErrMessage "No expected state in KV")),
     log_event (EvKvGet (kvKey listId)) w).
Proof.
  intros Hkv. unfold syncGatewayListFromKV. rewrite !run_try_catch, run_bind.
  unfold kv_get at 1. cbn [fst snd]. rewrite Hkv. reflexivity.
Qed.

(** The effects of a run of [syncGatewayListFromKV], whatever the platform
    does. *)
Lemma syncGatewayListFromKV_run_effects accountId apiToken listId listName (w : world Pl) :
  ∃ r w' reads patching body,
    syncGatewayListFromKV accountId apiToken listId listName w = (Returned r, w') ∧
    w_kv w' = w_kv w ∧
    w_log w' = w_log w ++ reads ++ patching ∧
    Forall read_event reads ∧
    Forall (transport_event (GatewayListUrl accountId listId) (patch_options apiToken body))
      patching ∧
    fetches_in patching ≤ defaultMaxRetries ∧
    (sync_success r = true →
     (sync_method r = Some "PATCH"%string ∧ 1 ≤ fetches_in patching)
     ∨ (sync_added r = Some 0 ∧ sync_removed r = Some 0 ∧ patching = [])) ∧
    (w_kv w !! kvKey listId = None →
     r = sync_failed (ErrMessage "No expected state in KV")
     ∧ reads = [EvKvGet (kvKey listId)] ∧ patching = []).
Proof.
  destruct (w_kv w !! kvKey listId) as [[expected ttl]|] eqn:Hkv.
  2:{ eexists _, _, [EvKvGet (kvKey listId)], [], NoBody.
      split; [by apply syncGatewayListFromKV_no_snapshot|].
      cbn [log_event w_kv w_log sync_failed sync_success].
      split_and!; try done; [by repeat constructor|cbn; lia]. }
  destruct (fetched_by_sync_frame accountId apiToken listId w) as (Hkv1 & evs & Hlog1 & Hall1).
  destruct (fetchGatewayListItems_returns accountId apiToken listId None
              (log_event (EvKvGet (kvKey listId)) w)) as [fr Hfr].
  fold (fetched_by_sync accountId apiToken listId w) in Hfr.
  destruct (fetched_by_sync accountId apiToken listId w) as [o w1] eqn:Hfetch.
  cbn [fst snd] in *. subst o.
  destruct (truthy_opt (lf_error fr)) eqn:Herr.
  { eexists _, w1, evs, [], NoBody.
    split; [by eapply syncGatewayListFromKV_fetch_failed|].
    rewrite app_nil_r. cbn [sync_failed sync_success].
    split_and!; try done; cbn; lia. }
  rewrite (syncGatewayListFromKV_run _ _ _ listName _ _ _ _ _ Hkv Hfetch Herr).
  set (toAdd := emailsToAdd _ _). set (toRemove := emailsToRemove _ _).
  destruct ((0 <? length toAdd) || (0 <? length toRemove)) eqn:Hdiff.
  2:{ eexists _, w1, evs, [], NoBody. split; [reflexivity|].
      rewrite app_nil_r. cbn [in_sync_result sync_success sync_added sync_removed].
      split_and!; try done; [cbn; lia|by right]. }
  set (body := patchBody expected toAdd toRemove).
  destruct (makeApiRequest_run_bounded (GatewayListUrl accountId listId)
              (patch_options apiToken body) defaultMaxRetries w1)
    as (pevs & Hterm & Hlog2 & Hall2 & Hle & Hge & Hkv2 & _).
  rewrite run_try_catch, run_bind.
  destruct (makeApiRequest _ _ _ w1) as [[[resp|]|e|] w2]; cbn [fst snd] in *; [| | |done].
  - rewrite run_bind, run_response_json.
    destruct (json_body resp) as [data|].
    + destruct (data_success data).
      * eexists _, w2, evs, pevs, body. split; [reflexivity|].
        rewrite Hkv2, Hlog2, Hlog1, <- app_assoc.
        cbn [patched_result sync_success sync_method].
        split_and!; try done. intros _. left. split; [done|]. apply Hge. cbv. lia.
      * eexists _, w2, evs, pevs, body. split; [reflexivity|].
        rewrite Hkv2, Hlog2, Hlog1, <- app_assoc. cbn [sync_failed sync_success].
        split_and!; done.
    + eexists _, w2, evs, pevs, body. split; [reflexivity|].
      rewrite Hkv2, Hlog2, Hlog1, <- app_assoc. cbn [sync_failed sync_success].
      split_and!; done.
  - rewrite run_bind, run_response_json.
    eexists _, w2, evs, pevs, body. split; [reflexivity|].
    rewrite Hkv2, Hlog2, Hlog1, <- app_assoc. cbn [sync_failed sync_success].
    split_and!; done.
  - eexists _, w2, evs, pevs, body. split; [reflexivity|].
    rewrite Hkv2, Hlog2, Hlog1, <- app_assoc. cbn [sync_failed sync_success].
    split_and!; done.
Qed.

(** X6.  Whatever the platform does, a run of [syncGatewayListFromKV]
    returns a result; it never writes the key-value store; what it does
    is a read of the store, GET requests and waits, and then at most the
    one PATCH request to the list, sent between one and three times with
    waits.  It reports success only after a PATCH that was sent, or with
    0 added and 0 removed when it sent none.  Without a snapshot of the
    list it stops after the read of the store. *)
Theorem syncGatewayListFromKV_effects accountId apiToken listId listName (w : world Pl) :
  ∃ r w' reads patching body,
    syncGatewayListFromKV accountId apiToken listId listName w = (Returned r, w') ∧
    w_kv w' = w_kv w ∧
    w_log w' = w_log w ++ reads ++ patching ∧
    Forall read_event reads ∧
    Forall (transport_event (GatewayListUrl accountId listId) (patch_options apiToken body))
      patching ∧
    fetches_in patching ≤ defaultMaxRetries ∧
    (sync_success r = true →
     (sync_method r = Some "PATCH"%string ∧ 1 ≤ fetches_in patching)
     ∨ (sync_added r = Some 0 ∧ sync_removed r = Some 0 ∧ patching = [])) ∧
    (w_kv w !! kvKey listId = None →
     r = sync_failed (ErrMessage "No expected state in KV")
     ∧ reads = [EvKvGet (kvKey listId)] ∧ patching = []).
Proof. apply syncGatewayListFromKV_run_effects. Qed.

(** X7.  When the fetch of the list comes back tagged with an error (a
    network error, or a page that could not be read),
    [syncGatewayListFromKV] reports the failure with that message and
    stops: it has only read, and the list is not patched. *)
Theorem syncGatewayListFromKV_stops_on_fetch_error accountId apiToken listId listName
    (w : world Pl) expected ttl fr w1 :
  w_kv w !! kvKey listId = Some (KvEntry expected ttl) →
  fetched_by_sync accountId apiToken listId w = (Returned fr, w1) →
  truthy_opt (lf_error fr) = true →
  ∃ evs,
    syncGatewayListFromKV accountId apiToken listId listName w
    = (Returned (sync_failed (ErrMessage (default ""%string (lf_error fr)))), w1) ∧
    w_kv w1 = w_kv w ∧ w_log w1 = w_log w ++ evs ∧ Forall read_event evs.
Proof.
  intros Hkv Hfetch Herr.
  destruct (fetched_by_sync_frame accountId apiToken listId w) as (Hkv1 & evs & Hlog1 & Hall1).
  rewrite Hfetch in Hkv1, Hlog1. cbn [snd] in *.
  exists evs. split; [by eapply syncGatewayListFromKV_fetch_failed|done].
Qed.

End Snapshots.


Lemma syncGatewayListFromKV_effects_witness :
  (∃ r w',
     syncGatewayListFromKV acct token list_m "Medium Risk Users - New"
       (fresh_world two_tier_store) = (Returned r, w') ∧
     r = sync_failed (ErrMessage "No expected state in KV") ∧
     w_log w' = [EvKvGet (kvKey list_m)]) ∧
  (∃ r w' patching,
     syncGatewayListFromKV acct token list_m "Medium Risk Users - New"
       (World two_tier_store {[ kvKey list_m := snapshot ["b@x.com"%string] "medium" ]} [])
     = (Returned r, w') ∧
     sync_method r = Some "PATCH"%string ∧ 1 ≤ fetches_in patching ≤ defaultMaxRetries).
Proof.
  split.
  - destruct (syncGatewayListFromKV_effects acct token list_m "Medium Risk Users - New"
                (fresh_world two_tier_store))
      as (r & w' & reads & patching & body & Hrun & _ & Hlog & _ & _ & _ & _ & Hnone).
    destruct Hnone as (Hr & Hreads & Hpatching); [apply lookup_empty|].
    exists r, w'. split; [exact Hrun|]. split; [exact Hr|].
    rewrite Hlog, Hreads, Hpatching. reflexivity.
  - destruct (syncGatewayListFromKV_effects acct token list_m "Medium Risk Users - New"
                (World two_tier_store
                   {[ kvKey list_m := snapshot ["b@x.com"%string] "medium" ]} []))
      as (r & w' & reads & patching & body & Hrun & _ & _ & _ & _ & Hle & Hok & _).
    exists r, w', patching. split; [exact Hrun|].
    apply (f_equal fst) in Hrun. vm_compute in Hrun. injection Hrun as <-.
    destruct (Hok eq_refl) as [[Hm Hge]|(_ & Hr & _)]; [|discriminate Hr].
    split; [exact Hm|]. split; [exact Hge|exact Hle].
Defined.

Lemma syncGatewayListFromKV_stops_on_fetch_error_witness :
  ∃ evs w1,
    syncGatewayListFromKV acct token list_m "Medium Risk Users - New"
      (World (ConstantEndpoint (NetError "connection reset"))
         {[ kvKey list_m := snapshot ["b@x.com"%string] "medium" ]} [])
    = (Returned (sync_failed (ErrMessage "connection reset")), w1) ∧
    w_kv w1 = {[ kvKey list_m := snapshot ["b@x.com"%string] "medium" ]} ∧
    w_log w1 = [] ++ evs ∧ Forall read_event evs.
Proof.
  destruct (syncGatewayListFromKV_stops_on_fetch_error acct token list_m
              "Medium Risk Users - New"
              (World (ConstantEndpoint (NetError "connection reset"))
                 {[ kvKey list_m := snapshot ["b@x.com"%string] "medium" ]} [])
              (kv_value (snapshot ["b@x.com"%string] "medium")) None
              (ListFetch None list_m [] None (Some "connection reset"%string) None)
              (fetched_by_sync acct token list_m
                 (World (ConstantEndpoint (NetError "connection reset"))
                    {[ kvKey list_m := snapshot ["b@x.com"%string] "medium" ]} [])).2)
    as (evs & Hrun & Hkv & Hlog & Hall).
  - apply lookup_singleton_eq.
  - vm_compute. reflexivity.
  - reflexivity.
  - exists evs. eexists. split; [exact Hrun|]. split_and!; [exact Hkv|exact Hlog|exact Hall].
Defined.

(** ** The paths that never write *)

Section DeadPaths.
Context {Pl : Type} `{!Platform Pl}.

(** X8.  [updateGatewayList] never replaces a list: whatever the platform
    answers and whatever the users it is given, it returns an object with
    [success: false], it sends no request other than GET and it does not
    write the key-value store.  The test of [currentItemsResult.success],
    a member that [fetchGatewayListItems] never sets, stops it before the
    first PUT. *)
Theorem updateGatewayList_never_replaces accountId apiToken listId users (w : world Pl) :
  ∃ errors w' evs,
    updateGatewayList accountId apiToken listId users w
    = (Returned (UpdateFailed errors), w') ∧
    w_kv w' = w_kv w ∧ w_log w' = w_log w ++ evs ∧ Forall read_event evs.
Proof.
  destruct (updateGatewayList_only_reads accountId apiToken listId users w)
    as (Hkv & evs & Hlog & Hall).
  assert (∃ errors, (updateGatewayList accountId apiToken listId users w).1
                    = Returned (UpdateFailed errors)) as [errors Hres].
  { clear. unfold updateGatewayList. rewrite run_try_catch, run_bind.
    unfold kv_get at 1. cbn [fst snd]. rewrite run_bind.
    match goal with |- context [makeApiRequest ?u ?o ?m ?w0] =>
      pose proof (terminates_makeApiRequest u o m w0) as Hterm;
      destruct (makeApiRequest u o m w0) as [[resp|e|] w1] end;
      cbn [fst] in Hterm; [|by eexists|done].
    rewrite run_bind, run_response_json.
    destruct resp as [resp|]; [|by eexists].
    destruct (json_body resp) as [data|]; [|by eexists].
    destruct (data_success data); cbn [negb]; [|by eexists].
    rewrite run_bind.
    destruct (fetchGatewayListItems_returns accountId apiToken listId None w1) as [fr Hfr].
    destruct (fetchGatewayListItems accountId apiToken listId None w1) as [o w2] eqn:Hfetch.
    cbn [fst] in Hfr. subst o.
    rewrite (fetchGatewayListItems_success_undefined _ _ _ _ _ _ _ Hfetch).
    by eexists. }
  destruct (updateGatewayList accountId apiToken listId users w) as [o w'].
  cbn [fst snd] in *. subst o. by exists errors, w', evs.
Qed.

(** X9.  The consistency check never reports a list: for every state of
    the key-value store and every platform, [handleReconciliation] answers
    with success and an empty [reconciliation] array, also when a list
    and its snapshot differ.  A list without a snapshot is skipped, and a
    list with one is skipped on the test of [currentItemsResult.success],
    which is never set. *)
Theorem handleReconciliation_reports_no_list accountId apiToken high medium low
    (w : world Pl) :
  ∃ w',
    handleReconciliation accountId apiToken high medium low w
    = (Returned (ReconOk (plat_now (w_plat w')) []), w').
Proof. apply handleReconciliation_run. Qed.

End DeadPaths.

(** ** The entry point *)

Lemma usersAtLevel_count users :
  length (usersAtLevel "high" users) + length (usersAtLevel "medium" users)
  + length (usersAtLevel "low" users) + length (unclassified users)
  = length users.
Proof.
  unfold usersAtLevel, unclassified. induction users as [|u users IH]; [done|].
  cbn [List.filter].
  destruct (bool_decide (max_risk_level u = "high"%string)) eqn:Hh;
    destruct (bool_decide (max_risk_level u = "medium"%string)) eqn:Hm;
    destruct (bool_decide (max_risk_level u = "low"%string)) eqn:Hl;
    cbn [negb andb length]; try lia.
  all: repeat match goal with
         | H : bool_decide _ = true |- _ => apply bool_decide_eq_true in H
         end; congruence.
Qed.


Lemma well_formed_id_truthy o : well_formed_id o → truthy_opt o = true.
Proof. intros (s & -> & Hl & _). cbn. apply (truthy_of_length s 36); [done|lia]. Qed.

Lemma validators_pass env :
  well_formed env ↔
  validateEnvironmentVariables env = Passes
  ∧ validateListId (HIGH_RISK_LIST_ID env) "high risk" = Passes
  ∧ validateListId (MEDIUM_RISK_LIST_ID env) "medium risk" = Passes
  ∧ validateListId (LOW_RISK_LIST_ID env) "low risk" = Passes.
Proof.
  unfold well_formed. rewrite validateEnvironmentVariables_passes, !validateListId_passes.
  tauto.
Qed.

Section Requests.
Context {Pl : Type} `{!Platform Pl}.
Context (others : otherHandlers (Pl := Pl)).

Lemma bind_ext {A B} (m : M Pl A) (f g : A → M Pl B) w :
  (∀ a w', f a w' = g a w') → (m ≫= f) w = (m ≫= g) w.
Proof. intros Hfg. rewrite !run_bind. destruct (m w) as [[a|e|] w']; [apply Hfg|done..]. Qed.

Lemma run_fmap {A B} (f : A → B) (m : M Pl A) w :
  (f <$> m) w =
  match m w with
  | (Returned a, w') => (Returned (f a), w')
  | (Thrown e, w') => (Thrown e, w')
  | (OutOfFuel, w') => (OutOfFuel, w')
  end.
Proof. reflexivity. Qed.

Lemma handleRequest_body_misconfigured self request env :
  ¬ well_formed env →
  ∃ message,
    handleRequest_body others self request env = mret (configuration_error request message).
Proof.
  intros Hbad. unfold handleRequest_body.
  destruct (validateEnvironmentVariables env) eqn:Henv; [|by eexists].
  destruct (_ || _); [by eexists|].
  destruct (validateListId (HIGH_RISK_LIST_ID env) _) eqn:Hh; [|by eexists].
  destruct (validateListId (MEDIUM_RISK_LIST_ID env) _) eqn:Hm; [|by eexists].
  destruct (validateListId (LOW_RISK_LIST_ID env) _) eqn:Hl; [|by eexists].
  destruct Hbad. by apply validators_pass.
Qed.

Ltac past_checks Hwf :=
  let Hwf' := fresh in
  pose proof Hwf as Hwf';
  apply validators_pass in Hwf' as (-> & -> & -> & ->);
  destruct Hwf as (_ & _ & ->%well_formed_id_truthy & ->%well_formed_id_truthy
                   & ->%well_formed_id_truthy);
  cbn [negb orb].

Lemma handleRequest_body_notfetch self env :
  well_formed env →
  handleRequest_body others self notfetch env
  = handleRequest_steps env (show (CLOUDFLARE_ACCOUNT_ID env))
      (show (CLOUDFLARE_API_TOKEN env)) (show (HIGH_RISK_LIST_ID env))
      (show (MEDIUM_RISK_LIST_ID env)) (show (LOW_RISK_LIST_ID env)).
Proof. intros Hwf. unfold handleRequest_body. past_checks Hwf. reflexivity. Qed.

Lemma handleRequest_body_unrouted self env pathname :
  well_formed env → ¬ routed pathname →
  handleRequest_body others self (Request pathname) env
  = handleRequest_steps env (show (CLOUDFLARE_ACCOUNT_ID env))
      (show (CLOUDFLARE_API_TOKEN env)) (show (HIGH_RISK_LIST_ID env))
      (show (MEDIUM_RISK_LIST_ID env)) (show (LOW_RISK_LIST_ID env)).
Proof.
  intros Hwf Hno. unfold handleRequest_body. past_checks Hwf.
  unfold routed, routes in Hno.
  repeat (rewrite bool_decide_eq_false_2;
          [|intros Heq; apply Hno; first [by left | right; rewrite Heq; set_solver]]).
  reflexivity.
Qed.

Lemma handleRequest_unfold request env :
  handleRequest others request env
  = handleRequest_body others (handleRequest_depth others 1) request env.
Proof. reflexivity. Qed.

Lemma handleRequest_depth_1 request env :
  handleRequest_depth others 1 request env
  = handleRequest_body others (handleRequest_depth others 0) request env.
Proof. reflexivity. Qed.

Lemma handleRequest_steps_bound env accountId apiToken high medium low (w : world Pl) :
  USER_RISK_KV env = true →
  handleRequest_steps env accountId apiToken high medium low w
  = (handleRequest_cycle accountId apiToken high medium low ≫= λ _, mret None) w.
Proof.
  intros Hkv. unfold handleRequest_steps, handleRequest_cycle,
    storeExpectedStateInKV_in, syncGatewayListFromKV_in. rewrite Hkv.
  rewrite !run_bind.
  destruct (fetchAllUserRiskScores accountId apiToken w) as [[r|e|] w1]; [|done..].
  destruct (negb (rf_success r)); [done|].
  repeat (rewrite !run_bind;
          match goal with |- context [match ?m ?w0 with _ => _ end] =>
            destruct (m w0) as [[?|?|] ?] end; try reflexivity).
Qed.

Lemma handleRequest_steps_unbound env accountId apiToken high medium low (w : world Pl) :
  USER_RISK_KV env = false →
  handleRequest_steps env accountId apiToken high medium low w
  = (fetchAllUserRiskScores accountId apiToken ≫= λ _, mret None) w.
Proof.
  intros Hkv. unfold handleRequest_steps, storeExpectedStateInKV_in,
    syncGatewayListFromKV_in. rewrite Hkv.
  rewrite !run_bind.
  destruct (fetchAllUserRiskScores accountId apiToken w) as [[r|e|] w1]; [|done..].
  destruct (negb (rf_success r)); reflexivity.
Qed.

Lemma syncGatewayListFromKV_returns accountId apiToken listId listName (w : world Pl) :
  ∃ r w', syncGatewayListFromKV accountId apiToken listId listName w = (Returned r, w').
Proof.
  destruct (syncGatewayListFromKV_run_effects accountId apiToken listId listName w)
    as (r & w' & _ & _ & _ & Hrun & _). by exists r, w'.
Qed.

Lemma handleRequest_cycle_returns accountId apiToken high medium low (w : world Pl) :
  ∃ r w', handleRequest_cycle accountId apiToken high medium low w = (Returned r, w').
Proof.
  unfold handleRequest_cycle. rewrite run_bind.
  destruct (fetchAllUserRiskScores_returns accountId apiToken w) as [rf Hrf].
  destruct (fetchAllUserRiskScores accountId apiToken w) as [o w1]. cbn [fst] in Hrf. subst o.
  destruct (negb (rf_success rf)); [by eexists _, _|].
  rewrite run_bind, storeExpectedStateInKV_run.
  rewrite run_bind, storeExpectedStateInKV_run.
  rewrite run_bind, storeExpectedStateInKV_run.
  rewrite run_bind.
  match goal with |- context [syncGatewayListFromKV ?a ?t ?l ?n ?w0] =>
    destruct (syncGatewayListFromKV_returns a t l n w0) as (r1 & w2 & ->) end.
  rewrite run_bind.
  destruct (syncGatewayListFromKV_returns accountId apiToken medium
              "Medium Risk Users - New" w2) as (r2 & w3 & ->).
  rewrite run_bind.
  destruct (syncGatewayListFromKV_returns accountId apiToken low
              "Low Risk Users - New" w3) as (r3 & w4 & ->).
  by eexists _, _.
Qed.

Lemma handleRequest_steps_returns env accountId apiToken high medium low (w : world Pl) :
  ∃ w', handleRequest_steps env accountId apiToken high medium low w = (Returned None, w').
Proof.
  destruct (USER_RISK_KV env) eqn:Hkv.
  - rewrite handleRequest_steps_bound by done. rewrite run_bind.
    destruct (handleRequest_cycle_returns accountId apiToken high medium low w)
      as (r & w' & ->). by exists w'.
  - rewrite handleRequest_steps_unbound by done. rewrite run_bind.
    destruct (fetchAllUserRiskScores_returns accountId apiToken w) as [rf Hrf].
    destruct (fetchAllUserRiskScores accountId apiToken w) as [o w1]. cbn [fst] in Hrf.
    subst o. by exists w1.
Qed.

(** X13.  With a configuration that is not well formed (a variable absent
    or empty, an account id that is not 32 hexadecimal digits, a token
    that is not 40 or more letters, digits, underscores and dashes, a list
    id that is not 36 hexadecimal digits and dashes), [handleRequest] does
    nothing: no request, no wait, no access to the key-value store.  A
    scheduled run returns nothing and an HTTP request gets a response of
    status 500 with a configuration error.  So whenever [handleRequest]
    has any effect, the configuration is well formed. *)
Theorem handleRequest_checks_configuration env (w : world Pl) :
  (¬ well_formed env →
   handleRequest others notfetch env w = (Returned None, w) ∧
   ∀ pathname, ∃ message,
     handleRequest others (Request pathname) env w
     = (Returned (Some (Reply 500 json_reply_headers (BodyConfigurationError message))), w)) ∧
  (∀ request, (handleRequest others request env w).2 ≠ w → well_formed env).
Proof.
  assert (¬ well_formed env →
          ∀ request, ∃ message,
            handleRequest others request env w
            = (Returned (configuration_error request message), w)) as Hgate.
  { intros Hbad request. rewrite handleRequest_unfold.
    destruct (handleRequest_body_misconfigured (handleRequest_depth others 1) request env Hbad)
      as [message ->].
    by exists message. }
  split.
  - intros Hbad. split.
    + destruct (Hgate Hbad notfetch) as [message Hrun]. exact Hrun.
    + intros pathname. destruct (Hgate Hbad (Request pathname)) as [message Hrun].
      by exists message.
  - intros request Heffect.
    destruct (validateEnvironmentVariables env) eqn:Henv;
      destruct (validateListId (HIGH_RISK_LIST_ID env) "high risk") eqn:Hh;
      destruct (validateListId (MEDIUM_RISK_LIST_ID env) "medium risk") eqn:Hm;
      destruct (validateListId (LOW_RISK_LIST_ID env) "low risk") eqn:Hl;
      first [ by apply validators_pass
            | assert (¬ well_formed env) as Hbad
                by (rewrite validators_pass, Henv, Hh, Hm, Hl; intros (? & ? & ? & ?); done);
              destruct (Hgate Hbad request) as [message' Hrun];
              rewrite Hrun in Heffect; cbn [snd] in Heffect; done ].
Qed.

(** X14.  With a well-formed configuration that has the namespace binding,
    a scheduled run of [handleRequest] is the cycle of the reconciliation
    and returns nothing.  An HTTP request whose path is none of the routes
    does exactly the same: it runs the whole cycle and gets no
    [Response]. *)
Theorem handleRequest_runs_the_cycle accountId apiToken high medium low (w : world Pl) :
  well_formed (WorkerEnv (Some accountId) (Some apiToken) (Some high) (Some medium)
                 (Some low) true) →
  handleRequest others notfetch
    (WorkerEnv (Some accountId) (Some apiToken) (Some high) (Some medium) (Some low) true) w
  = (handleRequest_cycle accountId apiToken high medium low ≫= λ _, mret None) w ∧
  (∃ w', handleRequest others notfetch
           (WorkerEnv (Some accountId) (Some apiToken) (Some high) (Some medium) (Some low)
              true) w
         = (Returned None, w')) ∧
  ∀ pathname, ¬ routed pathname →
    handleRequest others (Request pathname)
      (WorkerEnv (Some accountId) (Some apiToken) (Some high) (Some medium) (Some low) true) w
    = handleRequest others notfetch
        (WorkerEnv (Some accountId) (Some apiToken) (Some high) (Some medium) (Some low)
           true) w.
Proof.
  intros Hwf. rewrite handleRequest_unfold.
  rewrite handleRequest_body_notfetch by done.
  cbn [CLOUDFLARE_ACCOUNT_ID CLOUDFLARE_API_TOKEN HIGH_RISK_LIST_ID MEDIUM_RISK_LIST_ID
       LOW_RISK_LIST_ID show default from_option id].
  split_and!.
  - by apply handleRequest_steps_bound.
  - apply handleRequest_steps_returns.
  - intros pathname Hno. rewrite handleRequest_unfold.
    by rewrite handleRequest_body_unrouted.
Qed.

Lemma handleRequest_body_force_cleanup self env :
  well_formed env →
  handleRequest_body others self (Request "/api/force-cleanup") env
  = (_ ← self notfetch
           (WorkerEnv (Some (show (CLOUDFLARE_ACCOUNT_ID env)))
              (Some (show (CLOUDFLARE_API_TOKEN env))) (Some (show (HIGH_RISK_LIST_ID env)))
              (Some (show (MEDIUM_RISK_LIST_ID env))) (Some (show (LOW_RISK_LIST_ID env)))
              (USER_RISK_KV env));
     mret (Some (Reply 200 cors_reply_headers BodyForceCleanup))).
Proof. intros Hwf. unfold handleRequest_body. past_checks Hwf. reflexivity. Qed.

Lemma handleRequest_body_update_risk_lists self env :
  well_formed env →
  handleRequest_body others self (Request "/api/update-risk-lists") env
  = (Some <$> updateRiskListsAPI self (show (CLOUDFLARE_ACCOUNT_ID env))
                (show (CLOUDFLARE_API_TOKEN env)) (show (HIGH_RISK_LIST_ID env))
                (show (MEDIUM_RISK_LIST_ID env)) (show (LOW_RISK_LIST_ID env)) env).
Proof. intros Hwf. unfold handleRequest_body. past_checks Hwf. reflexivity. Qed.

(** X16.  On the route [/api/force-cleanup] [handleRequest] runs the cycle
    of a scheduled run and then answers with status 200 and [success:
    true], whatever the cycle did: also when the fetch of the risk scores
    failed, or a sync, the response says that the lists were
    synchronized. *)
Theorem handleRequest_force_cleanup accountId apiToken high medium low kv (w : world Pl) :
  well_formed (WorkerEnv (Some accountId) (Some apiToken) (Some high) (Some medium)
                 (Some low) kv) →
  ∃ w',
    handleRequest others (Request "/api/force-cleanup")
      (WorkerEnv (Some accountId) (Some apiToken) (Some high) (Some medium) (Some low) kv) w
    = (Returned (Some (Reply 200 cors_reply_headers BodyForceCleanup)), w') ∧
    handleRequest others notfetch
      (WorkerEnv (Some accountId) (Some apiToken) (Some high) (Some medium) (Some low) kv) w
    = (Returned None, w').
Proof.
  intros Hwf. rewrite !handleRequest_unfold.
  rewrite handleRequest_body_force_cleanup, handleRequest_body_notfetch by done.
  cbn [CLOUDFLARE_ACCOUNT_ID CLOUDFLARE_API_TOKEN HIGH_RISK_LIST_ID MEDIUM_RISK_LIST_ID
       LOW_RISK_LIST_ID USER_RISK_KV show default from_option id].
  rewrite run_bind, handleRequest_depth_1, handleRequest_body_notfetch by done.
  cbn [CLOUDFLARE_ACCOUNT_ID CLOUDFLARE_API_TOKEN HIGH_RISK_LIST_ID MEDIUM_RISK_LIST_ID
       LOW_RISK_LIST_ID USER_RISK_KV show default from_option id].
  destruct (handleRequest_steps_returns
              (WorkerEnv (Some accountId) (Some apiToken) (Some high) (Some medium)
                 (Some low) kv) accountId apiToken high medium low w) as [w' ->].
  by exists w'.
Qed.

Lemma fetchAllUserRiskScores_reads accountId apiToken (w : world Pl) :
  ∃ rf w' evs,
    fetchAllUserRiskScores accountId apiToken w = (Returned rf, w') ∧
    w_kv w' = w_kv w ∧ w_log w' = w_log w ++ evs ∧
    Forall (page_event (risk_url accountId) (get_options apiToken) 1 100) evs.
Proof.
  destruct (fetchAllUserRiskScores_effects accountId apiToken w)
    as (rf & w' & evs & Hrun & Hlog & Hall & _).
  pose proof (keeps_fetchAllUserRiskScores (λ _ _, True) (PreOrder0 := always_preorder)
                (λ _ _ _ _, I) (λ _ _, I) accountId apiToken w) as (_ & _ & Hkv).
  rewrite Hrun in Hkv. by exists rf, w', evs.
Qed.

(** X17.  The route [/api/update-risk-lists] updates nothing.  Whatever the
    platform answers, all it does is to request pages of the risk
    summary (twice over when the first fetch succeeds) and to wait: it
    sends no request to any list and does not read or write the key-value
    store, because the [env] it hands to [handleRequest] has no
    [USER_RISK_KV] and every snapshot write and every sync fails on it.
    It still answers with status 200 and the counts of the users per
    tier whenever the first fetch succeeded, and with status 500 when it
    failed. *)
Theorem handleRequest_update_risk_lists accountId apiToken high medium low kv
    (w : world Pl) :
  well_formed (WorkerEnv (Some accountId) (Some apiToken) (Some high) (Some medium)
                 (Some low) kv) →
  ∃ rf w1 r w' evs,
    fetchAllUserRiskScores accountId apiToken w = (Returned rf, w1) ∧
    handleRequest others (Request "/api/update-risk-lists")
      (WorkerEnv (Some accountId) (Some apiToken) (Some high) (Some medium) (Some low) kv) w
    = (Returned (Some r), w') ∧
    w_kv w' = w_kv w ∧ w_log w' = w_log w ++ evs ∧
    Forall (page_event (risk_url accountId) (get_options apiToken) 1 100) evs ∧
    r = (if rf_success rf then
           Reply 200 cors_reply_headers
             (BodyRiskListsUpdated (length (default [] (rf_users rf)))
                (length (usersAtLevel "high" (default [] (rf_users rf))))
                (length (usersAtLevel "medium" (default [] (rf_users rf))))
                (length (usersAtLevel "low" (default [] (rf_users rf)))))
         else
           Reply 500 cors_reply_headers
             (BodyError "Failed to fetch user risk scores before updating lists"
                (ErrList (rf_errors rf)))).
Proof.
  intros Hwf. rewrite handleRequest_unfold.
  rewrite handleRequest_body_update_risk_lists by done.
  cbn [CLOUDFLARE_ACCOUNT_ID CLOUDFLARE_API_TOKEN HIGH_RISK_LIST_ID MEDIUM_RISK_LIST_ID
       LOW_RISK_LIST_ID USER_RISK_KV show default from_option id].
  destruct (fetchAllUserRiskScores_reads accountId apiToken w)
    as (rf & w1 & evs1 & Hrun1 & Hkv1 & Hlog1 & Hall1).
  exists rf, w1. rewrite run_fmap. unfold updateRiskListsAPI.
  rewrite run_try_catch, run_bind, Hrun1.
  destruct (rf_success rf) eqn:Hok; cbn [negb].
  - rewrite run_bind, handleRequest_depth_1, handleRequest_body_notfetch by exact Hwf.
    cbn [CLOUDFLARE_ACCOUNT_ID CLOUDFLARE_API_TOKEN HIGH_RISK_LIST_ID MEDIUM_RISK_LIST_ID
         LOW_RISK_LIST_ID USER_RISK_KV show default from_option id].
    rewrite handleRequest_steps_unbound by done. rewrite run_bind.
    destruct (fetchAllUserRiskScores_reads accountId apiToken w1)
      as (rf2 & w2 & evs2 & Hrun2 & Hkv2 & Hlog2 & Hall2).
    rewrite Hrun2. eexists _, w2, (evs1 ++ evs2). split; [done|]. split; [reflexivity|].
    rewrite Hkv2, Hkv1, Hlog2, Hlog1, app_assoc, Forall_app. done.
  - eexists _, w1, evs1. split; [done|]. split; [reflexivity|]. done.
Qed.

(** X18.  [getUserRiskScoresAPI] only reads: it requests pages of the risk
    summary and waits.  When the fetch fails it answers with status 500
    and the errors of the fetch.  Otherwise it answers with status 200,
    the users of the three tiers and their counts: the three counts add
    up to the total less the number of records whose level is none of
    high, medium and low, which are listed in no tier. *)
Theorem getUserRiskScoresAPI_summary accountId apiToken (w : world Pl) :
  ∃ rf r w' evs,
    fetchAllUserRiskScores accountId apiToken w = (Returned rf, w') ∧
    getUserRiskScoresAPI accountId apiToken w = (Returned r, w') ∧
    w_kv w' = w_kv w ∧ w_log w' = w_log w ++ evs ∧
    Forall (page_event (risk_url accountId) (get_options apiToken) 1 100) evs ∧
    (rf_success rf = false →
     r = Reply 500 cors_reply_headers
           (BodyError "Failed to fetch user risk scores" (ErrList (rf_errors rf)))) ∧
    (rf_success rf = true →
     ∃ n_high n_medium n_low,
       r = Reply 200 cors_reply_headers
             (BodyUserRiskScores (usersAtLevel "high" (default [] (rf_users rf)))
                (usersAtLevel "medium" (default [] (rf_users rf)))
                (usersAtLevel "low" (default [] (rf_users rf)))
                (length (default [] (rf_users rf))) n_high n_medium n_low
                (rf_pagination rf)) ∧
       n_high + n_medium + n_low + length (unclassified (default [] (rf_users rf)))
       = length (default [] (rf_users rf))).
Proof.
  destruct (fetchAllUserRiskScores_reads accountId apiToken w)
    as (rf & w1 & evs1 & Hrun1 & Hkv1 & Hlog1 & Hall1).
  exists rf. unfold getUserRiskScoresAPI. rewrite run_try_catch, run_bind, Hrun1.
  destruct (rf_success rf) eqn:Hok; cbn [negb].
  - eexists _, w1, evs1. split; [done|]. split; [reflexivity|].
    split_and!; try done. intros _. eexists _, _, _. split; [reflexivity|].
    apply usersAtLevel_count.
  - eexists _, w1, evs1. split; [done|]. split; [reflexivity|].
    split_and!; done.
Qed.

(** X15.  With a well-formed configuration that lacks the namespace
    binding, every snapshot write and every sync fails at once, with the
    TypeError of reading a member of [undefined] and no effect; so a
    scheduled run only fetches the risk scores: no list is read or
    patched and nothing is stored. *)
Theorem handleRequest_without_namespace accountId apiToken high medium low (w : world Pl) :
  well_formed (WorkerEnv (Some accountId) (Some apiToken) (Some high) (Some medium)
                 (Some low) false) →
  (∀ listId users level (w0 : world Pl),
     storeExpectedStateInKV_in
       (WorkerEnv (Some accountId) (Some apiToken) (Some high) (Some medium) (Some low) false)
       listId users level w0
     = (Returned (StoreResult false None (Some TypeError_undefined_put)), w0)) ∧
  (∀ listId listName (w0 : world Pl),
     syncGatewayListFromKV_in
       (WorkerEnv (Some accountId) (Some apiToken) (Some high) (Some medium) (Some low) false)
       accountId apiToken listId listName w0
     = (Returned (sync_failed (ErrMessage TypeError_undefined_get)), w0)) ∧
  handleRequest others notfetch
    (WorkerEnv (Some accountId) (Some apiToken) (Some high) (Some medium) (Some low) false) w
  = (fetchAllUserRiskScores accountId apiToken ≫= λ _, mret None) w ∧
  ∃ w' evs,
    handleRequest others notfetch
      (WorkerEnv (Some accountId) (Some apiToken) (Some high) (Some medium) (Some low)
         false) w
    = (Returned None, w') ∧
    w_kv w' = w_kv w ∧ w_log w' = w_log w ++ evs ∧
    Forall (page_event (risk_url accountId) (get_options apiToken) 1 100) evs.
Proof.
  intros Hwf.
  assert (handleRequest others notfetch
            (WorkerEnv (Some accountId) (Some apiToken) (Some high) (Some medium) (Some low)
               false) w
          = (fetchAllUserRiskScores accountId apiToken ≫= λ _, mret None) w) as Hrun.
  { rewrite handleRequest_unfold, handleRequest_body_notfetch by done.
    cbn [CLOUDFLARE_ACCOUNT_ID CLOUDFLARE_API_TOKEN HIGH_RISK_LIST_ID MEDIUM_RISK_LIST_ID
         LOW_RISK_LIST_ID USER_RISK_KV show default from_option id].
    by apply handleRequest_steps_unbound. }
  split_and!; [reflexivity|reflexivity|exact Hrun|].
  rewrite Hrun, run_bind.
  destruct (fetchAllUserRiskScores_reads accountId apiToken w)
    as (rf & w' & evs & -> & Hkv & Hlog & Hall).
  by exists w', evs.
Qed.

End Requests.

(** ** The test routes *)

(** The snapshot [storeExpectedStateInKV] writes on the simulated
    platform. *)
Lemma length_filter_le {A} (P : A → Prop) `{∀ x, Decision (P x)} (l : list A) :
  length (filter P l) ≤ length l.
Proof.
  induction l as [|a l IH]; [done|]. rewrite filter_cons.
  destruct (decide (P a)); cbn [length]; lia.
Qed.

Lemma length_emailsToAdd_le E A : length (emailsToAdd E A) ≤ length E.
Proof. unfold emailsToAdd. apply List.filter_length_le. Qed.

Lemma length_patched_le (E A : list string) :
  length (filter (λ v, v ∉ emailsToRemove (newSet E) (newSet A)) A
          ++ emailsToAdd (newSet E) (newSet A))
  ≤ length A + length E.
Proof.
  rewrite length_app.
  pose proof (length_filter_le (λ v, v ∉ emailsToRemove (newSet E) (newSet A)) A).
  pose proof (length_emailsToAdd_le (newSet E) (newSet A)).
  pose proof (length_newSet E). lia.
Qed.

(** One round of the test routes against the simulated store: the
    snapshot of [users] is written, the list is reconciled with it, and
    after a wait the list is fetched. *)
Lemma listStore_round accountId apiToken listId listName users level t
    (w : world listStore) items :
  ls_lists (w_plat w) !! listId = Some items →
  length items + length users ≤ 50 * 100 →
  ∃ sr wa r wb wc fr w' items',
    storeExpectedStateInKV listId users level w = (Returned sr, wa) ∧
    syncGatewayListFromKV accountId apiToken listId listName wa = (Returned r, wb) ∧
    sleep t wb = (Returned tt, wc) ∧
    fetchGatewayListItems accountId apiToken listId None wc = (Returned fr, w') ∧
    r = (if (0 <? length (emailsToAdd (newSet (email <$> users)) (newSet (value <$> items))))
            || (0 <? length (emailsToRemove (newSet (email <$> users))
                               (newSet (value <$> items))))
         then
           patched_result (kv_value (snapshot (email <$> users) level))
             (emailsToAdd (newSet (email <$> users)) (newSet (value <$> items)))
             (emailsToRemove (newSet (email <$> users)) (newSet (value <$> items)))
         else in_sync_result (kv_value (snapshot (email <$> users) level))) ∧
    lf_items fr = items' ∧
    value <$> items'
    = filter (λ v, v ∉ emailsToRemove (newSet (email <$> users)) (newSet (value <$> items)))
        (value <$> items)
      ++ emailsToAdd (newSet (email <$> users)) (newSet (value <$> items)) ∧
    ls_lists (w_plat w') !! listId = Some items' ∧
    (∀ other, other ≠ listId →
       ls_lists (w_plat w') !! other = ls_lists (w_plat w) !! other) ∧
    ls_users (w_plat w') = ls_users (w_plat w) ∧
    w_kv w' = <[kvKey listId := snapshot (email <$> users) level]> (w_kv w) ∧
    w_plat wc = w_plat w' ∧ w_kv wc = w_kv w'.
Proof.
  intros Hlist Hlen. destruct w as [s kv log]. cbn [w_plat w_kv] in *.
  rewrite storeExpectedStateInKV_run. cbn [w_plat w_kv w_log plat_now listStore_platform].
  set (expected := ExpectedState (email <$> users) (Some level) (Some a_timestamp)
                     (Some (length users)) None None None).
  assert (expected = kv_value (snapshot (email <$> users) level)) as Hexp.
  { unfold expected, snapshot. cbn. by rewrite length_fmap. }
  assert (KvEntry expected None = snapshot (email <$> users) level) as Hsnap.
  { unfold expected, snapshot. by rewrite length_fmap. }
  destruct (listStore_sync accountId apiToken listId listName s
              (<[kvKey listId := KvEntry expected None]> kv)
              (log ++ [EvKvPut (kvKey listId)]) expected None items)
    as (r & wb & fr0 & wf & _ & _ & _ & Hrun & Hr & Hkvb & _ & Hu & Ho & items' & Hl' & Hv');
    [done|lia|apply lookup_insert_eq|].
  assert (length items' ≤ 50 * 100) as Hlen'.
  { rewrite <- (length_fmap value), Hv', length_app.
    pose proof (length_filter_le
                  (λ v, v ∉ emailsToRemove (newSet (emails expected))
                              (newSet (value <$> items))) (value <$> items)) as H1.
    pose proof (length_emailsToAdd_le (newSet (emails expected))
                  (newSet (value <$> items))) as H2.
    pose proof (length_newSet (emails expected)) as H3.
    rewrite length_fmap in H1. cbn [emails expected] in *. rewrite length_fmap in H3. lia. }
  destruct (listStore_fetchGatewayListItems accountId apiToken listId None
              (World (plat_sleep (w_plat wb) t) (w_kv wb) (w_log wb ++ [EvSleep t])) items')
    as (fr & w' & Hfetch & Hitems & _ & _ & Hplat & Hkv'); [exact Hl'|exact Hlen'|].
  cbn [w_plat w_kv plat_sleep listStore_platform] in *.
  eexists _, _, r, wb, _, fr, w', items'.
  split; [reflexivity|]. split; [exact Hrun|]. split; [reflexivity|].
  split; [exact Hfetch|]. cbn [w_plat w_kv]. rewrite Hplat, Hkv', Hkvb, <- Hexp, Hsnap.
  split_and!; done.
Qed.

Lemma sync_outcome_success expected toAdd toRemove (b : bool) :
  sync_success (if b then patched_result expected toAdd toRemove
                else in_sync_result expected) = true.
Proof. by destruct b. Qed.

Lemma emptied_by_empty_snapshot (values : list string) (items' : list listItem) :
  value <$> items'
  = filter (λ v, v ∉ emailsToRemove (newSet (email <$> [])) (newSet values)) values
    ++ emailsToAdd (newSet (email <$> [])) (newSet values) →
  items' = [].
Proof.
  intros Hv. apply fmap_nil_inv with (f := value). rewrite Hv.
  cbn [fmap list_fmap]. rewrite emailsToRemove_nil.
  replace (emailsToAdd (newSet []) (newSet values)) with (@nil string) by done.
  rewrite app_nil_r. apply filter_none. intros v Hv' Hnot. apply Hnot.
  by apply elem_of_newSet.
Qed.

(** X20.  Against the simulated store, the route of the snapshot-sync test
    replaces the membership of the list it is given (the medium list):
    for a list of at most 4998 items, whatever they are, the list holds
    the two test emails after the first sync and is empty at the end,
    the snapshot of the list is left empty, and the response reports
    [testPassed: true]. *)
Theorem testKVSync_empties_the_list accountId apiToken listId env (s : listStore) kv log
    items :
  USER_RISK_KV env = true →
  ls_lists s !! listId = Some items → length items + 2 ≤ 50 * 100 →
  ∃ initialSync afterSync removalSync w',
    testKVSync accountId apiToken listId env (World s kv log)
    = (Returned (Reply 200 cors_reply_headers
                   (BodyKVSyncTest initialSync afterSync removalSync (ItemsView 0 []) true)),
       w') ∧
    op_success initialSync = true ∧ op_success removalSync = true ∧
    (∀ x, x ∈ view_items afterSync
          ↔ x ∈ ["kvtest1@example.com"; "kvtest2@example.com"]%string) ∧
    ls_lists (w_plat w') !! listId = Some [] ∧
    w_kv w' !! kvKey listId = Some (snapshot [] "medium").
Proof.
  intros Henv Hlist Hlen. destruct env as [? ? ? ? ? bound]. cbn in Henv. subst bound.
  unfold testKVSync, storeExpectedStateInKV_in, syncGatewayListFromKV_in.
  cbn [USER_RISK_KV]. rewrite run_try_catch.
  destruct (listStore_round accountId apiToken listId medium_list_name
              [email_only "kvtest1@example.com"; email_only "kvtest2@example.com"]
              "medium" (Millis 3000) (World s kv log) items)
    as (sr1 & wa1 & r1 & wb1 & wc1 & fr1 & w1 & items1 & Hst1 & Hsy1 & Hsl1 & Hfe1
        & Hr1 & Hit1 & Hv1 & Hl1 & _ & _ & Hkv1 & _); [done|cbn [length]; lia|].
  rewrite run_bind, Hst1, run_bind, Hsy1, run_bind, Hsl1, run_bind, Hfe1.
  assert (length items1 ≤ length items + 2) as Hlen1.
  { rewrite <- (length_fmap value), Hv1.
    etransitivity; [apply length_patched_le|]. by rewrite !length_fmap. }
  destruct (listStore_round accountId apiToken listId medium_list_name [] "medium"
              (Millis 3000) w1 items1)
    as (sr2 & wa2 & r2 & wb2 & wc2 & fr2 & w2 & items2 & Hst2 & Hsy2 & Hsl2 & Hfe2
        & Hr2 & Hit2 & Hv2 & Hl2 & _ & _ & Hkv2 & _); [done|cbn [length]; lia|].
  rewrite run_bind, Hst2, run_bind, Hsy2, run_bind, Hsl2, run_bind, Hfe2.
  apply emptied_by_empty_snapshot in Hv2. rewrite Hv2 in Hit2, Hl2.
  unfold values_view at 2. rewrite Hit2. cbn [length fmap list_fmap Nat.eqb].
  eexists _, _, _, w2. split; [reflexivity|].
  unfold sync_summary, values_view. cbn [op_success view_items].
  rewrite Hr1, Hr2, !sync_outcome_success, Hit1, Hkv2, lookup_insert_eq.
  split_and!; try done.
  intros x. rewrite Hv1, elem_of_patched. reflexivity.
Qed.

(** X19.  Against the simulated store, the route of the removal test
    replaces the list it is given by the one test email and then by
    nothing: whatever the list held, it is empty at the end, and the
    response reports [testPassed: true].  The snapshot of the list is not
    touched. *)
Theorem testUserRemoval_empties_the_list accountId apiToken listId (s : listStore) kv log
    items :
  ls_lists s !! listId = Some items →
  ∃ w',
    testUserRemoval accountId apiToken listId (World s kv log)
    = (Returned
         (Reply 200 cors_reply_headers
            (BodyUserRemovalTest (StepResult true [])
               (ItemsView 1 [ListItem "test@example.com"
                               (Some "Test user for removal testing"%string)])
               (StepResult true []) (ItemsView 0 []) true)), w') ∧
    w_plat w' = ListStore (ls_users s) (<[listId := []]> (ls_lists s)) ∧
    w_kv w' = kv.
Proof.
  intros Hlist. unfold testUserRemoval. rewrite run_try_catch, run_bind.
  set (test_item := ListItem "test@example.com" (Some "Test user for removal testing"%string)).
  set (s1 := ListStore (ls_users s) (<[listId := [test_item]]> (ls_lists s))).
  rewrite (makeApiRequest_once_eq _ _ _ _ (ok_response RAbsent None) s1);
    [|cbn; by rewrite Hlist|cbn; lia|cbn; lia|cbv; lia].
  rewrite run_bind, run_response_json. cbn [ok_response json_body].
  rewrite run_bind. unfold sleep at 1. cbn [w_plat w_kv w_log plat_sleep listStore_platform].
  rewrite run_bind.
  match goal with |- context [fetchGatewayListItems _ _ _ None ?w0] =>
    destruct (listStore_fetchGatewayListItems accountId apiToken listId None w0 [test_item])
      as (fr1 & w1 & Hfe1 & Hit1 & _ & _ & Hplat1 & Hkv1);
      [cbn; apply lookup_insert_eq|cbn; lia|] end.
  rewrite Hfe1. cbn [w_plat w_kv] in Hplat1, Hkv1.
  rewrite run_bind. unfold sleep at 1. rewrite Hplat1, Hkv1.
  cbn [plat_sleep listStore_platform]. rewrite run_bind.
  set (s2 := ListStore (ls_users s) (<[listId := []]> (ls_lists s))).
  rewrite (makeApiRequest_once_eq _ _ _ _ (ok_response RAbsent None) s2);
    [|cbn; rewrite lookup_insert_eq; unfold s2; by rewrite insert_insert_eq
     |cbn; lia|cbn; lia|cbv; lia].
  rewrite run_bind, run_response_json. cbn [ok_response json_body].
  rewrite run_bind. unfold sleep at 1. cbn [w_plat w_kv w_log plat_sleep listStore_platform].
  rewrite run_bind.
  match goal with |- context [fetchGatewayListItems _ _ _ None ?w0] =>
    destruct (listStore_fetchGatewayListItems accountId apiToken listId None w0 [])
      as (fr2 & w2 & Hfe2 & Hit2 & _ & _ & Hplat2 & Hkv2);
      [cbn; apply lookup_insert_eq|cbn; lia|] end.
  rewrite Hfe2. cbn [w_plat w_kv] in Hplat2, Hkv2.
  exists w2. unfold items_view. rewrite Hit1, Hit2. cbn [length Nat.eqb data_success
    data_errors]. done.
Qed.

(** X21.  Against the simulated store, the route of the PATCH test gives
    one report whatever the list it is given held (up to 5000 items): the
    list is emptied, filled with two test emails, changed to three (two
    added, one removed), and emptied again, the three reported operations
    each by PATCH; the response reports [testPassed: true], and the list
    and its snapshot are left empty. *)
Theorem testPatchMethod_report accountId apiToken listId env (s : listStore) kv log items :
  USER_RISK_KV env = true →
  ls_lists s !! listId = Some items → length items ≤ 50 * 100 →
  ∃ w',
    testPatchMethod accountId apiToken listId env (World s kv log)
    = (Returned
         (Reply 200 cors_reply_headers
            (BodyPatchTest
               (OpSummary true (Some "PATCH"%string) (Some 2) (Some 0))
               (ItemsView 2 ["patch1@example.com"; "patch2@example.com"]%string)
               (OpSummary true (Some "PATCH"%string) (Some 2) (Some 1))
               (ItemsView 3 ["patch2@example.com"; "patch3@example.com";
                             "patch4@example.com"]%string)
               (OpSummary true (Some "PATCH"%string) (Some 0) (Some 3))
               (ItemsView 0 []) true)), w') ∧
    ls_lists (w_plat w') !! listId = Some [] ∧
    w_kv w' !! kvKey listId = Some (snapshot [] "medium").
Proof.
  intros Henv Hlist Hlen. destruct env as [? ? ? ? ? bound]. cbn in Henv. subst bound.
  unfold testPatchMethod, storeExpectedStateInKV_in, syncGatewayListFromKV_in.
  cbn [USER_RISK_KV]. rewrite run_try_catch.
  (* the list is emptied *)
  destruct (listStore_round accountId apiToken listId medium_list_name [] "medium"
              (Millis 2000) (World s kv log) items)
    as (sr0 & wa0 & r0 & wb0 & wc0 & fr0 & w0 & items0 & Hst0 & Hsy0 & Hsl0 & _
        & _ & _ & Hv0 & Hl0 & _ & _ & _ & Hp0 & _); [done|cbn [length]; lia|].
  rewrite run_bind, Hst0, run_bind, Hsy0, run_bind, Hsl0.
  apply emptied_by_empty_snapshot in Hv0. rewrite Hv0, <- Hp0 in Hl0.
  (* two emails are added *)
  destruct (listStore_round accountId apiToken listId medium_list_name
              [email_only "patch1@example.com"; email_only "patch2@example.com"]
              "medium" (Millis 3000) wc0 [])
    as (sr1 & wa1 & r1 & wb1 & wc1 & fr1 & w1 & items1 & Hst1 & Hsy1 & Hsl1 & Hfe1
        & Hr1 & Hit1 & Hv1 & Hl1 & _ & _ & _); [done|cbn [length]; lia|].
  rewrite run_bind, Hst1, run_bind, Hsy1, run_bind, Hsl1, run_bind, Hfe1.
  assert (value <$> items1 = ["patch1@example.com"; "patch2@example.com"]%string) as Hv1'
    by (rewrite Hv1; vm_compute; reflexivity).
  (* one is removed and two are added *)
  destruct (listStore_round accountId apiToken listId medium_list_name
              [email_only "patch2@example.com"; email_only "patch3@example.com";
               email_only "patch4@example.com"]
              "medium" (Millis 3000) w1 items1)
    as (sr2 & wa2 & r2 & wb2 & wc2 & fr2 & w2 & items2 & Hst2 & Hsy2 & Hsl2 & Hfe2
        & Hr2 & Hit2 & Hv2 & Hl2 & _ & _ & _);
    [done|rewrite <- (length_fmap value items1), Hv1'; cbn [length]; lia|].
  rewrite run_bind, Hst2, run_bind, Hsy2, run_bind, Hsl2, run_bind, Hfe2.
  rewrite Hv1' in Hr2, Hv2.
  assert (value <$> items2 = ["patch2@example.com"; "patch3@example.com";
                              "patch4@example.com"]%string) as Hv2'
    by (rewrite Hv2; vm_compute; reflexivity).
  (* the list is emptied again *)
  destruct (listStore_round accountId apiToken listId medium_list_name [] "medium"
              (Millis 3000) w2 items2)
    as (sr3 & wa3 & r3 & wb3 & wc3 & fr3 & w3 & items3 & Hst3 & Hsy3 & Hsl3 & Hfe3
        & Hr3 & Hit3 & Hv3 & Hl3 & _ & _ & Hkv3 & _);
    [done|rewrite <- (length_fmap value items2), Hv2'; cbn [length]; lia|].
  rewrite run_bind, Hst3, run_bind, Hsy3, run_bind, Hsl3, run_bind, Hfe3.
  rewrite Hv2' in Hr3. apply emptied_by_empty_snapshot in Hv3. rewrite Hv3 in Hit3, Hl3.
  exists w3. unfold values_view, patch_summary.
  rewrite Hit1, Hit2, Hit3, <- (length_fmap value items1), <- (length_fmap value items2).
  rewrite Hv1', Hv2', Hr1, Hr2, Hr3, Hkv3, lookup_insert_eq.
  split_and!; [|done|done]. vm_compute. reflexivity.
Qed.

(** ** The entry point and the routes on concrete inputs *)

Lemma good_env_well_formed : well_formed good_env.
Proof. apply validators_pass. vm_compute. done. Qed.

Lemma bad_env_not_well_formed : ¬ well_formed bad_env.
Proof. intros (Henv & _)%validators_pass. vm_compute in Henv. discriminate Henv. Qed.

Lemma handleRequest_checks_configuration_witness :
  handleRequest not_modelled notfetch bad_env (fresh_world two_tier_store)
  = (Returned None, fresh_world two_tier_store) ∧
  ∃ message,
    handleRequest not_modelled (Request "/api/force-cleanup") bad_env
      (fresh_world two_tier_store)
    = (Returned (Some (Reply 500 json_reply_headers (BodyConfigurationError message))),
       fresh_world two_tier_store).
Proof.
  destruct (handleRequest_checks_configuration not_modelled bad_env
              (fresh_world two_tier_store)) as [Hgate _].
  destruct (Hgate bad_env_not_well_formed) as [Hscheduled Hrequest].
  split; [exact Hscheduled|apply Hrequest].
Defined.

Lemma handleRequest_without_namespace_witness :
  ∃ w' evs,
    handleRequest not_modelled notfetch
      (WorkerEnv (Some acct) (Some api_token) (Some list_h) (Some list_m) (Some list_l)
         false) (fresh_world two_tier_store)
    = (Returned None, w') ∧
    w_kv w' = ∅ ∧ w_log w' = [] ++ evs ∧
    Forall (page_event (risk_url acct) (get_options api_token) 1 100) evs.
Proof.
  destruct (handleRequest_without_namespace not_modelled acct api_token list_h list_m
              list_l (fresh_world two_tier_store)) as (_ & _ & _ & Hrun).
  - apply good_env_well_formed.
  - exact Hrun.
Defined.

Lemma handleRequest_runs_the_cycle_witness :
  handleRequest not_modelled notfetch good_env (fresh_world two_tier_store)
  = (handleRequest_cycle acct api_token list_h list_m list_l ≫= λ _, mret None)
      (fresh_world two_tier_store) ∧
  (∃ w', handleRequest not_modelled notfetch good_env (fresh_world two_tier_store)
         = (Returned None, w')) ∧
  handleRequest not_modelled (Request "/robots.txt") good_env (fresh_world two_tier_store)
  = handleRequest not_modelled notfetch good_env (fresh_world two_tier_store).
Proof.
  destruct (handleRequest_runs_the_cycle not_modelled acct api_token list_h list_m list_l
              (fresh_world two_tier_store)) as (Hcycle & Hnone & Hunrouted).
  - apply good_env_well_formed.
  - split; [exact Hcycle|]. split; [exact Hnone|]. apply Hunrouted.
    unfold routed, routes. intros [Hfav|Hin]; [discriminate Hfav|].
    repeat (apply elem_of_cons in Hin as [Hin|Hin]; [discriminate Hin|]).
    by apply elem_of_nil in Hin.
Defined.

Lemma handleRequest_force_cleanup_witness :
  ∃ w',
    handleRequest not_modelled (Request "/api/force-cleanup") good_env
      (fresh_world (ConstantEndpoint (NetResponse unavailable)))
    = (Returned (Some (Reply 200 cors_reply_headers BodyForceCleanup)), w') ∧
    handleRequest not_modelled notfetch good_env
      (fresh_world (ConstantEndpoint (NetResponse unavailable)))
    = (Returned None, w').
Proof.
  apply (handleRequest_force_cleanup not_modelled acct api_token list_h list_m list_l true
           (fresh_world (ConstantEndpoint (NetResponse unavailable)))).
  apply good_env_well_formed.
Defined.

Lemma handleRequest_update_risk_lists_witness :
  ∃ rf w1 r w' evs,
    fetchAllUserRiskScores acct api_token (fresh_world two_tier_store) = (Returned rf, w1) ∧
    handleRequest not_modelled (Request "/api/update-risk-lists") good_env
      (fresh_world two_tier_store)
    = (Returned (Some r), w') ∧
    w_kv w' = ∅ ∧ w_log w' = [] ++ evs ∧
    Forall (page_event (risk_url acct) (get_options api_token) 1 100) evs ∧
    r = (if rf_success rf then
           Reply 200 cors_reply_headers
             (BodyRiskListsUpdated (length (default [] (rf_users rf)))
                (length (usersAtLevel "high" (default [] (rf_users rf))))
                (length (usersAtLevel "medium" (default [] (rf_users rf))))
                (length (usersAtLevel "low" (default [] (rf_users rf)))))
         else
           Reply 500 cors_reply_headers
             (BodyError "Failed to fetch user risk scores before updating lists"
                (ErrList (rf_errors rf)))).
Proof.
  apply (handleRequest_update_risk_lists not_modelled acct api_token list_h list_m list_l
           true (fresh_world two_tier_store)).
  apply good_env_well_formed.
Defined.

(** The route on the store of the examples: the response counts one user
    of high risk and one of medium, and the lists are as they were. *)
Example handleRequest_update_risk_lists_example :
  let run := handleRequest not_modelled (Request "/api/update-risk-lists") good_env
               (fresh_world two_tier_store) in
  run.1 = Returned (Some (Reply 200 cors_reply_headers (BodyRiskListsUpdated 2 1 1 0))) ∧
  w_plat run.2 = two_tier_store ∧ w_kv run.2 = ∅.
Proof. cbv zeta. split_and!; vm_compute; reflexivity. Qed.

Lemma getUserRiskScoresAPI_summary_witness :
  (∃ n_high n_medium n_low,
     (getUserRiskScoresAPI acct api_token (fresh_world two_tier_store)).1
     = Returned
         (Reply 200 cors_reply_headers
            (BodyUserRiskScores [RiskUser "a@x.com" "high" 3 ""]
               [RiskUser "b@x.com" "medium" 1 ""] [] 2 n_high n_medium n_low
               (Some (Pagination 2 1 1)))) ∧
     n_high + n_medium + n_low + 0 = 2) ∧
  (getUserRiskScoresAPI acct api_token
     (fresh_world (ConstantEndpoint (NetResponse unavailable)))).1
  = Returned (Reply 500 cors_reply_headers
                (BodyError "Failed to fetch user risk scores"
                   (ErrList [SyntaxError_json]))).
Proof.
  split.
  - destruct (getUserRiskScoresAPI_summary acct api_token (fresh_world two_tier_store))
      as (rf & r & w' & evs & Hfetch & Hrun & _ & _ & _ & _ & Hok).
    apply (f_equal fst) in Hfetch. vm_compute in Hfetch. injection Hfetch as <-.
    destruct Hok as (n_high & n_medium & n_low & -> & Hsum); [reflexivity|].
    exists n_high, n_medium, n_low. rewrite Hrun. split; [reflexivity|exact Hsum].
  - destruct (getUserRiskScoresAPI_summary acct api_token
                (fresh_world (ConstantEndpoint (NetResponse unavailable))))
      as (rf & r & w' & evs & Hfetch & Hrun & _ & _ & _ & Hfail & _).
    apply (f_equal fst) in Hfetch. vm_compute in Hfetch. injection Hfetch as <-.
    rewrite Hrun, Hfail by reflexivity. reflexivity.
Defined.

Lemma testKVSync_empties_the_list_witness :
  ∃ initialSync afterSync removalSync w',
    testKVSync acct api_token list_m good_env (fresh_world two_tier_store)
    = (Returned (Reply 200 cors_reply_headers
                   (BodyKVSyncTest initialSync afterSync removalSync (ItemsView 0 []) true)),
       w') ∧
    op_success initialSync = true ∧ op_success removalSync = true ∧
    (∀ x, x ∈ view_items afterSync
          ↔ x ∈ ["kvtest1@example.com"; "kvtest2@example.com"]%string) ∧
    ls_lists (w_plat w') !! list_m = Some [] ∧
    w_kv w' !! kvKey list_m = Some (snapshot [] "medium").
Proof.
  apply (testKVSync_empties_the_list acct api_token list_m good_env two_tier_store ∅ []
           [item "b@x.com"; item "c@x.com"]).
  - reflexivity.
  - vm_compute. reflexivity.
  - cbn. lia.
Defined.

Lemma testUserRemoval_empties_the_list_witness :
  ∃ w',
    testUserRemoval acct api_token list_m (fresh_world two_tier_store)
    = (Returned
         (Reply 200 cors_reply_headers
            (BodyUserRemovalTest (StepResult true [])
               (ItemsView 1 [ListItem "test@example.com"
                               (Some "Test user for removal testing"%string)])
               (StepResult true []) (ItemsView 0 []) true)), w') ∧
    w_plat w' = ListStore (ls_users two_tier_store)
                  (<[list_m := []]> (ls_lists two_tier_store)) ∧
    w_kv w' = ∅.
Proof.
  apply (testUserRemoval_empties_the_list acct api_token list_m two_tier_store ∅ []
           [item "b@x.com"; item "c@x.com"]).
  vm_compute. reflexivity.
Defined.

Lemma testPatchMethod_report_witness :
  ∃ w',
    testPatchMethod acct api_token list_m good_env (fresh_world two_tier_store)
    = (Returned
         (Reply 200 cors_reply_headers
            (BodyPatchTest
               (OpSummary true (Some "PATCH"%string) (Some 2) (Some 0))
               (ItemsView 2 ["patch1@example.com"; "patch2@example.com"]%string)
               (OpSummary true (Some "PATCH"%string) (Some 2) (Some 1))
               (ItemsView 3 ["patch2@example.com"; "patch3@example.com";
                             "patch4@example.com"]%string)
               (OpSummary true (Some "PATCH"%string) (Some 0) (Some 3))
               (ItemsView 0 []) true)), w') ∧
    ls_lists (w_plat w') !! list_m = Some [] ∧
    w_kv w' !! kvKey list_m = Some (snapshot [] "medium").
Proof.
  apply (testPatchMethod_report acct api_token list_m good_env two_tier_store ∅ []
           [item "b@x.com"; item "c@x.com"]).
  - reflexivity.
  - vm_compute. reflexivity.
  - cbn. lia.
Defined.

(** The route of the PATCH test, run. *)
Example testPatchMethod_example :
  (handleRequest not_modelled (Request "/api/test-patch-method") good_env
     (fresh_world two_tier_store)).1
  = Returned
      (Some (Reply 200 cors_reply_headers
               (BodyPatchTest
                  (OpSummary true (Some "PATCH"%string) (Some 2) (Some 0))
                  (ItemsView 2 ["patch1@example.com"; "patch2@example.com"]%string)
                  (OpSummary true (Some "PATCH"%string) (Some 2) (Some 1))
                  (ItemsView 3 ["patch2@example.com"; "patch3@example.com";
                                "patch4@example.com"]%string)
                  (OpSummary true (Some "PATCH"%string) (Some 0) (Some 3))
                  (ItemsView 0 []) true))).
Proof. vm_compute. reflexivity. Qed.
